(** * Verification of the build/verification orchestrator

    Shallow embedding of [gitPullAndScriptsLauncher.py] and
    [tools/launchAll.py].

    Conventions of the embedding.
    - A Python [str] is a [string]; a character is a code point below 256.
    - A raised exception is a value of [exn]; only its class is kept, the
      message is dropped.  A function that may raise returns [result].
    - [sys.exit(n)] is the value [Raise (SystemExit n)].
    - Child processes, the clock and the contents of files are read from
      explicit oracles. *)

From Stdlib Require Import Bool Arith ZArith Lia List Ascii String.
Import ListNotations.

Open Scope list_scope.
Open Scope string_scope.
Open Scope nat_scope.

Set Warnings "-register-all".

(** ** Exceptions and results *)

Inductive exn : Type :=
| ValueError
| RuntimeError
| FileNotFoundError
| PermissionError
| NotADirectoryError
| IsADirectoryError
| RecursionError
| TypeError
| TimeoutExpired
| CalledProcessError (returncode : Z)
| OSError
| SystemExit (status : Z).

Inductive result (A : Type) : Type :=
| Ok (a : A)
| Raise (e : exn).

Arguments Ok {A} a.
Arguments Raise {A} e.

Definition bind {A B : Type} (r : result A) (k : A -> result B) : result B :=
  match r with
  | Ok a => k a
  | Raise e => Raise e
  end.

Declare Scope result_scope.
Delimit Scope result_scope with result.
Notation "x <- r ;; k" := (bind r (fun x => k))
  (at level 61, r at next level, right associativity) : result_scope.
Notation "' p <- r ;; k" := (bind r (fun p => k))
  (at level 61, p pattern, r at next level, right associativity) : result_scope.

(** [except Exception] catches everything but [SystemExit]. *)
Definition is_exception (e : exn) : bool :=
  match e with
  | SystemExit _ => false
  | _ => true
  end.

(** The exit status of the process for the outcome of [main()]: an uncaught
    exception prints a traceback and exits with status 1. *)
Definition exit_status {A : Type} (r : result A) : Z :=
  match r with
  | Ok _ => 0%Z
  | Raise (SystemExit n) => n
  | Raise _ => 1%Z
  end.

(** ** State and exceptions

    A computation on a state [S] returns a value or raises, and in both
    cases leaves a state behind. *)

Definition M (S A : Type) : Type := S -> result A * S.

Definition ret {S A : Type} (a : A) : M S A := fun s => (Ok a, s).

Definition raise {S A : Type} (e : exn) : M S A := fun s => (Raise e, s).

Definition gets {S A : Type} (f : S -> A) : M S A := fun s => (Ok (f s), s).

Definition mbind {S A B : Type} (m : M S A) (k : A -> M S B) : M S B :=
  fun s =>
    match m s with
    | (Ok a, s') => k a s'
    | (Raise e, s') => (Raise e, s')
    end.

(** [try: m except <classes>: h]: the handler [h] answers [None] for an
    exception that the [except] clauses do not name. *)
Definition try_except {S A : Type} (m : M S A) (h : exn -> option (M S A))
  : M S A :=
  fun s =>
    match m s with
    | (Ok a, s') => (Ok a, s')
    | (Raise e, s') =>
        match h e with
        | Some k => k s'
        | None => (Raise e, s')
        end
    end.

(** [try: m finally: c] *)
Definition try_finally {S A : Type} (m : M S A) (c : M S unit) : M S A :=
  fun s =>
    let '(r, s1) := m s in
    match c s1 with
    | (Ok _, s2) => (r, s2)
    | (Raise e, s2) => (Raise e, s2)
    end.

(** [for x in l: body(x)] *)
Fixpoint for_each {S A : Type} (l : list A) (body : A -> M S unit) : M S unit :=
  match l with
  | [] => ret tt
  | x :: l' => mbind (body x) (fun _ => for_each l' body)
  end.

(** [m] raises nothing but exceptions that [except Exception] catches and
    [SystemExit] with a status of [codes]. *)
Definition exits_within {S A : Type} (codes : list Z) (m : M S A) : Prop :=
  forall s e s',
    m s = (Raise e, s') ->
    is_exception e = true \/ exists n, e = SystemExit n /\ In n codes.

(** A computation on a part of the state. *)
Definition lift {S T A : Type} (get : S -> T) (set : T -> S -> S) (m : M T A)
  : M S A :=
  fun s => let '(r, t) := m (get s) in (r, set t s).

Declare Scope M_scope.
Delimit Scope M_scope with M.
Notation "x <- m ;; k" := (mbind m (fun x => k))
  (at level 61, m at next level, right associativity) : M_scope.
Notation "' p <- m ;; k" := (mbind m (fun p => k))
  (at level 61, p pattern, m at next level, right associativity) : M_scope.
Notation "m ;; k" := (mbind m (fun _ => k))
  (at level 61, right associativity) : M_scope.

(** ** Python string primitives *)

Module Py.

Definition code (c : ascii) : nat := nat_of_ascii c.

Definition between (lo hi : nat) (c : ascii) : bool :=
  (lo <=? code c) && (code c <=? hi).

Definition is_upper (c : ascii) : bool := between 65 90 c.
Definition is_lower (c : ascii) : bool := between 97 122 c.
Definition is_digit (c : ascii) : bool := between 48 57 c.
Definition is_ascii_alpha (c : ascii) : bool := is_upper c || is_lower c.

(** [str.isspace] on a code point below 256. *)
Definition isspace (c : ascii) : bool :=
  between 9 13 c || between 28 32 c
  || (code c =? 133) || (code c =? 160).

(** [str.lower] on a code point below 256: A-Z, and the Latin-1 capitals
    U+00C0..U+00DE without the multiplication sign U+00D7. *)
Definition lower_char (c : ascii) : ascii :=
  if is_upper c || (between 192 222 c && negb (code c =? 215))
  then ascii_of_nat (code c + 32)
  else c.

Fixpoint lower (s : string) : string :=
  match s with
  | "" => ""
  | String c s' => String (lower_char c) (lower s')
  end.

Fixpoint all (p : ascii -> bool) (s : string) : bool :=
  match s with
  | "" => true
  | String c s' => p c && all p s'
  end.

(** [c in s] for a one-character [c]. *)
Fixpoint contains (c : ascii) (s : string) : bool :=
  match s with
  | "" => false
  | String a s' => Ascii.eqb a c || contains c s'
  end.

(** [s[:n]] and [s[n:]] for [0 <= n]. *)
Fixpoint take (n : nat) (s : string) : string :=
  match n, s with
  | S n', String c s' => String c (take n' s')
  | _, _ => ""
  end.

Fixpoint drop (n : nat) (s : string) : string :=
  match n, s with
  | S n', String _ s' => drop n' s'
  | _, _ => s
  end.

(** [s.find(c)]: [None] stands for -1. *)
Fixpoint find (c : ascii) (s : string) : option nat :=
  match s with
  | "" => None
  | String a s' =>
      if Ascii.eqb a c then Some 0
      else option_map S (find c s')
  end.

(** [s.find(c, start)] for [start <= len(s)]. *)
Definition find_from (c : ascii) (start : nat) (s : string) : option nat :=
  option_map (fun i => start + i) (find c (drop start s)).

(** [s.rfind(c)]. *)
Fixpoint rfind (c : ascii) (s : string) : option nat :=
  match s with
  | "" => None
  | String a s' =>
      match rfind c s' with
      | Some i => Some (S i)
      | None => if Ascii.eqb a c then Some 0 else None
      end
  end.

(** [s.lstrip(chars)] with the set of characters given as a predicate. *)
Fixpoint lstrip (p : ascii -> bool) (s : string) : string :=
  match s with
  | "" => ""
  | String c s' => if p c then lstrip p s' else s
  end.

(** Truth value of a string: [if s]. *)
Definition nonempty (s : string) : bool := negb (String.eqb s "").

(** [s.strip() == ""]: every character is white space. *)
Definition blank (s : string) : bool := all isspace s.

(** Removal of every character satisfying [p]: the loop
    [for b in ...: s = s.replace(b, "")] over one-character strings. *)
Fixpoint remove (p : ascii -> bool) (s : string) : string :=
  match s with
  | "" => ""
  | String c s' => if p c then remove p s' else String c (remove p s')
  end.

(** [s.split(c)] for a one-character separator. *)
Fixpoint split (c : ascii) (s : string) : list string :=
  match s with
  | "" => [""]
  | String a s' =>
      if Ascii.eqb a c then "" :: split c s'
      else match split c s' with
           | p :: ps => String a p :: ps
           | [] => [String a ""]
           end
  end.

(** [s.split(c, 1)] when [c in s]: the text before and after the first
    occurrence. *)
Definition split1 (c : ascii) (s : string) : string * string :=
  match find c s with
  | Some i => (take i s, drop (S i) s)
  | None => (s, "")
  end.

(** [s.split()]: the maximal runs of characters that are not white space;
    [word] is the run being read. *)
Fixpoint split_ws_from (word : string) (s : string) : list string :=
  match s with
  | "" => if nonempty word then [word] else []
  | String c s' =>
      if isspace c
      then (if nonempty word then word :: split_ws_from "" s'
            else split_ws_from "" s')
      else split_ws_from (word ++ String c "") s'
  end.

Definition split_ws (s : string) : list string := split_ws_from "" s.

(** [sep.join(l)]. *)
Definition join (sep : string) (l : list string) : string :=
  String.concat sep l.

(** [s.endswith(t)]. *)
Definition endswith (t s : string) : bool :=
  String.eqb (drop (String.length s - String.length t) s) t
  && (String.length t <=? String.length s).

(** [s.startswith(t)]. *)
Definition startswith (t s : string) : bool := String.prefix t s.

(** [t in s] for strings. *)
Fixpoint has_substring (t s : string) : bool :=
  String.prefix t s ||
  match s with
  | "" => false
  | String _ s' => has_substring t s'
  end.

(** Being a character other than [c]. *)
Definition other_than (c : ascii) (a : ascii) : bool := negb (Ascii.eqb a c).

(** [x in (a, b, ...)] for strings. *)
Definition mem (x : string) (l : list string) : bool :=
  existsb (String.eqb x) l.

End Py.

(** ** [urllib.parse.urlparse]

    The standard library function that [parse_github_url] calls, after
    CPython's [urllib/parse.py] (3.12), for a [str] argument and the default
    arguments [scheme=''] and [allow_fragments=True].  [_checknetloc] is
    left out: on a host made of code points below 256 its NFKC check never
    raises. *)

Module Url.
Import Py.

Record ParseResult : Type := mkParseResult {
  scheme : string;
  netloc : string;
  path : string;
  params : string;
  query : string;
  fragment : string
}.

(** [_WHATWG_C0_CONTROL_OR_SPACE] *)
Definition c0_control_or_space (c : ascii) : bool := code c <=? 32.

(** [_UNSAFE_URL_BYTES_TO_REMOVE = ['\t', '\r', '\n']] *)
Definition unsafe_url_byte (c : ascii) : bool :=
  (code c =? 9) || (code c =? 13) || (code c =? 10).

(** A character that [urlsplit] does not delete. *)
Definition kept (c : ascii) : bool := negb (unsafe_url_byte c).

(** [scheme_chars]: ASCII letters, digits and "+-." *)
Definition scheme_char (c : ascii) : bool :=
  is_ascii_alpha c || is_digit c || contains c "+-.".

Definition uses_params : list string :=
  [""; "ftp"; "hdl"; "prospero"; "http"; "imap"; "https"; "shttp"; "rtsp";
   "rtspu"; "sip"; "sips"; "mms"; "sftp"; "tel"].

(** The scheme detection of [urlsplit]:
    [i = url.find(':')], then [url[:i].lower(), url[i+1:]] when [i > 0],
    the first character is an ASCII letter and [url[:i]] is made of
    [scheme_chars]. *)
Definition split_scheme (url : string) : string * string :=
  match find ":" url with
  | Some i =>
      if (0 <? i)
         && match url with String c _ => is_ascii_alpha c | "" => false end
         && all scheme_char (take i url)
      then (lower (take i url), drop (S i) url)
      else ("", url)
  | None => ("", url)
  end.

(** [_splitnetloc(url, start)] *)
Definition splitnetloc (url : string) (start : nat) : string * string :=
  let delim :=
    fold_left
      (fun delim c =>
         match find_from c start url with
         | Some wdelim => Nat.min delim wdelim
         | None => delim
         end)
      ["/"; "?"; "#"]%char (String.length url) in
  (take (delim - start) (drop start url), drop delim url).

(** [url.split(c, 1)[0]] guarded by [c in url]: the text before the first
    [c], when there is one. *)
Definition cut (c : ascii) (s : string) : string :=
  fst (if contains c s then split1 c s else (s, "")).

(** [_splitparams(url)] *)
Definition splitparams (url : string) : string * string :=
  if contains "/" url then
    match find_from ";" (match rfind "/" url with Some j => j | None => 0 end) url with
    | None => (url, "")
    | Some i => (take i url, drop (S i) url)
    end
  else
    match find ";" url with
    | Some i => (take i url, drop (S i) url)
    | None => (take (String.length url - 1) url, url)
    end.

Section WithHostCheck.

(** [_check_bracketed_netloc]: whether a host written between brackets
    is accepted (it is handed to [ipaddress], which is not modelled). *)
Variable bracketed_netloc_ok : string -> bool.

Definition urlsplit (url : string)
  : result (string * string * string * string * string) :=
  let url := lstrip c0_control_or_space url in
  let url := remove unsafe_url_byte url in
  let '(scheme, url) := split_scheme url in
  bind
    (if String.eqb (take 2 url) "//" then
       let '(netloc, url) := splitnetloc url 2 in
       if (contains "[" netloc && negb (contains "]" netloc))
          || (contains "]" netloc && negb (contains "[" netloc))
       then Raise ValueError
       else if contains "[" netloc && contains "]" netloc
               && negb (bracketed_netloc_ok netloc)
       then Raise ValueError
       else Ok (netloc, url)
     else Ok ("", url))
    (fun '(netloc, url) =>
       let '(url, fragment) :=
         if contains "#" url then split1 "#" url else (url, "") in
       let '(url, query) :=
         if contains "?" url then split1 "?" url else (url, "") in
       Ok (scheme, netloc, url, query, fragment)).

Definition urlparse (url : string) : result ParseResult :=
  bind (urlsplit url)
    (fun '(scheme, netloc, url, query, fragment) =>
       let '(url, params) :=
         if mem scheme uses_params && contains ";" url
         then splitparams url
         else (url, "") in
       Ok (mkParseResult scheme netloc url params query fragment)).

End WithHostCheck.

End Url.

(** ** GitHub URL parsing / validation *)

Module GitUrl.
Import Py Url.

(** The character class of [r"[0-9A-Za-z._\-/]+"]. *)
Definition ref_char (c : ascii) : bool :=
  is_digit c || is_upper c || is_lower c || contains c "._-/".

(** [re.fullmatch(r"[0-9A-Za-z._\-/]+", s) is not None] *)
Definition fullmatch_ref (s : string) : bool :=
  negb (String.eqb s "") && all ref_char s.

Definition check_branch (branch : string) : result unit :=
  if blank branch then Raise ValueError
  else if negb (fullmatch_ref branch) then Raise ValueError
  else Ok tt.

(** [repo[:-4] if repo.endswith(".git") else repo] *)
Definition strip_git_suffix (repo : string) : string :=
  if endswith ".git" repo
  then take (String.length repo - 4) repo
  else repo.

(** The ref that the words of the specification read off a path: the
    segments after a third segment [tree], rejoined with "/"; it is empty
    when nothing follows [tree]. *)
Definition spec_tree_ref (path : string) : option string :=
  let parts := filter nonempty (split "/" path) in
  if (3 <=? List.length parts) && String.eqb (nth 2 parts "") "tree"
  then Some (join "/" (skipn 3 parts))
  else None.

Section WithHostCheck.

Variable bracketed_netloc_ok : string -> bool.

Definition parse_github_url (url : string)
  : result (string * option string * string) :=
  bind
    (match urlparse bracketed_netloc_ok url with
     | Ok u => Ok u
     | Raise _ => Raise ValueError
     end)
    (fun u =>
       if negb (mem (scheme u) ["http"; "https"])
          || negb (String.eqb (lower (netloc u)) "github.com")
       then Raise ValueError
       else
         let parts :=
           filter nonempty (split "/" (path u)) in
         if List.length parts <? 2 then Raise ValueError
         else
           let owner := nth 0 parts "" in
           let repo := nth 1 parts "" in
           let repo_name := strip_git_suffix repo in
           let repo_url :=
             scheme u ++ "://" ++ netloc u ++ "/" ++ owner ++ "/"
             ++ repo_name in
           bind
             (if (4 <=? List.length parts)
                 && String.eqb (nth 2 parts "") "tree"
              then
                let branch := join "/" (skipn 3 parts) in
                bind (check_branch branch) (fun _ => Ok (Some branch))
              else Ok None)
             (fun branch => Ok (repo_url, branch, repo_name))).

End WithHostCheck.

End GitUrl.



(** ** The file system

    A tree of named entries.  A path is the list of names from the root,
    already made absolute and normalised ([os.path.abspath]); symbolic
    links are followed at the last component only.  An entry carries the
    read-only attribute that [os.chmod(p, stat.S_IWRITE)] clears: a
    read-only file cannot be unlinked and a read-only directory cannot be
    removed until the attribute is cleared. *)

Module FS.

Definition path : Type := list string.

(** [a] is [b] or an ancestor of [b]. *)
Fixpoint is_prefix (a b : path) : bool :=
  match a, b with
  | [], _ => true
  | x :: a', y :: b' => String.eqb x y && is_prefix a' b'
  | _ :: _, [] => false
  end.

Inductive node : Type :=
| File (readonly : bool) (data : string)
| Dir (readonly : bool) (entries : list (string * node))
| Symlink (target : path).

Fixpoint assoc (x : string) (es : list (string * node)) : option node :=
  match es with
  | [] => None
  | (y, c) :: es' => if String.eqb y x then Some c else assoc x es'
  end.

(** Change, create or remove the entry [x]: [f] maps what is there to what
    shall be there. *)
Fixpoint alter_entry (x : string) (f : option node -> option node)
    (es : list (string * node)) : list (string * node) :=
  match es with
  | [] => match f None with
          | Some c => [(x, c)]
          | None => []
          end
  | (y, c) :: es' =>
      if String.eqb y x
      then match f (Some c) with
           | Some c' => (y, c') :: es'
           | None => es'
           end
      else (y, c) :: alter_entry x f es'
  end.

Fixpoint olookup (p : path) (o : option node) : option node :=
  match p with
  | [] => o
  | x :: q =>
      match o with
      | Some (Dir _ es) => olookup q (assoc x es)
      | _ => None
      end
  end.

Fixpoint oalter (p : path) (f : option node -> option node)
    (o : option node) : option node :=
  match p with
  | [] => f o
  | x :: q =>
      match o with
      | Some (Dir ro es) => Some (Dir ro (alter_entry x (oalter q f) es))
      | _ => o
      end
  end.


Definition lookup (p : path) (fs : node) : option node :=
  olookup p (Some fs).

Definition alter (p : path) (f : option node -> option node) (fs : node)
  : node :=
  match oalter p f (Some fs) with
  | Some fs' => fs'
  | None => fs
  end.

Definition delete (p : path) : node -> node := alter p (fun _ => None).

Definition modify (p : path) (h : node -> node) : node -> node :=
  alter p (option_map h).

Definition put (p : path) (n : node) : node -> node :=
  alter p (fun _ => Some n).

Definition clear_readonly (n : node) : node :=
  match n with
  | File _ d => File false d
  | Dir _ es => Dir false es
  | Symlink t => Symlink t
  end.

(** The entries of the directory at [p] replaced by [es]. *)
Definition with_entries (es : list (string * node)) (n : node) : node :=
  match n with
  | Dir ro _ => Dir ro es
  | _ => n
  end.

(** The tree with every read-only attribute cleared. *)
Fixpoint erase (n : node) : node :=
  match n with
  | File _ d => File false d
  | Dir _ es =>
      Dir false (map (fun xc => match xc with (x, c) => (x, erase c) end) es)
  | Symlink t => Symlink t
  end.

Definition erase_entry (xc : string * node) : string * node :=
  match xc with (x, c) => (x, erase c) end.

Definition not_link (n : node) : Prop :=
  match n with Symlink _ => False | _ => True end.

Fixpoint depth (n : node) : nat :=
  match n with
  | Dir _ es =>
      S (fold_right
           (fun xc d => match xc with (_, c) => Nat.max (depth c) d end)
           0 es)
  | _ => 0
  end.

(** The resolution of a chain of symbolic links gives up after
    [symloop_max] links. *)
Definition symloop_max : nat := 40.

Fixpoint realpath_upto (k : nat) (fs : node) (p : path) : option path :=
  match lookup p fs with
  | Some (Symlink t) =>
      match k with
      | 0 => None
      | S k' => realpath_upto k' fs t
      end
  | Some _ => Some p
  | None => None
  end.

Definition realpath (fs : node) (p : path) : option path :=
  realpath_upto symloop_max fs p.

(** [os.stat]: the entry at [p], links followed. *)
Definition stat (fs : node) (p : path) : option node :=
  match realpath fs p with
  | Some rp => lookup rp fs
  | None => None
  end.

Definition exists_ (p : path) (fs : node) : bool :=
  match stat fs p with Some _ => true | None => false end.

Definition isdir (p : path) (fs : node) : bool :=
  match stat fs p with Some (Dir _ _) => true | _ => false end.

Definition isfile (p : path) (fs : node) : bool :=
  match stat fs p with Some (File _ _) => true | _ => false end.

Definition islink (p : path) (fs : node) : bool :=
  match lookup p fs with Some (Symlink _) => true | _ => false end.

Definition is_dir_entry (c : node) : bool :=
  match c with Dir _ _ => true | _ => false end.

(** ** [os] *)

(** [os.listdir(p)] *)
Definition os_listdir (p : path) : M node (list string) :=
  fun fs =>
    match stat fs p with
    | Some (Dir _ es) => (Ok (map fst es), fs)
    | Some _ => (Raise NotADirectoryError, fs)
    | None => (Raise FileNotFoundError, fs)
    end.

(** [list(os.scandir(p))]: each name with
    [entry.is_dir(follow_symlinks=False)]. *)
Definition os_scandir (p : path) : M node (list (string * bool)) :=
  fun fs =>
    match stat fs p with
    | Some (Dir _ es) =>
        (Ok (map (fun xc => (fst xc, is_dir_entry (snd xc))) es), fs)
    | Some _ => (Raise NotADirectoryError, fs)
    | None => (Raise FileNotFoundError, fs)
    end.

(** [os.lstat(p)], for its exception only. *)
Definition os_lstat (p : path) : M node unit :=
  fun fs =>
    match lookup p fs with
    | Some _ => (Ok tt, fs)
    | None => (Raise FileNotFoundError, fs)
    end.

(** [os.chmod(p, stat.S_IWRITE)]: follows links. *)
Definition os_chmod (p : path) : M node unit :=
  fun fs =>
    match realpath fs p with
    | Some rp => (Ok tt, modify rp clear_readonly fs)
    | None => (Raise FileNotFoundError, fs)
    end.

(** [os.remove(p)], [os.unlink(p)] *)
Definition os_remove (p : path) : M node unit :=
  fun fs =>
    match lookup p fs with
    | None => (Raise FileNotFoundError, fs)
    | Some (Dir _ _) => (Raise IsADirectoryError, fs)
    | Some (File true _) => (Raise PermissionError, fs)
    | Some (File false _) => (Ok tt, delete p fs)
    | Some (Symlink _) => (Ok tt, delete p fs)
    end.

(** [os.rmdir(p)] *)
Definition os_rmdir (p : path) : M node unit :=
  fun fs =>
    match lookup p fs with
    | None => (Raise FileNotFoundError, fs)
    | Some (Dir ro es) =>
        match es, p with
        | _ :: _, _ => (Raise OSError, fs)
        | [], [] => (Raise PermissionError, fs)
        | [], _ :: _ =>
            if ro then (Raise PermissionError, fs) else (Ok tt, delete p fs)
        end
    | Some _ => (Raise NotADirectoryError, fs)
    end.

(** [os.mkdir(p)] *)
Definition os_mkdir (p : path) : M node unit :=
  fun fs =>
    match lookup p fs with
    | Some _ => (Raise OSError, fs)
    | None =>
        match lookup (removelast p) fs with
        | Some (Dir _ _) => (Ok tt, put p (Dir false []) fs)
        | Some _ => (Raise NotADirectoryError, fs)
        | None => (Raise FileNotFoundError, fs)
        end
    end.

(** [os.makedirs(p, exist_ok=True)]: the prefixes of [p] of length
    [k+1 .. length p], shortest first. *)
Fixpoint makedirs_from (todo : nat) (p : path) : M node unit :=
  match todo with
  | 0 => ret tt
  | S todo' =>
      let q := firstn (List.length p - todo') p in
      (fun fs =>
         match stat fs q with
         | Some (Dir _ _) => makedirs_from todo' p fs
         | Some _ => (Raise OSError, fs)
         | None => mbind (os_mkdir q) (fun _ => makedirs_from todo' p) fs
         end)
  end.

Definition os_makedirs (p : path) : M node unit :=
  makedirs_from (List.length p) p.

(** [os.rename(src, dst)] within one file system; an existing [dst] is
    not replaced. *)
Definition os_rename (src dst : path) : M node unit :=
  fun fs =>
    match lookup src fs with
    | None => (Raise FileNotFoundError, fs)
    | Some n =>
        match lookup dst fs, lookup (removelast dst) fs with
        | Some _, _ => (Raise OSError, fs)
        | None, Some (Dir _ _) =>
            if is_prefix src dst
            then (Raise OSError, fs)
            else (Ok tt, put dst n (delete src fs))
        | None, _ => (Raise FileNotFoundError, fs)
        end
    end.

(** ** [shutil.rmtree]

    After CPython's [shutil.rmtree] and [_rmtree_unsafe].  The function
    handed to the error handler is one of these. *)

Inductive func : Type :=
| f_lstat
| f_islink
| f_scandir
| f_unlink
| f_rmdir.

(** [func(p)], for its effect and its exception. *)
Definition call (f : func) (p : path) : M node unit :=
  match f with
  | f_lstat => os_lstat p
  | f_islink => ret tt
  | f_scandir => mbind (os_scandir p) (fun _ => ret tt)
  | f_unlink => os_remove p
  | f_rmdir => os_rmdir p
  end.

Definition handler : Type := func -> path -> exn -> M node unit.

(** [_rmtree_unsafe(path, onerror)].  [budget] bounds the depth of the
    recursion; it is spent before a tree of that depth is. *)
Fixpoint rmtree_unsafe (budget : nat) (onerror : handler) (p : path)
  : M node unit :=
  match budget with
  | 0 => raise RecursionError
  | S budget' =>
      (entries <- try_except (os_scandir p)
                    (fun e => Some (onerror f_scandir p e ;; ret []))%M ;;
       for_each entries
         (fun entry =>
            let fullname := (p ++ [fst entry])%list in
            if snd entry
            then rmtree_unsafe budget' onerror fullname
            else try_except (os_remove fullname)
                   (fun e => Some (onerror f_unlink fullname e))) ;;
       try_except (os_rmdir p) (fun e => Some (onerror f_rmdir p e)))%M
  end.

(** [shutil.rmtree(path, onerror=onerror)] *)
Definition shutil_rmtree (onerror : handler) (p : path) : M node unit :=
  fun fs =>
    match os_lstat p fs with
    | (Raise e, fs1) => onerror f_lstat p e fs1
    | (Ok _, fs1) =>
        if islink p fs1
        then onerror f_islink p OSError fs1
        else rmtree_unsafe (S (depth fs1)) onerror p fs1
    end.

End FS.


(** ** [gitPullAndScriptsLauncher.py]: file system helpers and git *)

Module Launcher.
Import Py FS.

(** Exit codes *)
Definition EXIT_BAD_GITHUB_URL : Z := 1.
Definition EXIT_BAD_CFG : Z := 7.
Definition EXIT_FOLDER_PATH_MISSING : Z := 8.
Definition EXIT_GIT_CLONE_FAILED : Z := 4.
Definition EXIT_LAUNCH_SCRIPT_NOT_FOUND : Z := 5.
Definition EXIT_LAUNCH_SCRIPT_FAILED : Z := 6.

Definition sys_exit {S A : Type} (status : Z) : M S A :=
  raise (SystemExit status).

(** The [onerror] handler of [force_rmtree]. *)
Definition onerror : handler :=
  fun func p exc =>
    match exc with
    | FileNotFoundError => ret tt
    | _ =>
        try_except
          (present <- gets (exists_ p) ;;
           if negb present then ret tt
           else (os_chmod p ;; call func p))%M
          (fun e =>
             match e with
             | FileNotFoundError => Some (ret tt)
             | _ => None
             end)
    end.

Definition force_rmtree (p : path) : M node unit :=
  (present <- gets (exists_ p) ;;
   if present then shutil_rmtree onerror p else ret tt)%M.

Definition ensure_dir (p : path) : M node unit := os_makedirs p.

(** The body of the loop of [clear_folder_contents], for one name of the
    listing. *)
Definition clear_entry (folder_path : path) (name : string) : M node unit :=
  (let p := (folder_path ++ [name])%list in
   d <- gets (isdir p) ;;
   l <- gets (islink p) ;;
   if d && negb l then force_rmtree p
   else
     try_except (os_chmod p)
       (fun e => if is_exception e then Some (ret tt) else None) ;;
     try_except (os_remove p)
       (fun e =>
          match e with
          | FileNotFoundError => Some (ret tt)
          | _ => None
          end))%M.

(** [clear_folder_contents] (the source defines it twice, with the same
    body). *)
Definition clear_folder_contents (folder_path : path) : M node unit :=
  (is_dir <- gets (isdir folder_path) ;;
   if negb is_dir then raise ValueError
   else
     names <- os_listdir folder_path ;;
     for_each names (clear_entry folder_path))%M.

(** ** The world of the launcher: the file system and the command lines
    handed to [subprocess.run], latest first. *)

Record World : Type := mkWorld {
  fs : node;
  calls : list (list string)
}.

Definition set_fs (t : node) (w : World) : World :=
  mkWorld t (calls w).

Definition on_fs {A : Type} (m : M node A) : M World A := lift fs set_fs m.

(** What running git does: the status it exits with and the tree it
    leaves at the clone directory, if any. *)
Record GitRun : Type := mkGitRun {
  git_status : Z;
  git_tree : option node
}.

(** [os.path.join] of the names of a path, for a command line. *)
Definition path_str (p : path) : string := "/" ++ join "/" p.

(** [os.path.basename] *)
Definition basename (p : path) : string := last p "".

(** [os.path.samefile] *)
Definition samefile (a b : path) (t : node) : bool :=
  match realpath t a, realpath t b with
  | Some ra, Some rb => is_prefix ra rb && is_prefix rb ra
  | _, _ => false
  end.

(** [shutil.move(src, dst)] within one file system, where it renames.
    (Across file systems it copies and then removes the source; the model
    has one file system.) *)
Definition shutil_move (src dst : path) : M node path :=
  (d <- gets (isdir dst) ;;
   if d then
     same <- gets (samefile src dst) ;;
     l <- gets (islink src) ;;
     if same && negb l then (os_rename src dst ;; ret dst)
     else
       let real_dst := (dst ++ [basename src])%list in
       present <- gets (exists_ real_dst) ;;
       if present then raise OSError
       else (os_rename src real_dst ;; ret real_dst)
   else (os_rename src dst ;; ret dst))%M.

Section WithEnvironment.

(** [_check_bracketed_netloc] of [urllib.parse]. *)
Variable bracketed_netloc_ok : string -> bool.

(** The git executable, by command line. *)
Variable git : list string -> GitRun.

(** The error handler of [tempfile.TemporaryDirectory]'s cleanup. *)
Variable tempdir_onexc : handler.

(** [subprocess.run(cmd, check=True)] for a git command that writes to
    [clone_dir]. *)
Definition subprocess_run_git (cmd : list string) (clone_dir : path)
  : M World unit :=
  fun w =>
    let run := git cmd in
    let t := match git_tree run with
             | Some tree => put clone_dir tree (fs w)
             | None => fs w
             end in
    let w' := mkWorld t (cmd :: calls w) in
    if Z.eqb (git_status run) 0 then (Ok tt, w')
    else (Raise (CalledProcessError (git_status run)), w').

(** The command line that [git_clone] builds. *)
Definition git_command (repository : string) (branch : option string)
    (clone_dir : path) (recurse_submodules : bool) : list string :=
  (["git"; "clone"]
   ++ (if recurse_submodules then ["--recurse-submodules"] else [])
   ++ match branch with
      | Some b => if nonempty b then ["--branch"; b] else []
      | None => []
      end
   ++ [repository; path_str clone_dir])%list.

Definition git_clone (repository : string) (branch : option string)
    (clone_dir : path) (recurse_submodules : bool) : M World unit :=
  if negb (startswith "http" repository)
     || negb (has_substring "://github.com/" repository)
  then raise ValueError
  else
    (present <- on_fs (gets (exists_ clone_dir)) ;;
     (if present then on_fs (force_rmtree clone_dir) else ret tt) ;;
     let cmd :=
       git_command repository branch clone_dir recurse_submodules in
     try_except (subprocess_run_git cmd clone_dir)
       (fun e =>
          match e with
          | CalledProcessError _ => Some (raise RuntimeError)
          | _ => None
          end))%M.

(** [with tempfile.TemporaryDirectory(...) as tmp: body]; [tmp] is the
    unused name that [mkdtemp] picks. *)
Definition with_temporary_directory {A : Type} (tmp : path)
    (body : M World A) : M World A :=
  (on_fs (os_mkdir tmp) ;;
   try_finally body (on_fs (shutil_rmtree tempdir_onexc tmp)))%M.

(** The body of the [with] block of [clone_and_move_into_folder]. *)
Definition clone_then_move (tmp : path) (repo_url : string)
    (branch : option string) (repo_name : string) (target_folder : path)
    (recurse_submodules : bool) : M World path :=
  (let clone_path := (tmp ++ [repo_name])%list in
   git_clone repo_url branch clone_path recurse_submodules ;;
   let dest_path := (target_folder ++ [repo_name])%list in
   present <- on_fs (gets (exists_ dest_path)) ;;
   (if present then on_fs (force_rmtree dest_path) else ret tt) ;;
   on_fs (shutil_move clone_path dest_path) ;;
   ret dest_path)%M.

Definition clone_and_move_into_folder (tmp : path) (github_url : string)
    (target_folder : path) (recurse_submodules : bool) : M World path :=
  ('(repo_url, branch, repo_name) <-
     (fun w => (GitUrl.parse_github_url bracketed_netloc_ok github_url, w)) ;;
   with_temporary_directory tmp
     (clone_then_move tmp repo_url branch repo_name target_folder
        recurse_submodules))%M.

End WithEnvironment.

End Launcher.



(** ** [tools/launchAll.py] *)

Module LaunchAll.
Import Py.

Local Open Scope Z_scope.

(** How a run of [docker info] under [timeout=5] ends: with an exit
    status, at the timeout, or not started at all (no such executable,
    no permission). *)
Inductive probe_outcome : Type :=
| Exited (status : Z)
| TimedOut
| NotStarted.

(** What the script does to the outside, in order. *)
Inductive event : Type :=
| Probe
| Launch (exe : string)
| Sleep (seconds : Z)
| Run (cmd : list string).

(** The outside of the script.  Time is counted in milliseconds. *)
Record Env : Type := mkEnv {
  probe_result : nat -> probe_outcome;  (* the n-th run of docker info *)
  probe_ms : nat -> nat;                (* how long it takes *)
  sleep_extra_ms : nat -> nat;          (* by how much the n-th sleep overruns *)
  child_status : nat -> list string -> Z; (* exit status of the n-th step *)
  path_exists : string -> bool;
  popen_error : string -> option exn;
  platform_system : string
}.

Record World : Type := mkWorld {
  now : Z;
  probes : nat;
  sleeps : nat;
  children : nat;
  trace : list event        (* latest first *)
}.

(** [config.yaml], read by [load_config]. *)
Record Config : Type := mkConfig {
  cfg_os : string;
  cfg_executable_path : option string;
  cfg_timeout_seconds : Z;
  cfg_steps : list string
}.

Definition sys_exit {A : Type} (status : Z) : M World A :=
  raise (SystemExit status).

Definition is_run (e : event) : bool :=
  match e with Run _ => true | _ => false end.

Definition is_launch (e : event) : bool :=
  match e with Launch _ => true | _ => false end.

Section WithEnv.
Variable env : Env.


(** [subprocess.run(cmd, check=True)] for a workflow step. *)
Definition subprocess_run (cmd : list string) : M World unit :=
  fun w =>
    let status := child_status env (children w) cmd in
    let w' := mkWorld (now w) (probes w) (sleeps w) (S (children w))
                (Run cmd :: trace w) in
    if status =? 0 then (Ok tt, w')
    else (Raise (CalledProcessError status), w').

Definition run (cmd : list string) : M World unit := subprocess_run cmd.

(** [subprocess.run(["docker", "info"], ..., check=True, timeout=5)] *)
Definition docker_info : M World unit :=
  fun w =>
    let n := probes w in
    let w' := mkWorld (now w + Z.of_nat (probe_ms env n)) (S n) (sleeps w)
                (children w) (Probe :: trace w) in
    match probe_result env n with
    | Exited status =>
        if status =? 0 then (Ok tt, w')
        else (Raise (CalledProcessError status), w')
    | TimedOut => (Raise TimeoutExpired, w')
    | NotStarted => (Raise OSError, w')
    end.

Definition docker_is_ready : M World bool :=
  try_except (mbind docker_info (fun _ => ret true))
    (fun e => if is_exception e then Some (ret false) else None).

(** [time.sleep(2)] *)
Definition time_sleep (seconds : Z) : M World unit :=
  fun w =>
    (Ok tt,
     mkWorld (now w + seconds * 1000
              + Z.of_nat (sleep_extra_ms env (sleeps w)))
       (probes w) (S (sleeps w)) (children w) (Sleep seconds :: trace w)).

(** [subprocess.Popen([docker_exe])] *)
Definition popen (exe : string) : M World unit :=
  fun w =>
    match popen_error env exe with
    | Some e => (Raise e, w)
    | None =>
        (Ok tt,
         mkWorld (now w) (probes w) (sleeps w) (children w)
           (Launch exe :: trace w))
    end.

(** The [while] loop of [ensure_docker_running]; [rounds] bounds the
    number of iterations, which the sleeps bound anyway. *)
Fixpoint wait_until_ready (rounds : nat) (start max_wait_seconds : Z)
  : M World unit :=
  fun w =>
    if now w - start <? max_wait_seconds * 1000 then
      match rounds with
      | O => (Raise RecursionError, w)
      | S rounds' =>
          (ready <- docker_is_ready ;;
           if ready then ret tt
           else (time_sleep 2 ;;
                 wait_until_ready rounds' start max_wait_seconds))%M w
      end
    else sys_exit 1 w.

Definition ensure_docker_running (docker_exe : option string)
    (max_wait_seconds : Z) : M World unit :=
  (ready <- docker_is_ready ;;
   if ready then ret tt
   else
     match docker_exe with
     | None => raise TypeError
     | Some exe =>
         if negb (path_exists env exe) then sys_exit 1
         else
           (popen exe ;;
            start <- gets now ;;
            wait_until_ready (S (Z.to_nat (max_wait_seconds / 2)))
              start max_wait_seconds)
     end)%M.

(** [main()]; [config] is what [load_config] returns, [None] when
    [config.yaml] does not exist. *)
Definition main (config : option Config) : M World unit :=
  match config with
  | None => sys_exit 1
  | Some c =>
      if negb (has_substring (lower (cfg_os c))
                 (lower (platform_system env)))
      then sys_exit 1
      else
        match cfg_steps c with
        | [] => sys_exit 1
        | steps =>
            try_except
              (ensure_docker_running (cfg_executable_path c)
                 (cfg_timeout_seconds c) ;;
               for_each steps
                 (fun step => run ("python" :: split_ws step)))%M
              (fun e =>
                 match e with
                 | CalledProcessError returncode =>
                     Some (sys_exit returncode)
                 | _ => None
                 end)
        end
  end.

End WithEnv.

End LaunchAll.


(** ** [gitPullAndScriptsLauncher.py]: arguments, configuration, [main] *)

Module Pipeline.
Import Py FS Launcher.

(** A value of the YAML document. *)
Inductive pyval : Type :=
| PyNone
| PyBool (b : bool)
| PyInt (z : Z)
| PyStr (s : string)
| PyList (l : list pyval)
| PyDict (d : list (string * pyval)).

Definition dict : Type := list (string * pyval).

(** [d.get(k)] *)
Fixpoint dict_get (k : string) (d : dict) : option pyval :=
  match d with
  | [] => None
  | (k', v) :: d' => if String.eqb k' k then Some v else dict_get k d'
  end.

(** The strings of a list, when every element [isinstance(x, str)]. *)
Fixpoint all_strings (l : list pyval) : option (list string) :=
  match l with
  | [] => Some []
  | PyStr s :: l' => option_map (cons s) (all_strings l')
  | _ :: _ => None
  end.

Definition validate_cfg (cfg : dict) : result (string * list string) :=
  match dict_get "folder_path" cfg with
  | Some (PyStr folder_path) =>
      if blank folder_path then Raise ValueError
      else
        let repo_urls :=
          match dict_get "repo_urls" cfg with
          | None => PyList []
          | Some PyNone => PyList []
          | Some v => v
          end in
        match repo_urls with
        | PyList l =>
            match all_strings l with
            | Some urls => Ok (folder_path, urls)
            | None => Raise ValueError
            end
        | _ => Raise ValueError
        end
  | _ => Raise ValueError
  end.

(** The [while] loop of [parse_args] over the arguments not yet read. *)
Fixpoint parse_options (rest : list string) (cfg_path : string)
    (recurse_submodules : bool) (python_exe : string)
  : result (string * bool * string) :=
  match rest with
  | [] => Ok (cfg_path, recurse_submodules, python_exe)
  | a :: rest' =>
      if mem a ["-h"; "--help"] then Raise (SystemExit 0)
      else if String.eqb a "--cfg" then
        match rest' with
        | [] => Raise (SystemExit 1)
        | v :: rest'' => parse_options rest'' v recurse_submodules python_exe
        end
      else if String.eqb a "--no-submodules" then
        parse_options rest' cfg_path false python_exe
      else if String.eqb a "--python" then
        match rest' with
        | [] => Raise (SystemExit 1)
        | v :: rest'' => parse_options rest'' cfg_path recurse_submodules v
        end
      else Raise (SystemExit 1)
  end.

(** [parse_args(argv)]; [sys_executable] is [sys.executable]. *)
Definition parse_args (sys_executable : string) (argv : list string)
  : result (option string * string * bool * string) :=
  match argv with
  | [] => Raise (SystemExit 0)
  | a :: rest =>
      if mem a ["-h"; "--help"] then Raise (SystemExit 0)
      else
        let '(github_url, rest) :=
          if negb (startswith "-" a) then (Some a, rest) else (None, argv) in
        bind (parse_options rest "./test_module_cfg.yaml" true sys_executable)
          (fun '(cfg_path, recurse_submodules, python_exe) =>
             Ok (github_url, cfg_path, recurse_submodules, python_exe))
  end.

(** The list that [main] clones: the URL of the command line when it is
    truthy, else the entries of [repo_urls] that are not blank. *)
Definition urls_to_clone (github_url : option string)
    (repo_urls : list string) : list string :=
  match github_url with
  | Some u => if nonempty u then [u]
              else filter (fun u => negb (blank u)) repo_urls
  | None => filter (fun u => negb (blank u)) repo_urls
  end.

(** [except Exception: sys.exit(status)] *)
Definition exit_on_exception {S A : Type} (status : Z) (e : exn)
  : option (M S A) :=
  if is_exception e then Some (sys_exit status) else None.

(** What the script does not own. *)
Record Env : Type := mkEnv {
  bracketed_netloc_ok : string -> bool;   (* urllib's check of a bracketed host *)
  git : list string -> GitRun;            (* the git executable *)
  tempdir_onexc : handler;                (* TemporaryDirectory's cleanup handler *)
  mkdtemp : World -> path;                (* the scratch name picked *)
  sys_executable : string;
  load_yaml : string -> M World dict;     (* reads and parses the YAML file *)
  abspath : string -> path;               (* os.path.abspath *)
  script_dir : path;                      (* dirname(abspath(__file__)) *)
  spawn : list string -> path -> M World Z; (* runs a command in a directory *)
  shutil_copytree : path -> path -> M node unit;
  shutil_copy2 : path -> path -> M node unit
}.

(** The operations taken from the environment raise exceptions only: none
    of them ends the process by itself. *)
Definition well_behaved (env : Env) : Prop :=
  (forall f p e, exits_within [] (tempdir_onexc env f p e))
  /\ (forall p, exits_within [] (load_yaml env p))
  /\ (forall cmd cwd, exits_within [] (spawn env cmd cwd))
  /\ (forall s d, exits_within [] (shutil_copytree env s d))
  /\ (forall s d, exits_within [] (shutil_copy2 env s d)).

Section WithEnv.
Variable env : Env.

(** [copy_folder_contents]: the body of its loop, then the function. *)
Definition copy_entry (src_dir dst_dir : path) (name : string) : M node unit :=
  (let s := (src_dir ++ [name])%list in
   let d := (dst_dir ++ [name])%list in
   is_dir <- gets (isdir s) ;;
   is_link <- gets (islink s) ;;
   present <- gets (exists_ d) ;;
   if is_dir && negb is_link then
     ((if present then force_rmtree d else ret tt) ;;
      shutil_copytree env s d)
   else
     ((if present then
         (try_except (os_chmod d)
            (fun e => if is_exception e then Some (ret tt) else None) ;;
          try_except (os_remove d)
            (fun e => if is_exception e then Some (ret tt) else None))
       else ret tt) ;;
      shutil_copy2 env s d))%M.

Definition copy_folder_contents (src_dir dst_dir : path) : M node unit :=
  (is_dir <- gets (isdir src_dir) ;;
   if negb is_dir then raise ValueError
   else
     (ensure_dir dst_dir ;;
      names <- os_listdir src_dir ;;
      for_each names (copy_entry src_dir dst_dir)))%M.

(** [load_yaml] then [validate_cfg], under [except Exception]. *)
Definition read_cfg (cfg_path : string) : M World (string * list string) :=
  (cfg <- load_yaml env cfg_path ;;
   (fun w => (validate_cfg cfg, w)))%M.

Definition stage_cfg (cfg_path : string) : M World (string * list string) :=
  try_except (read_cfg cfg_path) (exit_on_exception EXIT_BAD_CFG).

(** Steps 1 and 4: clear the workspace. *)
Definition stage_clear (folder_path : path) : M World unit :=
  try_except (on_fs (clear_folder_contents folder_path))
    (exit_on_exception EXIT_FOLDER_PATH_MISSING).

(** The [try] body of step 2, for one URL of the list. *)
Definition clone_body (folder_path : path) (recurse_submodules : bool)
    (u : string) : M World unit :=
  (tmp <- gets (mkdtemp env) ;;
   clone_and_move_into_folder (bracketed_netloc_ok env) (git env)
     (tempdir_onexc env) tmp u folder_path recurse_submodules ;;
   ret tt)%M.

(** Step 2, for one URL of the list. *)
Definition clone_one (folder_path : path) (recurse_submodules : bool)
    (u : string) : M World unit :=
  try_except (clone_body folder_path recurse_submodules u)
    (fun e =>
       match e with
       | ValueError => Some (sys_exit EXIT_BAD_GITHUB_URL)
       | RuntimeError => Some (sys_exit EXIT_GIT_CLONE_FAILED)
       | _ => None
       end).

Definition stage_clone (urls : list string) (folder_path : path)
    (recurse_submodules : bool) : M World unit :=
  match urls with
  | [] => sys_exit EXIT_BAD_CFG
  | _ => for_each urls (clone_one folder_path recurse_submodules)
  end.

(** [os.path.abspath(os.path.join(p, os.pardir))] *)
Definition parent_dir (p : path) : path := removelast p.

(** [subprocess.run(cmd, check=True, cwd=cwd)] *)
Definition subprocess_run_checked (cmd : list string) (cwd : path)
  : M World unit :=
  (status <- spawn env cmd cwd ;;
   if Z.eqb status 0 then ret tt else raise (CalledProcessError status))%M.

(** Step 3: [run_launch_all]. *)
Definition run_launch_all (folder_path : path) (python_exe : string)
  : M World unit :=
  (let script_path := (parent_dir folder_path ++ ["launchAll.py"])%list in
   found <- on_fs (gets (isfile script_path)) ;;
   if negb found then sys_exit EXIT_LAUNCH_SCRIPT_NOT_FOUND
   else
     try_except
       (subprocess_run_checked [python_exe; "launchAll.py"]
          (parent_dir folder_path))
       (fun e =>
          match e with
          | CalledProcessError _ => Some (sys_exit EXIT_LAUNCH_SCRIPT_FAILED)
          | _ => None
          end))%M.

(** Steps 5 and 6: the harvest of the reports. *)
Definition testRecordPath (folder_path : path) : path :=
  (parent_dir folder_path ++ ["utExecutionAndResults"; "utResults"])%list.

Definition uintTestReports : path := (script_dir env ++ ["uintTestReports"])%list.

Definition harvest_clear_destination : M World unit :=
  (on_fs (ensure_dir uintTestReports) ;;
   names <- on_fs (os_listdir uintTestReports) ;;
   match names with
   | [] => ret tt
   | _ => try_except (on_fs (clear_folder_contents uintTestReports))
            (exit_on_exception 1)
   end)%M.

Definition harvest_clear_source (folder_path : path) : M World unit :=
  try_except (on_fs (clear_folder_contents (testRecordPath folder_path)))
    (exit_on_exception 1).

Definition harvest_copy (folder_path : path) : M World unit :=
  try_except
    (on_fs (copy_folder_contents (testRecordPath folder_path) uintTestReports) ;;
     harvest_clear_source folder_path)%M
    (exit_on_exception 1).

Definition stage_harvest (folder_path : path) : M World unit :=
  (harvest_clear_destination ;; harvest_copy folder_path)%M.

(** Steps 2 to 6 of [main()], for the list of URLs to clone. *)
Definition materialize_and_run (urls : list string) (folder_path : path)
    (recurse_submodules : bool) (python_exe : string) : M World unit :=
  (stage_clone urls folder_path recurse_submodules ;;
   run_launch_all folder_path python_exe ;;
   stage_clear folder_path ;;
   stage_harvest folder_path)%M.

(** [main()], after [parse_args]. *)
Definition run_pipeline (github_url : option string) (cfg_path : string)
    (recurse_submodules : bool) (python_exe : string) : M World unit :=
  ('(folder_path, repo_urls) <- stage_cfg cfg_path ;;
   let folder_path := abspath env folder_path in
   on_fs (ensure_dir folder_path) ;;
   stage_clear folder_path ;;
   materialize_and_run (urls_to_clone github_url repo_urls) folder_path
     recurse_submodules python_exe)%M.

Definition main (argv : list string) : M World unit :=
  ('(github_url, cfg_path, recurse_submodules, python_exe) <-
     (fun w => (parse_args (sys_executable env) argv, w)) ;;
   run_pipeline github_url cfg_path recurse_submodules python_exe)%M.

(** Full success, in the words of the specification: the arguments are
    read and every stage of [main] runs to its end, from the world [w] to
    the world [w']. *)
Definition full_success (argv : list string) (w w' : World) : Prop :=
  exists github_url cfg_path recurse_submodules python_exe folder_path
         repo_urls w1 w2 w3 w4 w5 w6,
    parse_args (sys_executable env) argv
    = Ok (github_url, cfg_path, recurse_submodules, python_exe)
    /\ stage_cfg cfg_path w = (Ok (folder_path, repo_urls), w1)
    /\ on_fs (ensure_dir (abspath env folder_path)) w1 = (Ok tt, w2)
    /\ stage_clear (abspath env folder_path) w2 = (Ok tt, w3)
    /\ stage_clone (urls_to_clone github_url repo_urls)
         (abspath env folder_path) recurse_submodules w3 = (Ok tt, w4)
    /\ run_launch_all (abspath env folder_path) python_exe w4 = (Ok tt, w5)
    /\ stage_clear (abspath env folder_path) w5 = (Ok tt, w6)
    /\ stage_harvest (abspath env folder_path) w6 = (Ok tt, w').

End WithEnv.

(** The failure classes of the pipeline, and the status with which each
    ends the process. *)
Inductive failure_class : Type :=
| BadSourceUrl
| BadConfiguration
| MissingWorkspace
| RetrievalFailure
| DriverNotFound
| DriverFailed
| HarvestClearDestination
| HarvestCopy
| HarvestClearSource.

Definition status_of (c : failure_class) : Z :=
  match c with
  | BadSourceUrl => EXIT_BAD_GITHUB_URL
  | BadConfiguration => EXIT_BAD_CFG
  | MissingWorkspace => EXIT_FOLDER_PATH_MISSING
  | RetrievalFailure => EXIT_GIT_CLONE_FAILED
  | DriverNotFound => EXIT_LAUNCH_SCRIPT_NOT_FOUND
  | DriverFailed => EXIT_LAUNCH_SCRIPT_FAILED
  | HarvestClearDestination => 1
  | HarvestCopy => 1
  | HarvestClearSource => 1
  end.

(** The classes that have a constant of their own in the script. *)
Definition named_class (c : failure_class) : bool :=
  match c with
  | HarvestClearDestination | HarvestCopy | HarvestClearSource => false
  | _ => true
  end.

(** The statuses that [main] hands to [sys.exit] after the arguments are
    read. *)
Definition pipeline_codes : list Z :=
  [EXIT_BAD_GITHUB_URL; EXIT_BAD_CFG; EXIT_FOLDER_PATH_MISSING;
   EXIT_GIT_CLONE_FAILED; EXIT_LAUNCH_SCRIPT_NOT_FOUND;
   EXIT_LAUNCH_SCRIPT_FAILED].

End Pipeline.


(** ** More Python text primitives *)

Module Text.
Import Py.

Definition LF : ascii := "010"%char.
Definition dquote : ascii := "034"%char.
Definition squote : ascii := "039"%char.

(** [s.rstrip(chars)] with the set of characters given as a predicate. *)
Fixpoint rstrip (p : ascii -> bool) (s : string) : string :=
  match s with
  | "" => ""
  | String c s' =>
      match rstrip p s' with
      | "" => if p c then "" else String c ""
      | r => String c r
      end
  end.

(** [s.strip()] *)
Definition strip (s : string) : string := rstrip isspace (lstrip isspace s).

(** [s[1:-1]] *)
Definition inner (s : string) : string :=
  take (String.length s - 2) (drop 1 s).

(** The lines that iterating over a text file yields, each with its line
    end; [line] is the line being read. *)
Fixpoint readlines_from (line : string) (text : string) : list string :=
  match text with
  | "" => if nonempty line then [line] else []
  | String c text' =>
      if Ascii.eqb c LF
      then (line ++ String c "") :: readlines_from "" text'
      else readlines_from (line ++ String c "") text'
  end.

Definition readlines (text : string) : list string := readlines_from "" text.

End Text.

(** ** [load_yaml]

    The data of a file is its text as [open(path, "r", encoding="utf-8")]
    hands it out, decoded and with its line ends translated; a file that
    [os.path.isfile] finds can be opened and read.  The document that
    PyYAML returns is a [pyval]: scalars other than these (floats, dates)
    are left out. *)

Module Yaml.
Import Py Text FS Pipeline.

(** The local function [strip_quotes] of the fallback. *)
Definition strip_quotes (s : string) : string :=
  let s := strip s in
  if (startswith (String dquote "") s && endswith (String dquote "") s)
     || (startswith (String squote "") s && endswith (String squote "") s)
  then inner s
  else s.

(** The local variables of the fallback. *)
Record state : Type := mkState {
  folder_path : option string;
  repo_urls : list string;
  in_repo_urls : bool
}.

Definition initial : state := mkState None [] false.

(** The body of the loop [for raw in f]. *)
Definition read_line (st : state) (raw : string) : state :=
  let line := strip raw in
  if negb (nonempty line) || startswith "#" line then st
  else if startswith "folder_path:" line then
    mkState (Some (strip_quotes (strip (snd (split1 ":" line)))))
      (repo_urls st) false
  else if startswith "repo_urls:" line then
    mkState (folder_path st) (repo_urls st) true
  else if in_repo_urls st && startswith "-" line then
    let item := strip_quotes (strip (drop 1 line)) in
    if nonempty item
    then mkState (folder_path st) (repo_urls st ++ [item]) (in_repo_urls st)
    else st
  else st.

(** The dictionary [data2] that the fallback returns. *)
Definition data2 (st : state) : dict :=
  (match folder_path st with
   | Some f => [("folder_path", PyStr f)]
   | None => []
   end
   ++ match repo_urls st with
      | [] => []
      | _ => [("repo_urls", PyList (map PyStr (repo_urls st)))]
      end)%list.

(** The [except ImportError] branch, on the lines of the file. *)
Definition load_yaml_fallback (lines : list string) : dict :=
  data2 (fold_left read_line lines initial).

(** Truth value of a value of the document: [data or {}]. *)
Definition truthy (v : pyval) : bool :=
  match v with
  | PyNone => false
  | PyBool b => b
  | PyInt z => negb (Z.eqb z 0)
  | PyStr s => nonempty s
  | PyList l => match l with [] => false | _ => true end
  | PyDict d => match d with [] => false | _ => true end
  end.

(** [load_yaml(path)].  [safe_load] is PyYAML's function on the text of
    the file, [None] when [import yaml] raises [ImportError]. *)
Definition load_yaml (safe_load : option (string -> result pyval))
    (p : path) : M node dict :=
  fun fs =>
    match stat fs p with
    | Some (File _ text) =>
        match safe_load with
        | Some parse =>
            match parse text with
            | Ok v =>
                match (if truthy v then v else PyDict []) with
                | PyDict data => (Ok data, fs)
                | _ => (Raise ValueError, fs)
                end
            | Raise e => (Raise e, fs)
            end
        | None => (Ok (load_yaml_fallback (readlines text)), fs)
        end
    | _ => (Raise ValueError, fs)
    end.

(** The configuration file as the help text of the script documents it:
    a quoted [folder_path], then the list [repo_urls] with one quoted
    item on each line. *)
Definition quoted (s : string) : string :=
  String dquote (s ++ String dquote "").

Definition documented_item (u : string) : string :=
  "    - " ++ quoted u ++ String LF "".

Definition documented_cfg (folder_path : string) (repo_urls : list string)
  : string :=
  "folder_path: " ++ quoted folder_path ++ String LF ""
  ++ "repo_urls:" ++ String LF ""
  ++ String.concat "" (map documented_item repo_urls).

(** The surroundings of the launcher with [load_yaml] itself in the place
    of the loader. *)
Definition with_load_yaml (safe_load : option (string -> result pyval))
    (env : Env) : Env :=
  mkEnv (bracketed_netloc_ok env) (git env) (tempdir_onexc env)
    (mkdtemp env) (sys_executable env)
    (fun cfg_path => Launcher.on_fs (load_yaml safe_load (abspath env cfg_path)))
    (abspath env) (script_dir env) (spawn env) (shutil_copytree env)
    (shutil_copy2 env).

End Yaml.


(** ** Sample data *)

Module Samples.
Import FS Launcher.

(** A workspace with a read-only file, a read-only directory tree, a link
    to a directory outside the workspace and a dangling link. *)
Definition sample_tree : node :=
  Dir false
    [("ws", Dir true
              [("a", File true "x");
               ("d", Dir true [("f", File true "y");
                               ("l", Symlink ["out"]);
                               ("e", Dir true [])]);
               ("lnk", Symlink ["out"]);
               ("dead", Symlink ["nowhere"])]);
     ("out", Dir true [("keep", File true "k")])].

(** What git retrieves. *)
Definition sample_clone : node :=
  Dir false [(".git", Dir false [("HEAD", File true "ref")]);
             ("README.md", File false "hello")].

Definition sample_git (cmd : list string) : GitRun :=
  mkGitRun 0 (Some sample_clone).



(** Docker is up and every workflow step exits with status 0. *)
Definition sample_env_ok : LaunchAll.Env :=
  LaunchAll.mkEnv
    (fun _ => LaunchAll.Exited 0) (fun _ => 150%nat) (fun _ => 7%nat)
    (fun _ _ => 0%Z)
    (fun _ => true) (fun _ => None) "Windows".

(** Docker never comes up. *)
Definition sample_env_down : LaunchAll.Env :=
  LaunchAll.mkEnv
    (fun n => if Nat.even n then LaunchAll.TimedOut
              else LaunchAll.Exited 1)
    (fun _ => 5000%nat) (fun _ => 0%nat)
    (fun _ _ => 0%Z)
    (fun _ => true) (fun _ => None) "Windows".


Definition sample_start : LaunchAll.World :=
  LaunchAll.mkWorld 0 0 0 0 [].

(** The launcher's surroundings: git retrieves [sample_clone], the
    configuration names the workspace [ws] and one repository, and the
    driver exits with status 0. *)
Definition sample_pipeline_env : Pipeline.Env :=
  Pipeline.mkEnv
    (fun _ => true) sample_git onerror
    (fun _ => ["tmp"; "repo_clone_0"]) "python3"
    (fun _ =>
       ret [("folder_path", Pipeline.PyStr "ws");
            ("repo_urls",
             Pipeline.PyList
               [Pipeline.PyStr "https://github.com/owner/repo"])])
    (fun s => [s]) ["scripts"]
    (fun _ _ => ret 0%Z) (fun _ _ => ret tt) (fun _ _ => ret tt).

(** The driver beside a workspace that holds a stale file; no report
    directory. *)
Definition sample_pipeline_world : World :=
  mkWorld
    (Dir false
       [("tmp", Dir false []);
        ("launchAll.py", File false "driver");
        ("scripts", Dir false []);
        ("ws", Dir false [("junk.txt", File true "old")])])
    [].

(** The same, with the reports of a run in place. *)
Definition sample_reports_world : World :=
  mkWorld
    (Dir false
       [("tmp", Dir false []);
        ("launchAll.py", File false "driver");
        ("scripts", Dir false []);
        ("utExecutionAndResults",
         Dir false [("utResults", Dir false [("r.xml", File false "ok")])]);
        ("ws", Dir false [("junk.txt", File true "old")])])
    [].

(** A configuration file in the documented format beside the driver. *)
Definition sample_cfg_world : World :=
  mkWorld
    (Dir false
       [("tmp", Dir false []);
        ("launchAll.py", File false "driver");
        ("cfg.yaml",
         File false
           (Yaml.documented_cfg "ws" ["https://github.com/owner/repo"]));
        ("scripts", Dir false []);
        ("ws", Dir false [("junk.txt", File true "old")])])
    [].

(** A configuration file that names the workspace and no repository. *)
Definition sample_no_repo_world : World :=
  mkWorld
    (Dir false
       [("tmp", Dir false []);
        ("launchAll.py", File false "driver");
        ("cfg.yaml", File false (Yaml.documented_cfg "ws" []));
        ("scripts", Dir false []);
        ("ws", Dir false [("junk.txt", File true "old")])])
    [].



End Samples.

(** * Facts about the string primitives *)

Module PyFacts.
Import Py.

Lemma contains_all c s : contains c s = negb (all (other_than c) s).
Proof.
  induction s as [|a s IH]; simpl; [reflexivity|].
  rewrite IH. unfold other_than. destruct (Ascii.eqb a c); reflexivity.
Qed.

Lemma lacks_all c s : contains c s = false <-> all (other_than c) s = true.
Proof.
  rewrite contains_all. destruct (all (other_than c) s); simpl; intuition congruence.
Qed.

Lemma contains_app c a b :
  contains c (a ++ b) = contains c a || contains c b.
Proof.
  induction a as [|x a IH]; simpl; [reflexivity|].
  rewrite IH. apply orb_assoc.
Qed.

Lemma all_app p a b : all p (a ++ b) = all p a && all p b.
Proof.
  induction a as [|x a IH]; simpl; [reflexivity|].
  rewrite IH. apply andb_assoc.
Qed.

Lemma all_take p n s : all p s = true -> all p (take n s) = true.
Proof.
  revert s. induction n as [|n IH]; intros [|c s]; simpl; auto.
  intros H. apply andb_true_iff in H as [Hc Hs].
  rewrite Hc. simpl. auto.
Qed.

Lemma all_drop p n s : all p s = true -> all p (drop n s) = true.
Proof.
  revert s. induction n as [|n IH]; intros [|c s]; simpl; auto.
  intros H. apply andb_true_iff in H as [_ Hs]. auto.
Qed.

Lemma all_lstrip p q s : all p s = true -> all p (lstrip q s) = true.
Proof.
  induction s as [|c s IH]; simpl; auto.
  intros H. destruct (q c); [|exact H].
  apply andb_true_iff in H as [_ Hs]. auto.
Qed.

Lemma all_remove p q s : all p s = true -> all p (remove q s) = true.
Proof.
  induction s as [|c s IH]; simpl; auto.
  intros H. apply andb_true_iff in H as [Hc Hs].
  destruct (q c); simpl; [auto|]. rewrite Hc. simpl. auto.
Qed.

Lemma remove_clean p s : all (fun c => negb (p c)) (remove p s) = true.
Proof.
  induction s as [|c s IH]; simpl; auto.
  destruct (p c) eqn:E; simpl; [auto|]. rewrite E. simpl. exact IH.
Qed.

Lemma remove_id p s : all (fun c => negb (p c)) s = true -> remove p s = s.
Proof.
  induction s as [|c s IH]; simpl; auto.
  intros H. apply andb_true_iff in H as [Hc Hs].
  apply negb_true_iff in Hc. rewrite Hc. f_equal. auto.
Qed.

Lemma lacks_take c n s : contains c s = false -> contains c (take n s) = false.
Proof. rewrite !lacks_all. apply all_take. Qed.

Lemma lacks_drop c n s : contains c s = false -> contains c (drop n s) = false.
Proof. rewrite !lacks_all. apply all_drop. Qed.

Lemma find_none c s : contains c s = false -> find c s = None.
Proof.
  induction s as [|a s IH]; simpl; auto.
  destruct (Ascii.eqb a c); simpl; [discriminate|].
  intros H. rewrite IH by exact H. reflexivity.
Qed.

Lemma find_contains c s : contains c s = true -> exists i, find c s = Some i.
Proof.
  induction s as [|a s IH]; simpl; [discriminate|].
  destruct (Ascii.eqb a c); simpl; eauto.
  intros H. destruct (IH H) as [i Hi]. rewrite Hi. simpl. eauto.
Qed.

Lemma find_app c a b :
  contains c a = false ->
  find c (a ++ b) = option_map (fun i => String.length a + i) (find c b).
Proof.
  induction a as [|x a IH]; simpl.
  - intros _. destruct (find c b); reflexivity.
  - destruct (Ascii.eqb x c); simpl; [discriminate|].
    intros H. rewrite IH by exact H. destruct (find c b); reflexivity.
Qed.

Lemma find_take c s i : find c s = Some i -> contains c (take i s) = false.
Proof.
  revert i. induction s as [|a s IH]; simpl; [discriminate|].
  intros i. destruct (Ascii.eqb a c) eqn:E.
  - intros [= <-]. reflexivity.
  - destruct (find c s) as [j|]; simpl; [|discriminate].
    intros [= <-]. simpl. rewrite E. simpl. auto.
Qed.

Lemma take_app a b : take (String.length a) (a ++ b) = a.
Proof. induction a as [|x a IH]; simpl; [destruct b; reflexivity|]. now rewrite IH. Qed.

Lemma drop_app a b : drop (String.length a) (a ++ b) = b.
Proof. induction a as [|x a IH]; simpl; [destruct b; reflexivity|]. exact IH. Qed.

Lemma rfind_lacks c s : contains c s = false -> rfind c s = None.
Proof.
  induction s as [|a s IH]; simpl; auto.
  destruct (Ascii.eqb a c); simpl; [discriminate|].
  intros H. now rewrite IH.
Qed.

Lemma rfind_app c a b :
  contains c b = false -> rfind c (a ++ String c b) = Some (String.length a).
Proof.
  intros Hb. induction a as [|x a IH]; simpl.
  - rewrite rfind_lacks by exact Hb. now rewrite Ascii.eqb_refl.
  - now rewrite IH.
Qed.

Lemma split_nonnil c s : split c s <> [].
Proof.
  destruct s as [|a s]; simpl; [discriminate|].
  destruct (Ascii.eqb a c); [discriminate|].
  destruct (split c s); discriminate.
Qed.

Lemma split_lacks c a : contains c a = false -> split c a = [a].
Proof.
  induction a as [|x a IH]; simpl; auto.
  destruct (Ascii.eqb x c); simpl; [discriminate|].
  intros H. now rewrite IH.
Qed.

Lemma split_app c a b :
  contains c a = false -> split c (a ++ String c b) = a :: split c b.
Proof.
  induction a as [|x a IH]; simpl.
  - intros _. now rewrite Ascii.eqb_refl.
  - destruct (Ascii.eqb x c); simpl; [discriminate|].
    intros H. now rewrite IH.
Qed.

Lemma split_pieces c s p :
  In p (split c s) ->
  contains c p = false /\ forall q, all q s = true -> all q p = true.
Proof.
  revert p. induction s as [|a s IH]; simpl.
  - intros p [<-|[]]. split; auto.
  - intros p. destruct (Ascii.eqb a c) eqn:E.
    + intros [<-|Hin].
      * split; auto.
      * destruct (IH p Hin) as [H1 H2]. split; auto.
        intros q Hq. apply andb_true_iff in Hq as [_ Hq]. auto.
    + pose proof (split_nonnil c s) as Hne.
      destruct (split c s) as [|p0 ps]; [congruence|].
      intros [<-|Hin].
      * destruct (IH p0 (or_introl eq_refl)) as [H1 H2].
        split; simpl; [now rewrite E|].
        intros q Hq. apply andb_true_iff in Hq as [Ha Hq].
        rewrite Ha. simpl. auto.
      * destruct (IH p (or_intror Hin)) as [H1 H2]. split; auto.
        intros q Hq. apply andb_true_iff in Hq as [_ Hq]. auto.
Qed.

Lemma lower_contains c s :
  contains c s = true -> contains (lower_char c) (lower s) = true.
Proof.
  induction s as [|a s IH]; simpl; [discriminate|].
  intros H. apply orb_true_iff in H as [H|H].
  - apply Ascii.eqb_eq in H. subst a. now rewrite Ascii.eqb_refl.
  - rewrite IH by exact H. apply orb_true_r.
Qed.

Lemma lower_lacks c s :
  contains (lower_char c) (lower s) = false -> contains c s = false.
Proof.
  intros H. destruct (contains c s) eqn:E; [|reflexivity].
  apply lower_contains in E. congruence.
Qed.

Lemma string_length_app a b :
  String.length (a ++ b) = String.length a + String.length b.
Proof. induction a as [|x a IH]; simpl; [reflexivity|]. now rewrite IH. Qed.

End PyFacts.

(** * Facts about [urlparse] *)

Module UrlFacts.
Import Py PyFacts Url.

(** Membership of a literal in a list of literals. *)
Ltac in_list :=
  cbn [In]; repeat (first [left; reflexivity | right]).

Lemma split_scheme_rest q url :
  all q url = true -> all q (snd (split_scheme url)) = true.
Proof.
  intros H. unfold split_scheme.
  destruct (find ":" url) as [i|]; [|exact H].
  destruct (_ && _); cbn [snd]; [apply all_drop|]; exact H.
Qed.

Lemma splitnetloc_rest q url n :
  all q url = true -> all q (snd (splitnetloc url n)) = true.
Proof. intros H. unfold splitnetloc. cbn [snd]. now apply all_drop. Qed.

Lemma split1_head q c s : all q s = true -> all q (fst (split1 c s)) = true.
Proof.
  intros H. unfold split1.
  destruct (find c s); cbn [fst]; [apply all_take|]; exact H.
Qed.

Lemma split1_head_lacks c s :
  contains c s = true -> contains c (fst (split1 c s)) = false.
Proof.
  intros H. unfold split1.
  destruct (find_contains c s H) as [i Hi]. rewrite Hi. cbn [fst].
  now apply find_take.
Qed.

Lemma splitparams_head q s :
  all q s = true -> all q (fst (splitparams s)) = true.
Proof.
  intros H. unfold splitparams.
  destruct (contains "/" s).
  - destruct (find_from _ _ _); cbn [fst]; [apply all_take|]; exact H.
  - destruct (find ";" s); cbn [fst]; apply all_take; exact H.
Qed.

Lemma cut_all q c s : all q s = true -> all q (cut c s) = true.
Proof.
  intros H. unfold cut.
  destruct (contains c s); cbn [fst]; [apply split1_head|]; exact H.
Qed.

Lemma cut_lacks c s : contains c (cut c s) = false.
Proof.
  unfold cut. destruct (contains c s) eqn:E; cbn [fst]; [|exact E].
  now apply split1_head_lacks.
Qed.

Section WithHostCheck.
Variable chk : string -> bool.

(** The path component holds no fragment or query mark and none of the
    characters that [urlsplit] deletes. *)
Lemma urlparse_path_clean url u :
  urlparse chk url = Ok u ->
  contains "#" (path u) = false
  /\ contains "?" (path u) = false
  /\ all kept (path u) = true.
Proof.
  unfold urlparse, urlsplit.
  set (url1 := remove unsafe_url_byte (lstrip c0_control_or_space url)).
  assert (H1 : all kept url1 = true) by apply remove_clean.
  pose proof (split_scheme_rest kept url1 H1) as H2.
  destruct (split_scheme url1) as [sch url2]. simpl in H2.
  assert (H3 : forall nl url3,
             (if String.eqb (take 2 url2) "//"
              then
                let '(netloc, url) := splitnetloc url2 2 in
                if (contains "[" netloc && negb (contains "]" netloc))
                   || (contains "]" netloc && negb (contains "[" netloc))
                then Raise ValueError
                else if contains "[" netloc && contains "]" netloc
                        && negb (chk netloc)
                then Raise ValueError
                else Ok (netloc, url)
              else Ok ("", url2)) = Ok (nl, url3) ->
             all kept url3 = true).
  { intros nl url3. destruct (String.eqb (take 2 url2) "//").
    - pose proof (splitnetloc_rest kept url2 2 H2) as H.
      destruct (splitnetloc url2 2) as [nl' r]. simpl in H.
      destruct (_ || _); [discriminate|].
      destruct (_ && _); [discriminate|].
      intros [= _ <-]. exact H.
    - intros [= _ <-]. exact H2. }
  destruct (if String.eqb (take 2 url2) "//" then _ else _)
    as [[nl url3]|e] eqn:E; cbn [bind]; [|discriminate].
  specialize (H3 nl url3 eq_refl).
  pose proof (cut_all kept "#" url3 H3) as H4.
  pose proof (cut_lacks "#" url3) as L4.
  unfold cut in H4, L4.
  destruct (if contains "#" url3 then split1 "#" url3 else (url3, ""))
    as [url4 frag]. simpl in H4, L4.
  pose proof (cut_all kept "?" url4 H4) as H5.
  pose proof (cut_all (other_than "#") "?" url4
                (proj1 (lacks_all "#" url4) L4)) as L5.
  pose proof (cut_lacks "?" url4) as M5.
  unfold cut in H5, L5, M5.
  destruct (if contains "?" url4 then split1 "?" url4 else (url4, ""))
    as [url5 qry]. simpl in H5, L5, M5.
  apply lacks_all in L5. cbn [bind].
  destruct (mem sch uses_params && contains ";" url5).
  - pose proof (splitparams_head kept url5 H5) as H6.
    pose proof (splitparams_head (other_than "#") url5
                  (proj1 (lacks_all "#" url5) L5)) as L6.
    pose proof (splitparams_head (other_than "?") url5
                  (proj1 (lacks_all "?" url5) M5)) as M6.
    destruct (splitparams url5) as [url6 prm]. cbn [fst] in H6, L6, M6.
    intros [= <-]. simpl. rewrite !lacks_all. auto.
  - intros [= <-]. simpl. auto.
Qed.

Lemma split_scheme_http r : split_scheme ("http:" ++ r) = ("http", r).
Proof. reflexivity. Qed.

Lemma split_scheme_https r : split_scheme ("https:" ++ r) = ("https", r).
Proof. reflexivity. Qed.

Lemma splitnetloc_host nl r :
  contains "/" nl = false ->
  contains "?" nl = false ->
  contains "#" nl = false ->
  splitnetloc ("//" ++ nl ++ String "/" r) 2 = (nl, String "/" r).
Proof.
  intros Hs Hq Hf. unfold splitnetloc. cbn [fold_left]. unfold find_from.
  change (drop 2 ("//" ++ nl ++ String "/" r)) with (nl ++ String "/" r).
  rewrite !find_app by assumption.
  cbn [find Ascii.eqb Bool.eqb option_map].
  rewrite Nat.add_0_r.
  replace (Nat.min _ (2 + String.length nl)) with (2 + String.length nl).
  2:{ change ("//" ++ nl ++ String "/" r)
        with (String "/" (String "/" (nl ++ String "/" r))).
      cbn [String.length]. rewrite string_length_app. cbn [String.length].
      lia. }
  assert (Hd : forall d o,
             d = 2 + String.length nl ->
             match option_map (fun i => 2 + i)
                     (option_map (fun i => String.length nl + i)
                        (option_map S o)) with
             | Some w => Nat.min d w
             | None => d
             end = 2 + String.length nl).
  { intros d [j|] ->; cbn [option_map]; lia. }
  rewrite (Hd _ (find "#" r)).
  - replace (2 + String.length nl - 2) with (String.length nl) by lia.
    rewrite take_app. f_equal.
    change (drop (2 + String.length nl) ("//" ++ nl ++ String "/" r))
      with (drop (String.length nl) (nl ++ String "/" r)).
    apply drop_app.
  - apply Hd. reflexivity.
Qed.

Lemma splitparams_last pre name :
  contains "/" name = false ->
  contains ";" name = false ->
  splitparams (pre ++ String "/" name) = (pre ++ String "/" name, "").
Proof.
  intros Hs Hp. unfold splitparams.
  rewrite contains_app. cbn [contains Ascii.eqb Bool.eqb].
  rewrite orb_true_r, rfind_app by exact Hs.
  unfold find_from. rewrite drop_app.
  cbn [find Ascii.eqb Bool.eqb]. rewrite find_none by exact Hp.
  reflexivity.
Qed.

(** [urlparse] on a URL laid out as [scheme://host/owner/name]. *)
Lemma urlparse_canonical sch nl owner name :
  mem sch ["http"; "https"] = true ->
  (forall c, In c ["/"; "?"; "#"; "["; "]"]%char -> contains c nl = false) ->
  all kept nl = true ->
  (forall c, In c ["?"; "#"]%char -> contains c owner = false) ->
  all kept owner = true ->
  (forall c, In c ["?"; "#"; "/"; ";"]%char -> contains c name = false) ->
  all kept name = true ->
  urlparse chk (sch ++ "://" ++ nl ++ "/" ++ owner ++ "/" ++ name)
  = Ok (mkParseResult sch nl ("/" ++ owner ++ "/" ++ name) "" "" "").
Proof.
  intros Hsch Hnl Knl Hown Kown Hname Kname.
  set (rest := "/" ++ owner ++ "/" ++ name).
  assert (Krest : all kept rest = true).
  { unfold rest. change ("/" ++ owner ++ "/" ++ name)
      with (String "/" (owner ++ String "/" name)).
    cbn [all]. rewrite all_app. cbn [all]. rewrite Kown, Kname.
    reflexivity. }
  assert (Hsplit :
            split_scheme (sch ++ "://" ++ nl ++ rest)
            = (sch, "//" ++ nl ++ rest)
            /\ lstrip c0_control_or_space (sch ++ "://" ++ nl ++ rest)
               = sch ++ "://" ++ nl ++ rest
            /\ all kept sch = true).
  { cbn [mem existsb] in Hsch.
    apply orb_true_iff in Hsch as [H|H];
      [|apply orb_true_iff in H as [H|H]; [|discriminate]];
      apply String.eqb_eq in H; subst sch; repeat split; reflexivity. }
  destruct Hsplit as (Hsp & Hls & Ksch).
  unfold urlparse, urlsplit. rewrite Hls.
  rewrite remove_id.
  2:{ change (all kept (sch ++ "://" ++ nl ++ rest) = true).
      rewrite all_app, Ksch.
      change ("://" ++ nl ++ rest)
        with (String ":" (String "/" (String "/" (nl ++ rest)))).
      cbn [all]. rewrite all_app, Knl, Krest. reflexivity. }
  rewrite Hsp.
  change (take 2 ("//" ++ nl ++ rest)) with "//".
  rewrite String.eqb_refl.
  unfold rest at 1.
  change ("/" ++ owner ++ "/" ++ name)
    with (String "/" (owner ++ String "/" name)).
  rewrite splitnetloc_host by (apply Hnl; in_list).
  rewrite !(Hnl "["%char), !(Hnl "]"%char) by in_list.
  cbn [andb orb negb bind].
  assert (Hlack : forall c, In c ["?"; "#"]%char ->
             contains c (String "/" (owner ++ String "/" name)) = false).
  { intros c Hc. cbn [contains]. rewrite contains_app. cbn [contains].
    rewrite (Hown c Hc), (Hname c) by (cbn [In] in *; tauto).
    destruct Hc as [<-|[<-|[]]]; reflexivity. }
  rewrite (Hlack "#"%char), (Hlack "?"%char) by in_list.
  cbn [bind].
  change (String "/" (owner ++ String "/" name))
    with (String "/" owner ++ String "/" name).
  destruct (mem sch uses_params && contains ";" _).
  - rewrite splitparams_last by (apply Hname; in_list).
    reflexivity.
  - reflexivity.
Qed.

End WithHostCheck.

End UrlFacts.


(** * Facts about [parse_github_url] *)

Module GitUrlFacts.
Import Py PyFacts Url UrlFacts GitUrl.

Lemma kept_spec a :
  kept a = other_than "009" a && other_than "013" a && other_than "010" a.
Proof. destruct a as [[] [] [] [] [] [] [] []]; reflexivity. Qed.

Lemma all_kept s :
  contains "009" s = false ->
  contains "013" s = false ->
  contains "010" s = false ->
  all kept s = true.
Proof.
  rewrite !lacks_all.
  induction s as [|a s IH]; cbn [all]; auto.
  intros H1 H2 H3.
  apply andb_true_iff in H1 as [A1 B1].
  apply andb_true_iff in H2 as [A2 B2].
  apply andb_true_iff in H3 as [A3 B3].
  rewrite kept_spec, A1, A2, A3, IH by assumption. reflexivity.
Qed.

(** A host that lower-cases to [github.com] holds none of the marks that
    [urlsplit] looks for. *)
Lemma github_host nl :
  lower nl = "github.com" ->
  (forall c, In c ["/"; "?"; "#"; "["; "]"]%char -> contains c nl = false)
  /\ all kept nl = true.
Proof.
  intros H. split.
  - intros c Hc. apply lower_lacks. rewrite H.
    cbn [In] in Hc.
    repeat (destruct Hc as [<-|Hc]; [reflexivity|]). destruct Hc.
  - apply all_kept; apply lower_lacks; rewrite H; reflexivity.
Qed.

Lemma check_branch_ok b :
  check_branch b = Ok tt <-> blank b = false /\ fullmatch_ref b = true.
Proof.
  unfold check_branch.
  destruct (blank b), (fullmatch_ref b); simpl; intuition congruence.
Qed.

Lemma fullmatch_ref_spec b :
  fullmatch_ref b = true <-> b <> "" /\ all ref_char b = true.
Proof.
  unfold fullmatch_ref. rewrite andb_true_iff, negb_true_iff.
  rewrite String.eqb_neq. reflexivity.
Qed.

Section WithHostCheck.
Variable chk : string -> bool.

(** What a successful call went through. *)
Lemma parse_ok_inv url ru br name :
  parse_github_url chk url = Ok (ru, br, name) ->
  exists u owner repo rest,
    urlparse chk url = Ok u
    /\ mem (scheme u) ["http"; "https"] = true
    /\ lower (netloc u) = "github.com"
    /\ filter nonempty (split "/" (path u)) = owner :: repo :: rest
    /\ name = strip_git_suffix repo
    /\ ru = scheme u ++ "://" ++ netloc u ++ "/" ++ owner ++ "/" ++ name
    /\ br = (if (4 <=? List.length (owner :: repo :: rest))
                && String.eqb (nth 2 (owner :: repo :: rest) "") "tree"
             then Some (join "/" (skipn 3 (owner :: repo :: rest)))
             else None)
    /\ (forall b, br = Some b -> check_branch b = Ok tt).
Proof.
  unfold parse_github_url.
  destruct (urlparse chk url) as [u|e]; cbn [bind]; [|discriminate].
  destruct (mem (scheme u) ["http"; "https"]) eqn:Hs;
    cbn [negb orb]; [|discriminate].
  destruct (String.eqb (lower (netloc u)) "github.com") eqn:Hn;
    cbn [negb]; [|discriminate].
  apply String.eqb_eq in Hn.
  destruct (filter nonempty (split "/" (path u))) as [|owner [|repo rest]]
    eqn:Hp; [discriminate|discriminate|].
  set (parts := owner :: repo :: rest).
  change (List.length parts <? 2) with false. cbv iota.
  change (nth 0 parts "") with owner. change (nth 1 parts "") with repo.
  destruct ((4 <=? List.length parts)
            && String.eqb (nth 2 parts "") "tree") eqn:Ht.
  - destruct (check_branch (join "/" (skipn 3 parts))) as [[]|e] eqn:Hc;
      cbn [bind]; [|discriminate].
    intros [= <- <- <-].
    exists u, owner, repo, rest.
    split; [reflexivity|]. split; [exact Hs|]. split; [exact Hn|].
    split; [exact Hp|]. split; [reflexivity|]. split; [reflexivity|].
    fold parts. rewrite Ht. split; [reflexivity|].
    intros b [= <-]. exact Hc.
  - cbn [bind]. intros [= <- <- <-].
    exists u, owner, repo, rest.
    split; [reflexivity|]. split; [exact Hs|]. split; [exact Hn|].
    split; [exact Hp|]. split; [reflexivity|]. split; [reflexivity|].
    fold parts. rewrite Ht. split; [reflexivity|].
    intros b [=].
Qed.

(** A call whose path has [tree] as third segment and at least one more
    segment succeeds exactly when the rejoined ref passes
    [check_branch]. *)
Lemma parse_tree_branch url u parts :
  urlparse chk url = Ok u ->
  mem (scheme u) ["http"; "https"] = true ->
  lower (netloc u) = "github.com" ->
  filter nonempty (split "/" (path u)) = parts ->
  4 <= List.length parts ->
  nth 2 parts "" = "tree" ->
  check_branch (join "/" (skipn 3 parts)) <> Ok tt ->
  parse_github_url chk url = Raise ValueError.
Proof.
  intros Hu Hs Hn Hp Hlen Htree Hbad.
  unfold parse_github_url. rewrite Hu. cbn [bind].
  rewrite Hs, Hn, String.eqb_refl. cbn [negb orb].
  rewrite Hp.
  destruct (List.length parts <? 2) eqn:E;
    [apply Nat.ltb_lt in E; lia|].
  apply Nat.leb_le in Hlen. rewrite Hlen, Htree, String.eqb_refl.
  cbn [andb].
  unfold check_branch in *.
  destruct (blank _); [reflexivity|].
  destruct (fullmatch_ref _); cbn [negb] in *; [congruence|reflexivity].
Qed.

(** A call whose path pins no ref. *)
Lemma parse_without_branch url u parts :
  urlparse chk url = Ok u ->
  mem (scheme u) ["http"; "https"] = true ->
  lower (netloc u) = "github.com" ->
  filter nonempty (split "/" (path u)) = parts ->
  2 <= List.length parts ->
  (4 <=? List.length parts) && String.eqb (nth 2 parts "") "tree" = false ->
  parse_github_url chk url
  = Ok (scheme u ++ "://" ++ netloc u ++ "/" ++ nth 0 parts "" ++ "/"
        ++ strip_git_suffix (nth 1 parts ""),
        None, strip_git_suffix (nth 1 parts "")).
Proof.
  intros Hu Hs Hn Hp Hlen Hno.
  unfold parse_github_url. rewrite Hu. cbn [bind].
  rewrite Hs, Hn, String.eqb_refl. cbn [negb orb].
  rewrite Hp.
  destruct (List.length parts <? 2) eqn:E;
    [apply Nat.ltb_lt in E; lia|].
  rewrite Hno. reflexivity.
Qed.

(** Parsing the canonical URL of a repository. *)
Lemma parse_canonical sch nl owner name :
  mem sch ["http"; "https"] = true ->
  lower nl = "github.com" ->
  (forall c, In c ["?"; "#"; "/"]%char -> contains c owner = false) ->
  all kept owner = true ->
  owner <> "" ->
  (forall c, In c ["?"; "#"; "/"; ";"]%char -> contains c name = false) ->
  all kept name = true ->
  name <> "" ->
  endswith ".git" name = false ->
  parse_github_url chk (sch ++ "://" ++ nl ++ "/" ++ owner ++ "/" ++ name)
  = Ok (sch ++ "://" ++ nl ++ "/" ++ owner ++ "/" ++ name, None, name).
Proof.
  intros Hs Hn Hown Kown Nown Hname Kname Nname Hgit.
  destruct (github_host nl Hn) as [Hnl Knl].
  unfold parse_github_url.
  rewrite urlparse_canonical; auto.
  2:{ intros c Hc. apply Hown. cbn [In] in *. tauto. }
  cbn [bind scheme netloc path].
  rewrite Hs, Hn, String.eqb_refl. cbn [negb orb].
  change ("/" ++ owner ++ "/" ++ name)
    with (String "/" (owner ++ String "/" name)).
  cbn [split Ascii.eqb Bool.eqb].
  rewrite split_app by (apply Hown; in_list).
  rewrite split_lacks by (apply Hname; in_list).
  apply String.eqb_neq in Nown, Nname.
  cbn [filter]. change (nonempty "") with false.
  unfold nonempty. rewrite Nown, Nname. cbn [negb].
  cbn [List.length Nat.ltb Nat.leb nth andb bind].
  unfold strip_git_suffix. rewrite Hgit. reflexivity.
Qed.

End WithHostCheck.

End GitUrlFacts.


(** * Facts about the file system *)

Module FSFacts.
Import FS.

Local Open Scope list_scope.

(** ** Entries of one directory *)

Lemma alter_entry_ext x f g es :
  (forall o, f o = g o) -> alter_entry x f es = alter_entry x g es.
Proof.
  intros H. induction es as [|[y c] es IH]; simpl.
  - now rewrite H.
  - destruct (String.eqb y x); [now rewrite H | now rewrite IH].
Qed.

Lemma alter_entry_ext_at x f g es :
  f (assoc x es) = g (assoc x es) -> alter_entry x f es = alter_entry x g es.
Proof.
  induction es as [|[y c] es IH]; simpl.
  - intros ->. reflexivity.
  - destruct (String.eqb y x); [intros ->; reflexivity|].
    intros H. now rewrite IH.
Qed.

Lemma alter_entry_id x f es :
  f (assoc x es) = assoc x es -> alter_entry x f es = es.
Proof.
  induction es as [|[y c] es IH]; simpl.
  - intros ->. reflexivity.
  - destruct (String.eqb y x); [intros ->; reflexivity|].
    intros H. now rewrite IH.
Qed.

Lemma alter_entry_compose x f g es :
  f None = None ->
  (forall c, f (Some c) <> None) ->
  alter_entry x g (alter_entry x f es)
  = alter_entry x (fun o => g (f o)) es.
Proof.
  intros Hn Hs. induction es as [|[y c] es IH]; simpl.
  - rewrite Hn. reflexivity.
  - destruct (String.eqb y x) eqn:E.
    + destruct (f (Some c)) as [c'|] eqn:Ec; [|now apply Hs in Ec].
      simpl. rewrite E. reflexivity.
    + simpl. rewrite E, IH. reflexivity.
Qed.

Lemma assoc_alter_entry x f es c :
  f (assoc x es) = Some c -> assoc x (alter_entry x f es) = Some c.
Proof.
  induction es as [|[y c0] es IH]; simpl.
  - intros ->. simpl. now rewrite String.eqb_refl.
  - destruct (String.eqb y x) eqn:E.
    + intros ->. simpl. now rewrite E.
    + intros H. simpl. rewrite E. auto.
Qed.



(** ** Paths *)

Lemma olookup_none p : olookup p None = None.
Proof. destruct p; reflexivity. Qed.

Lemma olookup_app p q o : olookup (p ++ q) o = olookup q (olookup p o).
Proof.
  revert o. induction p as [|x p IH]; intros o; simpl; [reflexivity|].
  destruct o as [[| |]|]; try (now rewrite olookup_none). apply IH.
Qed.


Lemma oalter_ext_at p f g o :
  f (olookup p o) = g (olookup p o) -> oalter p f o = oalter p g o.
Proof.
  revert o. induction p as [|x p IH]; intros o; simpl; [auto|].
  destruct o as [[| |]|]; try reflexivity.
  intros H. do 2 f_equal. apply alter_entry_ext_at. apply IH. exact H.
Qed.

Lemma oalter_id p f o :
  f (olookup p o) = olookup p o -> oalter p f o = o.
Proof.
  revert o. induction p as [|x p IH]; intros o; simpl; [auto|].
  destruct o as [[| |]|]; try reflexivity.
  intros H. do 2 f_equal. apply alter_entry_id. apply IH. exact H.
Qed.

Lemma oalter_app p q f o : oalter (p ++ q) f o = oalter p (oalter q f) o.
Proof.
  revert o. induction p as [|x p IH]; intros o; simpl; [reflexivity|].
  destruct o as [[| |]|]; try reflexivity.
  do 2 f_equal. apply alter_entry_ext. exact IH.
Qed.

Lemma oalter_none p f : f None = None -> oalter p f None = None.
Proof. destruct p; simpl; auto. Qed.

Lemma oalter_some p f c :
  (forall c', f (Some c') <> None) -> oalter p f (Some c) <> None.
Proof. destruct p; simpl; auto. destruct c; discriminate. Qed.


Lemma assoc_alter_entry_keep x f es :
  f None = None ->
  (forall c, f (Some c) <> None) ->
  assoc x (alter_entry x f es) = f (assoc x es).
Proof.
  intros Hn Hs. destruct (assoc x es) as [c|] eqn:E.
  - destruct (f (Some c)) as [c'|] eqn:Ec; [|now apply Hs in Ec].
    apply assoc_alter_entry. now rewrite E.
  - rewrite alter_entry_id by (rewrite E; exact Hn). now rewrite E.
Qed.

Lemma olookup_oalter p f o :
  f None = None ->
  (forall c, f (Some c) <> None) ->
  olookup p (oalter p f o) = f (olookup p o).
Proof.
  intros Hn Hs. revert o. induction p as [|x p IH]; intros o; simpl;
    [reflexivity|].
  destruct o as [[ro d|ro es|t]|]; simpl; auto.
  rewrite assoc_alter_entry_keep.
  - apply IH.
  - now apply oalter_none.
  - intros c. now apply oalter_some.
Qed.


Lemma is_prefix_refl p : is_prefix p p = true.
Proof. induction p as [|x p IH]; simpl; [reflexivity|]. now rewrite String.eqb_refl. Qed.


(** ** The tree as a state *)

Lemma alter_spec p f fs :
  oalter p f (Some fs) <> None -> oalter p f (Some fs) = Some (alter p f fs).
Proof. unfold alter. destruct (oalter p f (Some fs)); congruence. Qed.

Lemma modify_spec p h fs :
  oalter p (option_map h) (Some fs) = Some (modify p h fs).
Proof. apply alter_spec, oalter_some. discriminate. Qed.

Lemma delete_spec p fs :
  p <> [] -> oalter p (fun _ => None) (Some fs) = Some (delete p fs).
Proof.
  intros Hp. apply alter_spec. destruct p as [|x p]; [congruence|].
  simpl. destruct fs; discriminate.
Qed.

Lemma snoc_not_nil (p : path) x : p ++ [x] <> [].
Proof. destruct p; discriminate. Qed.

Lemma put_spec p n fs :
  oalter p (fun _ => Some n) (Some fs) = Some (put p n fs).
Proof. apply alter_spec, oalter_some. discriminate. Qed.


Lemma lookup_app p q fs : lookup (p ++ q) fs = olookup q (lookup p fs).
Proof. apply olookup_app. Qed.

Lemma lookup_entry p x fs ro es :
  lookup p fs = Some (Dir ro es) -> lookup (p ++ [x]) fs = assoc x es.
Proof. intros H. rewrite lookup_app, H. reflexivity. Qed.

Lemma lookup_modify p h fs :
  lookup p (modify p h fs) = option_map h (lookup p fs).
Proof.
  unfold lookup. rewrite <- modify_spec.
  apply olookup_oalter; [reflexivity|discriminate].
Qed.







(** ** Paths that do not meet *)









(** The directory above a changed entry. *)
Lemma lookup_alter_parent par x f fs ro es :
  lookup par fs = Some (Dir ro es) ->
  lookup par (alter (par ++ [x]) f fs)
  = Some (Dir ro (alter_entry x f es)).
Proof.
  intros Hl.
  assert (H : oalter (par ++ [x]) f (Some fs)
              = oalter par
                  (option_map (with_entries (alter_entry x f es)))
                  (Some fs)).
  { rewrite oalter_app. apply oalter_ext_at.
    unfold lookup in Hl. rewrite Hl. reflexivity. }
  unfold alter. rewrite H, modify_spec.
  rewrite lookup_modify, Hl. reflexivity.
Qed.

Lemma lookup_alter_entry par x f fs ro es :
  lookup par fs = Some (Dir ro es) ->
  lookup (par ++ [x]) (alter (par ++ [x]) f fs)
  = assoc x (alter_entry x f es).
Proof.
  intros Hl.
  now rewrite (lookup_entry par x _ ro _ (lookup_alter_parent par x f fs ro es Hl)).
Qed.

Lemma lookup_put_entry par x n fs ro es :
  lookup par fs = Some (Dir ro es) ->
  lookup (par ++ [x]) (put (par ++ [x]) n fs) = Some n.
Proof.
  intros Hl. unfold put. rewrite (lookup_alter_entry par x _ fs ro es Hl).
  now apply assoc_alter_entry.
Qed.


(** ** Clearing the read-only attributes *)

Lemma erase_dir ro es : erase (Dir ro es) = Dir false (map erase_entry es).
Proof. reflexivity. Qed.

Lemma erase_clear_readonly n : erase (clear_readonly n) = erase n.
Proof. destruct n; reflexivity. Qed.

Lemma assoc_erase x es :
  assoc x (map erase_entry es) = option_map erase (assoc x es).
Proof.
  induction es as [|[y c] es IH]; simpl; [reflexivity|].
  destruct (String.eqb y x); [reflexivity|exact IH].
Qed.

Lemma olookup_erase p o :
  olookup p (option_map erase o) = option_map erase (olookup p o).
Proof.
  revert o. induction p as [|x p IH]; intros o; simpl; [reflexivity|].
  destruct o as [[ro d|ro es|t]|]; simpl; auto.
  fold erase_entry. rewrite assoc_erase. apply IH.
Qed.

Lemma lookup_erase p fs :
  lookup p (erase fs) = option_map erase (lookup p fs).
Proof. apply (olookup_erase p (Some fs)). Qed.

Lemma alter_entry_erase x f g es :
  (forall o, option_map erase (f o) = g (option_map erase o)) ->
  map erase_entry (alter_entry x f es)
  = alter_entry x g (map erase_entry es).
Proof.
  intros H. induction es as [|[y c] es IH]; simpl.
  - pose proof (H None) as HN. simpl in HN. rewrite <- HN.
    destruct (f None); reflexivity.
  - destruct (String.eqb y x).
    + pose proof (H (Some c)) as HS. simpl in HS. rewrite <- HS.
      destruct (f (Some c)); reflexivity.
    + simpl. now rewrite IH.
Qed.

Lemma oalter_erase p f g o :
  (forall o', option_map erase (f o') = g (option_map erase o')) ->
  option_map erase (oalter p f o) = oalter p g (option_map erase o).
Proof.
  intros H. revert o. induction p as [|x p IH]; intros o; simpl; [apply H|].
  destruct o as [[ro d|ro es|t]|]; simpl; auto.
  fold erase_entry. do 2 f_equal. now apply alter_entry_erase.
Qed.


Lemma erase_modify_clear p fs :
  erase (modify p clear_readonly fs) = erase fs.
Proof.
  pose proof (oalter_erase p (option_map clear_readonly) (fun o => o)
                (Some fs)) as H.
  rewrite modify_spec in H. simpl option_map in H.
  rewrite oalter_id in H by reflexivity.
  assert (Some (erase (modify p clear_readonly fs)) = Some (erase fs));
    [|congruence].
  apply H. intros [c|]; simpl; [now rewrite erase_clear_readonly|reflexivity].
Qed.


Lemma erase_symlink_inv n t : erase n = Symlink t -> n = Symlink t.
Proof. destruct n; simpl; try discriminate. congruence. Qed.

(** ** Depth *)






(** ** Queries on an entry that is not a link *)

Lemma realpath_not_link p fs n :
  lookup p fs = Some n -> not_link n -> realpath fs p = Some p.
Proof.
  intros H Hn. unfold realpath, symloop_max. simpl. rewrite H.
  destruct n; [reflexivity|reflexivity|contradiction].
Qed.

Lemma stat_not_link p fs n :
  lookup p fs = Some n -> not_link n -> stat fs p = Some n.
Proof.
  intros H Hn. unfold stat. now rewrite (realpath_not_link p fs n H Hn).
Qed.

End FSFacts.


(** * Facts about the reset of a directory *)

Module ResetFacts.
Import FS FSFacts Launcher.

Local Open Scope list_scope.

(** ** Running a computation step by step *)

Lemma mbind_ok {S A B} (m : M S A) (k : A -> M S B) s a s' :
  m s = (Ok a, s') -> mbind m k s = k a s'.
Proof. unfold mbind. now intros ->. Qed.

Lemma mbind_raise {S A B} (m : M S A) (k : A -> M S B) s e s' :
  m s = (Raise e, s') -> mbind m k s = (Raise e, s').
Proof. unfold mbind. now intros ->. Qed.

Lemma try_except_ok {S A} (m : M S A) h s a s' :
  m s = (Ok a, s') -> try_except m h s = (Ok a, s').
Proof. unfold try_except. now intros ->. Qed.

Lemma try_except_caught {S A} (m : M S A) h s e s' k :
  m s = (Raise e, s') -> h e = Some k -> try_except m h s = k s'.
Proof. unfold try_except. now intros -> ->. Qed.

Lemma try_except_uncaught {S A} (m : M S A) h s e s' :
  m s = (Raise e, s') -> h e = None -> try_except m h s = (Raise e, s').
Proof. unfold try_except. now intros -> ->. Qed.

(** ** Queries *)

Lemma exists_not_link p fs n :
  lookup p fs = Some n -> not_link n -> exists_ p fs = true.
Proof. intros H Hn. unfold exists_. now rewrite (stat_not_link p fs n H Hn). Qed.

Lemma isdir_dir p fs ro es :
  lookup p fs = Some (Dir ro es) -> isdir p fs = true.
Proof.
  intros H. unfold isdir. now rewrite (stat_not_link p fs _ H I).
Qed.


Lemma islink_not_link p fs n :
  lookup p fs = Some n -> not_link n -> islink p fs = false.
Proof. intros H Hn. unfold islink. rewrite H. now destruct n. Qed.

Lemma scandir_dir p fs ro es :
  lookup p fs = Some (Dir ro es) ->
  os_scandir p fs
  = (Ok (map (fun xc => (fst xc, is_dir_entry (snd xc))) es), fs).
Proof.
  intros H. unfold os_scandir. now rewrite (stat_not_link p fs _ H I).
Qed.


Lemma chmod_not_link p fs n :
  lookup p fs = Some n -> not_link n ->
  os_chmod p fs = (Ok tt, modify p clear_readonly fs).
Proof.
  intros H Hn. unfold os_chmod. now rewrite (realpath_not_link p fs n H Hn).
Qed.

(** ** Removing one entry, with the handler of [force_rmtree] *)



(** ** [_rmtree_unsafe] removes the directory it is given *)



(** ** [clear_folder_contents] *)

(** Two trees that differ in read-only attributes only show the same
    link at the same place. *)
Lemma lookup_symlink_erase p fs fs1 t :
  erase fs1 = erase fs ->
  lookup p fs = Some (Symlink t) ->
  lookup p fs1 = Some (Symlink t).
Proof.
  intros He Hl.
  pose proof (lookup_erase p fs1) as H1.
  rewrite He, lookup_erase, Hl in H1. simpl in H1.
  destruct (lookup p fs1) as [n|]; [|discriminate].
  simpl in H1. injection H1 as H1. symmetry in H1.
  now rewrite (erase_symlink_inv n t H1).
Qed.

Lemma clear_folder_contents_unfold D :
  clear_folder_contents D
  = (is_dir <- gets (isdir D) ;;
     if negb is_dir then raise ValueError
     else names <- os_listdir D ;; for_each names (clear_entry D))%M.
Proof. reflexivity. Qed.





Lemma clear_folder_contents_not_dir D fs :
  isdir D fs = false ->
  clear_folder_contents D fs = (Raise ValueError, fs).
Proof.
  intros H. rewrite clear_folder_contents_unfold.
  unfold mbind, gets. rewrite H. reflexivity.
Qed.

End ResetFacts.


(** * Facts about the retrieval into the workspace *)

Module CloneFacts.
Import FS FSFacts Launcher ResetFacts.

Local Open Scope list_scope.

Lemma on_fs_run {A} (m : M node A) w r t :
  m (fs w) = (r, t) -> on_fs m w = (r, set_fs t w).
Proof. unfold on_fs, lift. now intros ->. Qed.

Lemma try_finally_run {S A} (m : M S A) c s r s1 s2 :
  m s = (r, s1) -> c s1 = (Ok tt, s2) -> try_finally m c s = (r, s2).
Proof. unfold try_finally. now intros -> ->. Qed.




Lemma mkdir_new par x fs ro es :
  lookup (par ++ [x]) fs = None ->
  lookup par fs = Some (Dir ro es) ->
  os_mkdir (par ++ [x]) fs = (Ok tt, put (par ++ [x]) (Dir false []) fs).
Proof.
  intros Hn Hp. unfold os_mkdir. now rewrite Hn, removelast_last, Hp.
Qed.


(** [shutil.rmtree] on an empty directory calls no handler. *)
Lemma shutil_rmtree_empty h p fs :
  lookup p fs = Some (Dir false []) ->
  p <> [] ->
  shutil_rmtree h p fs = (Ok tt, delete p fs).
Proof.
  intros Hl Hp. unfold shutil_rmtree, os_lstat. rewrite Hl.
  rewrite (islink_not_link p fs _ Hl I).
  cbn [rmtree_unsafe].
  erewrite mbind_ok;
    [|apply try_except_ok; apply (scandir_dir p fs _ _ Hl)].
  cbn [map for_each]. unfold mbind at 1, ret at 1.
  apply try_except_ok. unfold os_rmdir. rewrite Hl.
  destruct p; [congruence|reflexivity].
Qed.

Section WithEnvironment.
Variable chk : string -> bool.
Variable git : list string -> GitRun.
Variable tempdir_onexc : handler.


(** A failure of parsing is raised before anything else happens. *)
Lemma clone_and_move_parse_error tmp url target recurse w e :
  GitUrl.parse_github_url chk url = Raise e ->
  clone_and_move_into_folder chk git tempdir_onexc tmp url target recurse w
  = (Raise e, w).
Proof.
  intros H. unfold clone_and_move_into_folder, mbind. now rewrite H.
Qed.

End WithEnvironment.

End CloneFacts.


(** * Facts about [launchAll.py] *)

Module LaunchAllFacts.
Import Py LaunchAll ResetFacts.

Local Open Scope Z_scope.

Section WithEnv.
Variable env : Env.

(** The probe answers, and never raises. *)
Lemma docker_is_ready_total w :
  exists w',
    docker_is_ready env w
    = (Ok match probe_result env (probes w) with
          | Exited 0 => true
          | _ => false
          end, w')
    /\ trace w' = Probe :: trace w
    /\ now w <= now w'
    /\ probes w' = S (probes w)
    /\ children w' = children w.
Proof.
  unfold docker_is_ready, try_except, mbind, docker_info, ret.
  destruct (probe_result env (probes w)) as [status| |].
  - destruct (status =? 0) eqn:E.
    + apply Z.eqb_eq in E. subst status.
      eexists. split; [reflexivity|]. cbn. repeat split; lia.
    + assert (match status with 0 => true | _ => false end = false)
        as -> by (destruct status; try reflexivity; discriminate).
      eexists. split; [reflexivity|]. cbn. repeat split; lia.
  - eexists. split; [reflexivity|]. cbn. repeat split; lia.
  - eexists. split; [reflexivity|]. cbn. repeat split; lia.
Qed.




End WithEnv.

End LaunchAllFacts.


(** * What a computation can raise *)

Module RaiseFacts.
Import FS Launcher ResetFacts.

Local Open Scope list_scope.

Lemma ew_ret {S A} codes (a : A) : exits_within codes (@ret S A a).
Proof. intros s e s' H. discriminate H. Qed.

Lemma ew_gets {S A} codes (f : S -> A) : exits_within codes (gets f).
Proof. intros s e s' H. discriminate H. Qed.

Lemma ew_raise {S A} codes e :
  is_exception e = true -> exits_within codes (@raise S A e).
Proof. intros He s e' s' H. injection H as <- _. now left. Qed.

Lemma ew_sys_exit {S A} codes n :
  In n codes -> exits_within codes (@raise S A (SystemExit n)).
Proof. intros Hn s e' s' H. injection H as <- _. right. eauto. Qed.

Lemma ew_pure {S A} codes (r : result A) :
  (forall e, r = Raise e -> is_exception e = true) ->
  exits_within codes (fun s : S => (r, s)).
Proof. intros Hr s e s' H. injection H as -> _. left. now apply Hr. Qed.

Lemma ew_mono {S A} codes codes' (m : M S A) :
  incl codes codes' -> exits_within codes m -> exits_within codes' m.
Proof.
  intros Hi Hm s e s' H. destruct (Hm s e s' H) as [He|(n & -> & Hn)];
    [now left|right; eauto].
Qed.

Lemma ew_nil {S A} codes (m : M S A) :
  exits_within [] m -> exits_within codes m.
Proof. apply ew_mono. intros x []. Qed.

Lemma ew_bind {S A B} codes (m : M S A) (k : A -> M S B) :
  exits_within codes m ->
  (forall a, exits_within codes (k a)) ->
  exits_within codes (mbind m k).
Proof.
  intros Hm Hk s e s' H. unfold mbind in H.
  destruct (m s) as [[a|e1] s1] eqn:E.
  - apply (Hk a s1 e s' H).
  - injection H as <- <-. apply (Hm s e1 s1 E).
Qed.

Lemma ew_try_except {S A} codes (m : M S A) h :
  exits_within codes m ->
  (forall e k, h e = Some k -> exits_within codes k) ->
  exits_within codes (try_except m h).
Proof.
  intros Hm Hh s e s' H. unfold try_except in H.
  destruct (m s) as [[a|e1] s1] eqn:E; [discriminate|].
  destruct (h e1) as [k|] eqn:Eh.
  - apply (Hh e1 k Eh s1 e s' H).
  - injection H as <- <-. apply (Hm s e1 s1 E).
Qed.

Lemma ew_try_finally {S A} codes (m : M S A) c :
  exits_within codes m ->
  exits_within codes c ->
  exits_within codes (try_finally m c).
Proof.
  intros Hm Hc s e s' H. unfold try_finally in H.
  destruct (m s) as [r s1] eqn:E.
  destruct (c s1) as [[[]|e2] s2] eqn:Ec.
  - injection H as -> <-. apply (Hm s e s1 E).
  - injection H as <- <-. apply (Hc s1 e2 s2 Ec).
Qed.

Lemma ew_for_each {S A} codes (l : list A) (body : A -> M S unit) :
  (forall x, exits_within codes (body x)) ->
  exits_within codes (for_each l body).
Proof.
  intros Hb. induction l as [|x l IH]; cbn [for_each].
  - apply ew_ret.
  - apply ew_bind; [apply Hb|intros _; exact IH].
Qed.

Lemma ew_on_fs {A} codes (m : M node A) :
  exits_within codes m -> exits_within codes (on_fs m).
Proof.
  intros Hm w e w' H. unfold on_fs, lift in H.
  destruct (m (fs w)) as [r t] eqn:E. injection H as -> _.
  apply (Hm _ _ _ E).
Qed.

(** A handler that swallows or passes on. *)
Lemma ew_swallow {S} codes (h : exn -> option (M S unit)) :
  (forall e, h e = None \/ h e = Some (ret tt)) ->
  forall e k, h e = Some k -> exits_within codes k.
Proof.
  intros Hh e k Hk. destruct (Hh e) as [H|H]; rewrite H in Hk;
    [discriminate|]. injection Hk as <-. apply ew_ret.
Qed.

(** A primitive of the file system raises one of its error classes. *)
Ltac ew_prim f :=
  let s := fresh "s" in
  let e := fresh "e" in
  let s' := fresh "s'" in
  let H := fresh "H" in
  intros s e s' H; unfold f in H;
  repeat match type of H with
         | context [match ?x with _ => _ end] => destruct x
         end;
  try discriminate H; injection H as <- _; left; reflexivity.

Lemma ew_os_listdir codes p : exits_within codes (os_listdir p).
Proof. ew_prim os_listdir. Qed.

Lemma ew_os_scandir codes p : exits_within codes (os_scandir p).
Proof. ew_prim os_scandir. Qed.

Lemma ew_os_lstat codes p : exits_within codes (os_lstat p).
Proof. ew_prim os_lstat. Qed.

Lemma ew_os_chmod codes p : exits_within codes (os_chmod p).
Proof. ew_prim os_chmod. Qed.

Lemma ew_os_remove codes p : exits_within codes (os_remove p).
Proof. ew_prim os_remove. Qed.

Lemma ew_os_rmdir codes p : exits_within codes (os_rmdir p).
Proof. ew_prim os_rmdir. Qed.

Lemma ew_os_mkdir codes p : exits_within codes (os_mkdir p).
Proof. ew_prim os_mkdir. Qed.

Lemma ew_os_rename codes p q : exits_within codes (os_rename p q).
Proof. ew_prim os_rename. Qed.

Create HintDb raises.

#[export] Hint Resolve ew_ret ew_gets ew_os_listdir ew_os_scandir ew_os_lstat
  ew_os_chmod ew_os_remove ew_os_rmdir ew_os_mkdir ew_os_rename : raises.

(** Take a computation apart along its binds, branches and handlers. *)
Ltac ew_step :=
  match goal with
  | |- exits_within _ (mbind _ _) => apply ew_bind; [|intros ?]
  | |- exits_within _ (try_except _ _) => apply ew_try_except
  | |- exits_within _ (try_finally _ _) => apply ew_try_finally
  | |- exits_within _ (for_each _ _) => apply ew_for_each; intros ?
  | |- exits_within _ (on_fs _) => apply ew_on_fs
  | |- exits_within _ (raise (SystemExit _)) =>
      apply ew_sys_exit; cbn [In]; tauto
  | |- exits_within _ (sys_exit _) =>
      apply ew_sys_exit; cbn [In]; tauto
  | |- exits_within _ (raise _) => apply ew_raise; reflexivity
  | |- exits_within _ (if ?b then _ else _) => destruct b
  | |- exits_within _ (match ?x with _ => _ end) => destruct x
  | |- exits_within _ (let _ := _ in _) => cbv zeta
  | |- forall e k, _ = Some k -> exits_within _ k =>
      let e := fresh "e" in
      let k := fresh "k" in
      let H := fresh "H" in
      intros e k H;
      repeat match type of H with
             | context [match ?x with _ => _ end] => destruct x
             | context [if ?b then _ else _] => destruct b
             end;
      try discriminate H; injection H as <-
  end.

Ltac ew := repeat (first [solve [auto with raises] | ew_step]).

Lemma ew_makedirs_from codes todo p : exits_within codes (makedirs_from todo p).
Proof.
  induction todo as [|todo IH]; cbn [makedirs_from]; [apply ew_ret|].
  intros s e s' H.
  destruct (stat s _) as [[| |]|].
  - injection H as <- _. now left.
  - apply (IH s e s' H).
  - injection H as <- _. now left.
  - revert s e s' H. fold (exits_within codes
      (mbind (os_mkdir (firstn (List.length p - todo) p))
         (fun _ => makedirs_from todo p))). ew.
Qed.

Lemma ew_ensure_dir codes p : exits_within codes (ensure_dir p).
Proof. apply ew_makedirs_from. Qed.

Lemma ew_call codes f p : exits_within codes (call f p).
Proof. destruct f; cbn [call]; ew. Qed.

#[export] Hint Resolve ew_ensure_dir ew_call : raises.

Lemma ew_onerror codes f p e : exits_within codes (onerror f p e).
Proof. unfold onerror. ew. Qed.

Lemma ew_rmtree_unsafe codes (h : handler) budget :
  (forall f p e, exits_within codes (h f p e)) ->
  forall p, exits_within codes (rmtree_unsafe budget h p).
Proof.
  intros Hh. induction budget as [|budget IH]; intros p;
    cbn [rmtree_unsafe]; [ew|].
  apply ew_bind.
  - apply ew_try_except; [ew|].
    intros e k [= <-]. apply ew_bind; [apply Hh|intros _; apply ew_ret].
  - intros entries. apply ew_bind.
    + apply ew_for_each. intros [x d]. cbn [fst snd].
      destruct d; [apply IH|].
      apply ew_try_except; [ew|]. intros e k [= <-]. apply Hh.
    + intros _. apply ew_try_except; [ew|]. intros e k [= <-]. apply Hh.
Qed.

Lemma ew_shutil_rmtree codes (h : handler) p :
  (forall f p e, exits_within codes (h f p e)) ->
  exits_within codes (shutil_rmtree h p).
Proof.
  intros Hh s e s' H. unfold shutil_rmtree in H.
  destruct (os_lstat p s) as [[[]|e1] s1] eqn:E.
  - destruct (islink p s1).
    + apply (Hh _ _ _ _ _ _ H).
    + apply (ew_rmtree_unsafe codes h _ Hh p _ _ _ H).
  - apply (Hh _ _ _ _ _ _ H).
Qed.

Lemma ew_force_rmtree codes p : exits_within codes (force_rmtree p).
Proof.
  unfold force_rmtree. apply ew_bind; [ew|]. intros [|]; [|ew].
  apply ew_shutil_rmtree. intros f q e. apply ew_onerror.
Qed.

#[export] Hint Resolve ew_force_rmtree : raises.

Lemma ew_clear_entry codes D x : exits_within codes (clear_entry D x).
Proof. unfold clear_entry. ew. Qed.

Lemma ew_clear_folder_contents codes D :
  exits_within codes (clear_folder_contents D).
Proof.
  unfold clear_folder_contents. ew. apply ew_clear_entry.
Qed.

Lemma ew_shutil_move codes p q : exits_within codes (shutil_move p q).
Proof. unfold shutil_move. ew. Qed.

#[export] Hint Resolve ew_clear_folder_contents ew_shutil_move : raises.

End RaiseFacts.


(** * Facts about the pipeline *)

Module PipelineFacts.
Import Py FS Launcher Pipeline ResetFacts CloneFacts RaiseFacts.

Local Open Scope list_scope.

Lemma check_branch_raises b e : GitUrl.check_branch b = Raise e -> e = ValueError.
Proof.
  unfold GitUrl.check_branch.
  destruct (blank b); [congruence|].
  destruct (negb _); congruence.
Qed.

(** [parse_github_url] raises nothing but [ValueError]. *)
Lemma parse_github_url_raises chk url e :
  GitUrl.parse_github_url chk url = Raise e -> e = ValueError.
Proof.
  unfold GitUrl.parse_github_url.
  destruct (Url.urlparse chk url) as [u|e0]; cbn [bind]; [|congruence].
  destruct (_ || _); [congruence|].
  destruct (_ <? 2); [congruence|].
  destruct (_ && _); cbn [bind]; [|discriminate].
  destruct (GitUrl.check_branch _) as [[]|e1] eqn:E; cbn [bind];
    [discriminate|].
  intros [= <-]. now apply check_branch_raises in E.
Qed.

Lemma ew_git_clone codes git repository branch clone recurse :
  exits_within codes (git_clone git repository branch clone recurse).
Proof.
  unfold git_clone. destruct (_ || _); [ew|].
  apply ew_bind; [ew|]. intros present.
  apply ew_bind; [ew|]. intros _. cbv zeta.
  apply ew_try_except.
  - intros w e w' H. unfold subprocess_run_git in H.
    destruct (Z.eqb _ 0); [discriminate|]. injection H as <- _. now left.
  - intros e k H. destruct e; try discriminate H. injection H as <-. ew.
Qed.

Lemma ew_clone_and_move codes chk git (onexc : handler) tmp url target recurse :
  (forall f p e, exits_within codes (onexc f p e)) ->
  exits_within codes
    (clone_and_move_into_folder chk git onexc tmp url target recurse).
Proof.
  intros Hh. unfold clone_and_move_into_folder.
  apply ew_bind.
  - apply ew_pure. intros e H. now rewrite (parse_github_url_raises _ _ _ H).
  - intros [[repo_url branch] repo_name].
    unfold with_temporary_directory. apply ew_bind; [ew|]. intros _.
    apply ew_try_finally.
    + unfold clone_then_move. cbv zeta.
      apply ew_bind; [apply ew_git_clone|]. intros _. ew.
    + apply ew_on_fs, ew_shutil_rmtree, Hh.
Qed.

(** ** The [except] clauses of [main] *)

Lemma exit_on_exception_caught {S A} (m : M S A) status s e s' :
  m s = (Raise e, s') ->
  is_exception e = true ->
  try_except m (exit_on_exception status) s = (Raise (SystemExit status), s').
Proof.
  intros H He. unfold try_except, exit_on_exception. now rewrite H, He.
Qed.

Lemma exit_on_exception_ok {S A} (m : M S A) status s a s' :
  try_except m (exit_on_exception status) s = (Ok a, s') ->
  m s = (Ok a, s').
Proof.
  unfold try_except, exit_on_exception.
  destruct (m s) as [[a0|e] s0]; [congruence|].
  destruct (is_exception e); discriminate.
Qed.

Lemma ew_exit_on_exception {S A} codes (m : M S A) status :
  In status codes ->
  exits_within codes m ->
  exits_within codes (try_except m (exit_on_exception status)).
Proof.
  intros Hin Hm. apply ew_try_except; [exact Hm|].
  intros e k H. unfold exit_on_exception in H.
  destruct (is_exception e); [|discriminate].
  injection H as <-. now apply ew_sys_exit.
Qed.

Lemma mbind_ok_inv {S A B} (m : M S A) (k : A -> M S B) s b s' :
  mbind m k s = (Ok b, s') ->
  exists a s1, m s = (Ok a, s1) /\ k a s1 = (Ok b, s').
Proof.
  unfold mbind. destruct (m s) as [[a|e] s1]; [eauto|discriminate].
Qed.


(** An uncaught exception ends the process with status 1. *)
Lemma exit_status_exception {A} e :
  is_exception e = true -> exit_status (@Raise A e) = 1%Z.
Proof. destruct e; cbn; intros H; try reflexivity; discriminate H. Qed.

(** The loop takes the list front to back. *)
Lemma for_each_app {S A} (l1 l2 : list A) (body : A -> M S unit) s :
  for_each (l1 ++ l2) body s
  = mbind (for_each l1 body) (fun _ => for_each l2 body) s.
Proof.
  revert s. induction l1 as [|x l1 IH]; intros s; cbn [app for_each].
  - reflexivity.
  - unfold mbind in *. destruct (body x s) as [[[]|e] s1]; [|reflexivity].
    apply IH.
Qed.

(** ** Arguments *)

Lemma parse_options_raises rest cfg rec py e :
  parse_options rest cfg rec py = Raise e ->
  e = SystemExit 0
  /\ (exists a, In a rest /\ mem a ["-h"; "--help"] = true)
  \/ e = SystemExit 1.
Proof.
  remember (List.length rest) as n eqn:Hn.
  revert rest cfg rec py Hn.
  induction n as [n IH] using lt_wf_ind.
  intros [|a rest] cfg rec py Hn; cbn [parse_options]; [discriminate|].
  cbn [List.length] in Hn.
  destruct (mem a _) eqn:Ea.
  { intros [= <-]. left. split; [reflexivity|]. exists a. cbn [In]. auto. }
  assert (Hstep : forall rest' cfg' rec' py',
             List.length rest' < n -> (forall a', In a' rest' -> In a' (a :: rest)) ->
             parse_options rest' cfg' rec' py' = Raise e ->
             e = SystemExit 0
             /\ (exists a0, In a0 (a :: rest) /\ mem a0 ["-h"; "--help"] = true)
             \/ e = SystemExit 1).
  { intros rest' cfg' rec' py' Hlt Hsub H.
    destruct (IH (List.length rest') Hlt rest' cfg' rec' py' eq_refl H)
      as [[-> (a0 & Hin & Ha0)]| ->]; [left|now right].
    split; [reflexivity|]. exists a0. auto. }
  destruct (String.eqb a "--cfg").
  { destruct rest as [|v rest]; [intros [= <-]; now right|].
    apply Hstep; [cbn [List.length] in Hn; lia|].
    intros a' H. cbn [In]. auto. }
  destruct (String.eqb a "--no-submodules").
  { apply Hstep; [lia|]. intros a' H. cbn [In]. auto. }
  destruct (String.eqb a "--python").
  { destruct rest as [|v rest]; [intros [= <-]; now right|].
    apply Hstep; [cbn [List.length] in Hn; lia|].
    intros a' H. cbn [In]. auto. }
  intros [= <-]. now right.
Qed.

(** [parse_args] ends the process with status 0 only without arguments or
    with a request for help, and with status 1 otherwise. *)
Lemma parse_args_raises exe argv e :
  parse_args exe argv = Raise e ->
  e = SystemExit 0
  /\ (argv = [] \/ exists a, In a argv /\ mem a ["-h"; "--help"] = true)
  \/ e = SystemExit 1.
Proof.
  unfold parse_args. destruct argv as [|a rest]; [intros [= <-]; auto|].
  destruct (mem a _) eqn:Ea.
  { intros [= <-]. left. split; [reflexivity|]. right. exists a.
    cbn [In]. auto. }
  destruct (negb _).
  - destruct (parse_options rest _ _ _) as [[[c r] p]|e0] eqn:E; cbn [bind];
      [discriminate|].
    intros [= <-].
    destruct (parse_options_raises _ _ _ _ _ E)
      as [[-> (a0 & Hin & Ha0)]| ->]; [left|now right].
    split; [reflexivity|]. right. exists a0. cbn [In]. auto.
  - destruct (parse_options (a :: rest) _ _ _) as [[[c r] p]|e0] eqn:E;
      cbn [bind]; [discriminate|].
    intros [= <-].
    destruct (parse_options_raises _ _ _ _ _ E)
      as [[-> (a0 & Hin & Ha0)]| ->]; [left|now right].
    split; [reflexivity|]. right. exists a0. auto.
Qed.


(** ** The list of sources *)



(** ** The status of each failure class *)

Section Stages.
Variable env : Env.

Lemma stage_cfg_exit cfg_path w e w' :
  read_cfg env cfg_path w = (Raise e, w') ->
  is_exception e = true ->
  stage_cfg env cfg_path w = (Raise (SystemExit EXIT_BAD_CFG), w').
Proof. intros H He. now apply exit_on_exception_caught with (e := e). Qed.

Lemma stage_clear_exit folder w e w' :
  on_fs (clear_folder_contents folder) w = (Raise e, w') ->
  is_exception e = true ->
  stage_clear folder w = (Raise (SystemExit EXIT_FOLDER_PATH_MISSING), w').
Proof. intros H He. now apply exit_on_exception_caught with (e := e). Qed.

Lemma clone_one_value_error folder recurse u w w' :
  clone_body env folder recurse u w = (Raise ValueError, w') ->
  clone_one env folder recurse u w
  = (Raise (SystemExit EXIT_BAD_GITHUB_URL), w').
Proof. intros H. unfold clone_one, try_except. now rewrite H. Qed.

Lemma clone_one_runtime_error folder recurse u w w' :
  clone_body env folder recurse u w = (Raise RuntimeError, w') ->
  clone_one env folder recurse u w
  = (Raise (SystemExit EXIT_GIT_CLONE_FAILED), w').
Proof. intros H. unfold clone_one, try_except. now rewrite H. Qed.

(** A URL that [parse_github_url] rejects is a bad source URL. *)
Lemma clone_one_bad_url folder recurse u w e :
  GitUrl.parse_github_url (bracketed_netloc_ok env) u = Raise e ->
  clone_one env folder recurse u w
  = (Raise (SystemExit EXIT_BAD_GITHUB_URL), w).
Proof.
  intros H. apply clone_one_value_error. unfold clone_body.
  unfold mbind at 1. cbn [gets].
  rewrite (mbind_raise _ _ _ _ _
             (clone_and_move_parse_error _ _ _ _ _ _ _ _ _ H)).
  now rewrite (parse_github_url_raises _ _ _ H).
Qed.

Lemma run_launch_all_not_found folder py w :
  isfile (parent_dir folder ++ ["launchAll.py"]) (fs w) = false ->
  fst (run_launch_all env folder py w)
  = Raise (SystemExit EXIT_LAUNCH_SCRIPT_NOT_FOUND).
Proof.
  intros H. unfold run_launch_all. cbv zeta.
  rewrite (mbind_ok _ _ _ _ _
             (on_fs_run
                (gets (isfile (parent_dir folder ++ ["launchAll.py"])))
                w _ _ eq_refl)).
  rewrite H. reflexivity.
Qed.

Lemma run_launch_all_failed folder py w status w' :
  isfile (parent_dir folder ++ ["launchAll.py"]) (fs w) = true ->
  spawn env [py; "launchAll.py"] (parent_dir folder) (set_fs (fs w) w)
  = (Ok status, w') ->
  status <> 0%Z ->
  run_launch_all env folder py w
  = (Raise (SystemExit EXIT_LAUNCH_SCRIPT_FAILED), w').
Proof.
  intros H Hs Hne. unfold run_launch_all. cbv zeta.
  rewrite (mbind_ok _ _ _ _ _
             (on_fs_run
                (gets (isfile (parent_dir folder ++ ["launchAll.py"])))
                w _ _ eq_refl)).
  rewrite H. cbn [negb]. unfold try_except, subprocess_run_checked.
  rewrite (mbind_ok _ _ _ _ _ Hs).
  destruct (Z.eqb_spec status 0); [contradiction|reflexivity].
Qed.

Lemma harvest_clear_destination_exit w w1 x names w2 e w' :
  on_fs (ensure_dir (uintTestReports env)) w = (Ok tt, w1) ->
  on_fs (os_listdir (uintTestReports env)) w1 = (Ok (x :: names), w2) ->
  on_fs (clear_folder_contents (uintTestReports env)) w2 = (Raise e, w') ->
  is_exception e = true ->
  harvest_clear_destination env w = (Raise (SystemExit 1), w').
Proof.
  intros H1 H2 H3 He. unfold harvest_clear_destination.
  rewrite (mbind_ok _ _ _ _ _ H1), (mbind_ok _ _ _ _ _ H2).
  now apply exit_on_exception_caught with (e := e).
Qed.

Lemma harvest_copy_exit folder w e w' :
  on_fs (copy_folder_contents env (testRecordPath folder)
           (uintTestReports env)) w = (Raise e, w') ->
  is_exception e = true ->
  harvest_copy env folder w = (Raise (SystemExit 1), w').
Proof.
  intros H He. unfold harvest_copy.
  apply exit_on_exception_caught with (e := e); [|exact He].
  now apply mbind_raise.
Qed.

Lemma harvest_clear_source_exit folder w w1 e w' :
  on_fs (copy_folder_contents env (testRecordPath folder)
           (uintTestReports env)) w = (Ok tt, w1) ->
  on_fs (clear_folder_contents (testRecordPath folder)) w1 = (Raise e, w') ->
  is_exception e = true ->
  harvest_copy env folder w = (Raise (SystemExit 1), w').
Proof.
  intros H1 H2 He. unfold harvest_copy, try_except.
  rewrite (mbind_ok _ _ _ _ _ H1).
  unfold harvest_clear_source.
  now rewrite (exit_on_exception_caught _ _ _ _ _ H2 He).
Qed.

(** ** The stages in sequence *)


(** [main] is its stages one after the other. *)
Lemma main_selects argv w g c r p folder_path repo_urls w1 w2 w3 :
  parse_args (sys_executable env) argv = Ok (g, c, r, p) ->
  stage_cfg env c w = (Ok (folder_path, repo_urls), w1) ->
  on_fs (ensure_dir (abspath env folder_path)) w1 = (Ok tt, w2) ->
  stage_clear (abspath env folder_path) w2 = (Ok tt, w3) ->
  main env argv w
  = materialize_and_run env (urls_to_clone g repo_urls)
      (abspath env folder_path) r p w3.
Proof.
  intros Hp H1 H2 H3. unfold main. unfold mbind at 1. rewrite Hp.
  unfold run_pipeline. rewrite (mbind_ok _ _ _ _ _ H1). cbv zeta.
  rewrite (mbind_ok _ _ _ _ _ H2), (mbind_ok _ _ _ _ _ H3). reflexivity.
Qed.

Lemma main_full_success argv w w' :
  main env argv w = (Ok tt, w') <-> full_success env argv w w'.
Proof.
  split.
  - intros H. unfold main in H.
    apply mbind_ok_inv in H as ([[[g c] r] p] & w0 & Hp & H).
    injection Hp as Hp <-. unfold run_pipeline in H.
    apply mbind_ok_inv in H as ([folder_path repo_urls] & w1 & H1 & H).
    cbv zeta in H.
    apply mbind_ok_inv in H as ([] & w2 & H2 & H).
    apply mbind_ok_inv in H as ([] & w3 & H3 & H).
    unfold materialize_and_run in H.
    apply mbind_ok_inv in H as ([] & w4 & H4 & H).
    apply mbind_ok_inv in H as ([] & w5 & H5 & H).
    apply mbind_ok_inv in H as ([] & w6 & H6 & H).
    exists g, c, r, p, folder_path, repo_urls, w1, w2, w3, w4, w5, w6.
    repeat split; assumption.
  - intros (g & c & r & p & folder_path & repo_urls & w1 & w2 & w3 & w4 & w5
            & w6 & Hp & H1 & H2 & H3 & H4 & H5 & H6 & H7).
    rewrite (main_selects _ _ _ _ _ _ _ _ _ _ _ Hp H1 H2 H3).
    unfold materialize_and_run.
    now rewrite (mbind_ok _ _ _ _ _ H4), (mbind_ok _ _ _ _ _ H5),
      (mbind_ok _ _ _ _ _ H6).
Qed.

End Stages.

(** ** What the stages can raise *)

Section WithEnv.
Variable env : Env.
Hypothesis Henv : well_behaved env.

Lemma validate_cfg_raises cfg e : validate_cfg cfg = Raise e -> e = ValueError.
Proof.
  unfold validate_cfg.
  repeat match goal with
         | |- context [match ?x with _ => _ end] => destruct x
         end; congruence.
Qed.

Lemma ew_read_cfg p : exits_within [] (read_cfg env p).
Proof.
  unfold read_cfg. apply ew_bind; [apply Henv|].
  intros cfg. apply ew_pure. intros e H.
  now rewrite (validate_cfg_raises _ _ H).
Qed.

Lemma ew_stage_cfg p : exits_within pipeline_codes (stage_cfg env p).
Proof.
  apply ew_exit_on_exception; [cbn; tauto|apply ew_nil, ew_read_cfg].
Qed.

Lemma ew_stage_clear p : exits_within pipeline_codes (stage_clear p).
Proof. apply ew_exit_on_exception; [cbn; tauto|ew]. Qed.

Lemma ew_clone_one folder recurse u :
  exits_within pipeline_codes (clone_one env folder recurse u).
Proof.
  unfold clone_one, clone_body. apply ew_try_except.
  - apply ew_bind; [ew|]. intros tmp. apply ew_bind; [|intros _; ew].
    apply ew_clone_and_move. intros f p e. apply ew_nil, Henv.
  - intros e k H. destruct e; try discriminate H; injection H as <-;
      apply ew_sys_exit; cbn; tauto.
Qed.

Lemma ew_stage_clone urls folder recurse :
  exits_within pipeline_codes (stage_clone env urls folder recurse).
Proof.
  unfold stage_clone. destruct urls.
  - apply ew_sys_exit. cbn. tauto.
  - apply ew_for_each. intros u. apply ew_clone_one.
Qed.

Lemma ew_run_launch_all folder py :
  exits_within pipeline_codes (run_launch_all env folder py).
Proof.
  unfold run_launch_all, subprocess_run_checked. cbv zeta.
  apply ew_bind; [ew|].
  intros [|]; cbn [negb]; [|apply ew_sys_exit; cbn; tauto].
  apply ew_try_except.
  - apply ew_bind; [apply ew_nil, Henv|]. intros status. ew.
  - intros e k H. destruct e; try discriminate H. injection H as <-.
    apply ew_sys_exit. cbn. tauto.
Qed.

Lemma ew_copy_entry s d x : exits_within [] (copy_entry env s d x).
Proof.
  unfold copy_entry. cbv zeta.
  apply ew_bind; [ew|]. intros is_dir.
  apply ew_bind; [ew|]. intros is_link.
  apply ew_bind; [ew|]. intros present.
  destruct (is_dir && negb is_link).
  - apply ew_bind; [ew|]. intros _. apply Henv.
  - apply ew_bind; [ew|]. intros _. apply Henv.
Qed.

Lemma ew_copy_folder_contents s d :
  exits_within [] (copy_folder_contents env s d).
Proof.
  unfold copy_folder_contents. apply ew_bind; [ew|].
  intros [|]; cbn [negb]; [|ew].
  apply ew_bind; [ew|]. intros _. apply ew_bind; [ew|]. intros names.
  apply ew_for_each. intros x. apply ew_copy_entry.
Qed.

Lemma ew_stage_harvest folder :
  exits_within pipeline_codes (stage_harvest env folder).
Proof.
  unfold stage_harvest, harvest_clear_destination, harvest_copy,
    harvest_clear_source.
  apply ew_bind.
  - apply ew_bind; [ew|]. intros _. apply ew_bind; [ew|].
    intros [|x names]; [ew|].
    apply ew_exit_on_exception; [cbn; tauto|ew].
  - intros _. apply ew_exit_on_exception; [cbn; tauto|].
    apply ew_bind; [apply ew_on_fs, ew_nil, ew_copy_folder_contents|].
    intros _. apply ew_exit_on_exception; [cbn; tauto|ew].
Qed.

(** After the arguments are read, the process ends normally, with an
    uncaught exception, or with one of the statuses of the table. *)
Lemma ew_run_pipeline g cfg recurse py :
  exits_within pipeline_codes (run_pipeline env g cfg recurse py).
Proof.
  unfold run_pipeline.
  apply ew_bind; [apply ew_stage_cfg|]. intros [folder_path repo_urls].
  cbv zeta.
  apply ew_bind; [ew|]. intros _.
  apply ew_bind; [apply ew_stage_clear|]. intros _.
  unfold materialize_and_run.
  apply ew_bind; [apply ew_stage_clone|]. intros _.
  apply ew_bind; [apply ew_run_launch_all|]. intros _.
  apply ew_bind; [apply ew_stage_clear|]. intros _.
  apply ew_stage_harvest.
Qed.

Lemma ew_main argv : exits_within (0%Z :: pipeline_codes) (main env argv).
Proof.
  unfold main. apply ew_bind.
  - intros w e w' H. injection H as H _. right.
    destruct (parse_args_raises _ _ _ H) as [[-> _]| ->];
      eexists; (split; [reflexivity|]); cbn; tauto.
  - intros [[[g c] r] p].
    apply ew_mono with (codes := pipeline_codes);
      [apply incl_tl, incl_refl|apply ew_run_pipeline].
Qed.

(** The exit status of a run is 0 or one of the table. *)
Lemma main_exit_status argv w :
  In (exit_status (fst (main env argv w))) (0%Z :: pipeline_codes).
Proof.
  destruct (main env argv w) as [[u|e] w'] eqn:E; cbn [fst].
  - left. reflexivity.
  - destruct (ew_main argv w e w' E) as [He|(n & -> & Hn)].
    + rewrite (exit_status_exception _ He). right. left. reflexivity.
    + exact Hn.
Qed.

(** Status 0 is that of a run without arguments, of a request for help,
    and of full success. *)
Lemma main_zero argv w :
  exit_status (fst (main env argv w)) = 0%Z ->
  (argv = [] \/ exists a, In a argv /\ mem a ["-h"; "--help"] = true)
  \/ exists w', full_success env argv w w'.
Proof.
  destruct (main env argv w) as [[[]|e] w'] eqn:E; cbn [fst].
  - intros _. right. exists w'. now apply main_full_success.
  - intros H0. unfold main in E. unfold mbind at 1 in E.
    destruct (parse_args (sys_executable env) argv)
      as [[[[g c] r] p]|e0] eqn:P.
    + destruct (ew_run_pipeline _ _ _ _ _ _ _ E) as [He|(n & -> & Hn)].
      * rewrite (exit_status_exception _ He) in H0. discriminate H0.
      * cbn [exit_status] in H0. subst n. cbn in Hn.
        repeat destruct Hn as [Hn|Hn]; try discriminate Hn. contradiction.
    + injection E as <- _.
      destruct (parse_args_raises _ _ _ P) as [[_ Hhelp]| ->];
        [now left|discriminate H0].
Qed.

End WithEnv.

End PipelineFacts.


(** * Claims about URL parsing *)

Module UrlClaims.
Import Py PyFacts Url UrlFacts GitUrl GitUrlFacts.

Lemma strip_git_suffix_app r : strip_git_suffix (r ++ ".git") = r.
Proof.
  unfold strip_git_suffix, endswith.
  rewrite string_length_app. cbn [String.length].
  replace (String.length r + 4 - 4) with (String.length r) by lia.
  rewrite drop_app, take_app.
  replace (4 <=? String.length r + 4) with true
    by (symmetry; apply Nat.leb_le; lia).
  reflexivity.
Qed.

Lemma strip_git_suffix_keeps (P : string -> Prop) repo :
  P repo -> (forall n, P (take n repo)) -> P (strip_git_suffix repo).
Proof. intros H1 H2. unfold strip_git_suffix. destruct (endswith _ _); auto. Qed.

(** The segments of a parsed path: non-empty, free of "/", and made of
    characters of the path. *)
Lemma segment_clean chk url u p :
  urlparse chk url = Ok u ->
  In p (filter nonempty (split "/" (path u))) ->
  p <> ""
  /\ (forall c, In c ["?"; "#"; "/"]%char -> contains c p = false)
  /\ all kept p = true.
Proof.
  intros Hu Hin. apply filter_In in Hin as [Hin Hne].
  destruct (urlparse_path_clean chk url u Hu) as (Hf & Hq & Hk).
  destruct (split_pieces "/" (path u) p Hin) as [Hs Hall].
  split; [|split].
  - unfold nonempty in Hne. apply negb_true_iff in Hne.
    now apply String.eqb_neq.
  - intros c Hc. cbn [In] in Hc.
    destruct Hc as [<-|[<-|[<-|[]]]]; auto;
      apply lacks_all, Hall, lacks_all; assumption.
  - auto.
Qed.

(** C2. Parsing [https://github.com/owner/repo] yields that URL, no ref
    and the name [repo]; with [/tree/feature/x] appended it yields the ref
    [feature/x], the segments after [tree] rejoined with "/"; the name of
    every accepted URL is its second path segment with a trailing [.git]
    removed. *)
Theorem parse_github_url_examples (chk : string -> bool) :
  parse_github_url chk "https://github.com/owner/repo"
  = Ok ("https://github.com/owner/repo", None, "repo")
  /\ parse_github_url chk "https://github.com/owner/repo/tree/feature/x"
     = Ok ("https://github.com/owner/repo", Some "feature/x", "repo")
  /\ parse_github_url chk "https://github.com/owner/repo.git"
     = Ok ("https://github.com/owner/repo", None, "repo")
  /\ (forall r, strip_git_suffix (r ++ ".git") = r)
  /\ (forall url ru br name,
         parse_github_url chk url = Ok (ru, br, name) ->
         exists u,
           urlparse chk url = Ok u
           /\ let parts := filter nonempty (split "/" (path u)) in
              name = strip_git_suffix (nth 1 parts "")
              /\ forall b, br = Some b ->
                           nth 2 parts "" = "tree"
                           /\ b = join "/" (skipn 3 parts)).
Proof.
  split; [reflexivity|]. split; [reflexivity|]. split; [reflexivity|].
  split; [exact strip_git_suffix_app|].
  intros url ru br name H.
  destruct (parse_ok_inv chk url _ _ _ H)
    as (u & owner & repo & rest & Hu & _ & _ & Hp & Hname & _ & Hbr & _).
  exists u. split; [exact Hu|]. cbv zeta. rewrite Hp.
  split; [exact Hname|].
  intros b Hb. rewrite Hb in Hbr.
  destruct ((4 <=? _) && _) eqn:E; [|discriminate].
  apply andb_true_iff in E as [_ E]. apply String.eqb_eq in E.
  split; [exact E|congruence].
Qed.

Lemma parse_github_url_examples_witness :
  exists u,
    urlparse (fun _ => true) "https://github.com/owner/repo.git/tree/v1.0"
    = Ok u
    /\ let parts := filter nonempty (split "/" (path u)) in
       "repo" = strip_git_suffix (nth 1 parts "")
       /\ forall b, Some "v1.0" = Some b ->
                    nth 2 parts "" = "tree"
                    /\ b = join "/" (skipn 3 parts).
Proof.
  apply (proj2 (proj2 (proj2 (proj2
           (parse_github_url_examples (fun _ => true)))))
           "https://github.com/owner/repo.git/tree/v1.0"
           "https://github.com/owner/repo" (Some "v1.0") "repo").
  reflexivity.
Defined.

(** C10, as the claim states it, fails: the canonical URL of
    [https://github.com/owner/repo.git.git] is
    [https://github.com/owner/repo.git], which parses to another URL and
    another name. *)
Lemma parse_github_url_reparse_counterexample :
  ~ (forall url repo_url ref name,
        parse_github_url (fun _ => true) url = Ok (repo_url, ref, name) ->
        parse_github_url (fun _ => true) repo_url
        = Ok (repo_url, None, name)).
Proof.
  intros H.
  specialize (H "https://github.com/owner/repo.git.git"
                "https://github.com/owner/repo.git" None "repo.git"
                eq_refl).
  vm_compute in H. discriminate H.
Qed.

(** C10, amended. For every accepted URL whose name is not empty, does not
    end in [.git] and holds no ";", parsing the returned [repo_url]
    succeeds and yields that same [repo_url], no ref and the same name. *)
Theorem parse_github_url_reparse
    (chk : string -> bool) (url repo_url : string) (ref : option string)
    (name : string) :
  parse_github_url chk url = Ok (repo_url, ref, name) ->
  name <> "" ->
  endswith ".git" name = false ->
  contains ";" name = false ->
  parse_github_url chk repo_url = Ok (repo_url, None, name).
Proof.
  intros H Hne Hgit Hsemi.
  destruct (parse_ok_inv chk url _ _ _ H)
    as (u & owner & repo & rest & Hu & Hs & Hn & Hp & Hname & Hru & _ & _).
  assert (Hown : In owner (filter nonempty (split "/" (path u))))
    by (rewrite Hp; left; reflexivity).
  assert (Hrepo : In repo (filter nonempty (split "/" (path u))))
    by (rewrite Hp; right; left; reflexivity).
  destruct (segment_clean chk url u owner Hu Hown) as (No & Lo & Ko).
  destruct (segment_clean chk url u repo Hu Hrepo) as (_ & Lr & Kr).
  assert (Ln : forall c, In c ["?"; "#"; "/"]%char -> contains c name = false).
  { intros c Hc. rewrite Hname. apply strip_git_suffix_keeps; auto.
    intros n. apply lacks_take; auto. }
  assert (Kn : all kept name = true).
  { rewrite Hname. apply strip_git_suffix_keeps; auto.
    intros n. apply all_take; auto. }
  rewrite Hru. apply parse_canonical; auto.
  intros c Hc. cbn [In] in Hc.
  destruct Hc as [<-|[<-|[<-|[<-|[]]]]]; auto; apply Ln; in_list.
Qed.

Lemma parse_github_url_reparse_witness :
  parse_github_url (fun _ => true) "https://github.com/owner/repo"
  = Ok ("https://github.com/owner/repo", None, "repo").
Proof.
  apply (parse_github_url_reparse (fun _ => true)
           "https://github.com/owner/repo.git/tree/feature/x"
           "https://github.com/owner/repo" (Some "feature/x") "repo").
  - reflexivity.
  - discriminate.
  - reflexivity.
  - reflexivity.
Defined.

End UrlClaims.


(** * Claims about the reset of a directory *)

Module ResetClaims.
Import FS FSFacts Launcher ResetFacts Samples.

Local Open Scope list_scope.



(** C9, as the claim states it, fails: on a path that is a file the reset
    raises [ValueError], which is not a [NotADirectoryError]. *)
Lemma clear_folder_contents_not_dir_counterexample :
  ~ (forall (p : path) (fs : node),
        isdir p fs = false ->
        fst (clear_folder_contents p fs) = Raise NotADirectoryError).
Proof.
  intros H. specialize (H ["ws"; "a"] sample_tree eq_refl).
  vm_compute in H. discriminate H.
Qed.

(** C9, amended. Given a path that is not a directory, the reset raises
    [ValueError] and leaves the file system as it is. *)
Theorem clear_folder_contents_rejects (p : path) (fs : node) :
  isdir p fs = false ->
  clear_folder_contents p fs = (Raise ValueError, fs).
Proof. apply clear_folder_contents_not_dir. Qed.

Lemma clear_folder_contents_rejects_witness :
  clear_folder_contents ["ws"; "a"] sample_tree
  = (Raise ValueError, sample_tree).
Proof.
  apply (clear_folder_contents_rejects ["ws"; "a"] sample_tree).
  reflexivity.
Defined.

End ResetClaims.


(** * Claims about the retrieval into the workspace *)

Module CloneClaims.
Import Py FS FSFacts Launcher ResetFacts CloneFacts GitUrl GitUrlFacts
  Samples.

Local Open Scope list_scope.



(** C7, as the claim states it, fails: the path of
    [https://github.com/owner/repo/tree/] ends in [tree/] with an empty
    ref, and the URL is accepted, with no ref. *)
Lemma ref_validated_counterexample :
  ~ (forall url u r,
        Url.urlparse (fun _ => true) url = Ok u ->
        spec_tree_ref (Url.path u) = Some r ->
        r = "" \/ all ref_char r = false ->
        parse_github_url (fun _ => true) url = Raise ValueError).
Proof.
  intros H.
  specialize (H "https://github.com/owner/repo/tree/"
                (Url.mkParseResult "https" "github.com" "/owner/repo/tree/"
                   "" "" "")
                "" eq_refl eq_refl (or_introl eq_refl)).
  vm_compute in H. discriminate H.
Qed.

(** C7, amended. A ref that [parse_github_url] returns is never empty or
    blank and is made of alphanumerics, ".", "_", "-" and "/".  For a
    github.com URL whose third path segment is [tree]: when at least one
    more segment follows and the segments after [tree], rejoined with
    "/", are blank or hold a character outside that class, parsing
    raises [ValueError], and [clone_and_move_into_folder] raises it
    without creating a scratch directory or running git; when nothing
    follows [tree], the URL is accepted with no ref. *)
Theorem ref_validated
    (chk : string -> bool) (git : list string -> GitRun)
    (tempdir_onexc : handler) :
  (forall url repo_url r name,
      parse_github_url chk url = Ok (repo_url, Some r, name) ->
      r <> "" /\ blank r = false /\ all ref_char r = true)
  /\ (forall url u,
         Url.urlparse chk url = Ok u ->
         mem (Url.scheme u) ["http"; "https"] = true ->
         lower (Url.netloc u) = "github.com" ->
         let parts := filter nonempty (split "/" (Url.path u)) in
         nth 2 parts "" = "tree" ->
         (4 <= List.length parts ->
          blank (join "/" (skipn 3 parts)) = true
          \/ all ref_char (join "/" (skipn 3 parts)) = false ->
          parse_github_url chk url = Raise ValueError
          /\ forall tmp target recurse w,
              clone_and_move_into_folder chk git tempdir_onexc tmp url
                target recurse w
              = (Raise ValueError, w))
         /\ (List.length parts = 3 ->
             exists repo_url name,
               parse_github_url chk url = Ok (repo_url, None, name))).
Proof.
  split.
  - intros url repo_url r name H.
    destruct (parse_ok_inv chk url _ _ _ H)
      as (u & owner & repo & rest & _ & _ & _ & _ & _ & _ & _ & Hb).
    specialize (Hb r eq_refl).
    apply check_branch_ok in Hb as [Hblank Hfull].
    apply fullmatch_ref_spec in Hfull as [Hne Hall]. auto.
  - intros url u Hu Hs Hn parts Htree. split.
    + intros Hlen Hbad.
      assert (Hp : parse_github_url chk url = Raise ValueError).
      { apply (parse_tree_branch chk url u parts Hu Hs Hn eq_refl Hlen Htree).
        intros Hok. apply check_branch_ok in Hok as [Hblank Hfull].
        apply fullmatch_ref_spec in Hfull as [_ Hall].
        destruct Hbad; congruence. }
      split; [exact Hp|].
      intros tmp target recurse w.
      now apply clone_and_move_parse_error.
    + intros Hlen. do 2 eexists.
      apply (parse_without_branch chk url u parts Hu Hs Hn eq_refl).
      * lia.
      * rewrite Hlen. reflexivity.
Qed.

Lemma ref_validated_witness :
  parse_github_url (fun _ => true) "https://github.com/owner/repo/tree/a b"
  = Raise ValueError.
Proof.
  apply (proj2 (ref_validated (fun _ => true) sample_git onerror)
           "https://github.com/owner/repo/tree/a b"
           (Url.mkParseResult "https" "github.com" "/owner/repo/tree/a b"
              "" "" "")
           eq_refl eq_refl eq_refl eq_refl).
  - simpl. lia.
  - right. reflexivity.
Defined.

End CloneClaims.


(** * Claims about [launchAll.py] *)

Module LaunchAllClaims.
Import Py LaunchAll LaunchAllFacts ResetFacts Samples.

Local Open Scope Z_scope.

(** The bound on the iterations of the waiting loop covers the timeout. *)
Lemma rounds_enough max_wait :
  max_wait * 1000 <= 2000 * Z.of_nat (S (Z.to_nat (max_wait / 2))).
Proof.
  rewrite Nat2Z.inj_succ.
  destruct (Z.leb_spec 0 max_wait) as [Hpos|Hneg].
  - rewrite Z2Nat.id by (apply Z.div_pos; lia).
    pose proof (Z.div_mod max_wait 2 ltac:(lia)).
    pose proof (Z.mod_pos_bound max_wait 2 ltac:(lia)). lia.
  - lia.
Qed.






End LaunchAllClaims.


(** * Claims about the pipeline *)

Module PipelineClaims.
Import Py FS Launcher Pipeline ResetFacts RaiseFacts PipelineFacts Samples.

Local Open Scope list_scope.
Local Open Scope Z_scope.

Lemma sample_pipeline_env_well_behaved : well_behaved sample_pipeline_env.
Proof.
  repeat split; intros; cbn; try apply ew_ret. apply ew_onerror.
Qed.

(** C1, as the specification states it, fails: the status with which the
    cloning stage ends the process is not always different from the one
    with which the harvest does.  A URL on another host than github.com
    ends the run with [EXIT_BAD_GITHUB_URL], which is 1, and a missing
    report directory makes [copy_folder_contents] raise, which ends the
    run with [sys.exit(1)] too. *)
Lemma exit_status_distinct_counterexample :
  ~ (forall (env : Env) folder recurse u w a b,
        fst (clone_one env folder recurse u w) = Raise (SystemExit a) ->
        fst (harvest_copy env folder w) = Raise (SystemExit b) ->
        a <> b).
Proof.
  intros H.
  apply (H sample_pipeline_env ["ws"%string] true
           "https://example.com/owner/repo"%string sample_pipeline_world 1 1);
    [vm_compute; reflexivity|vm_compute; reflexivity|reflexivity].
Qed.

(** C1. The six failure classes that have a constant of their own (bad
    source URL, bad configuration, missing workspace, retrieval failure,
    driver not found, driver failed) have positive, pairwise different
    statuses, and each stage of [main] ends the process with the status of
    its class: a configuration that cannot be read or an empty list of
    sources with that of a bad configuration, a workspace that cannot be
    cleared with that of a missing workspace, a [ValueError] or a
    [RuntimeError] of the cloning with that of a bad source URL or of a
    retrieval failure, a missing driver or a driver that exits with a
    status other than 0 with those of the driver.  The three harvest
    stages all end the process with status 1, the status of a bad source
    URL.  When the environment raises exceptions only, the exit status of
    a run is 0 or one of the six; it is 0 on full success, and a run that
    ends with status 0 had no argument, was asked for help, or was a full
    success. *)
Theorem exit_status_table (env : Env) (Henv : well_behaved env) :
  (forall c, 0 < status_of c <= 8)
  /\ (forall c1 c2,
         named_class c1 = true -> named_class c2 = true ->
         status_of c1 = status_of c2 -> c1 = c2)
  /\ (forall c, named_class c = false -> status_of c = status_of BadSourceUrl)
  /\ (forall cfg_path w e w',
         read_cfg env cfg_path w = (Raise e, w') ->
         is_exception e = true ->
         stage_cfg env cfg_path w
         = (Raise (SystemExit (status_of BadConfiguration)), w'))
  /\ (forall folder recurse w,
         stage_clone env [] folder recurse w
         = (Raise (SystemExit (status_of BadConfiguration)), w))
  /\ (forall folder w e w',
         on_fs (clear_folder_contents folder) w = (Raise e, w') ->
         is_exception e = true ->
         stage_clear folder w
         = (Raise (SystemExit (status_of MissingWorkspace)), w'))
  /\ (forall folder recurse u w w',
         clone_body env folder recurse u w = (Raise ValueError, w') ->
         clone_one env folder recurse u w
         = (Raise (SystemExit (status_of BadSourceUrl)), w'))
  /\ (forall folder recurse u w e,
         GitUrl.parse_github_url (bracketed_netloc_ok env) u = Raise e ->
         clone_one env folder recurse u w
         = (Raise (SystemExit (status_of BadSourceUrl)), w))
  /\ (forall folder recurse u w w',
         clone_body env folder recurse u w = (Raise RuntimeError, w') ->
         clone_one env folder recurse u w
         = (Raise (SystemExit (status_of RetrievalFailure)), w'))
  /\ (forall folder py w,
         isfile (parent_dir folder ++ ["launchAll.py"%string]) (fs w) = false ->
         fst (run_launch_all env folder py w)
         = Raise (SystemExit (status_of DriverNotFound)))
  /\ (forall folder py w status w',
         isfile (parent_dir folder ++ ["launchAll.py"%string]) (fs w) = true ->
         spawn env [py; "launchAll.py"%string] (parent_dir folder)
           (set_fs (fs w) w) = (Ok status, w') ->
         status <> 0 ->
         run_launch_all env folder py w
         = (Raise (SystemExit (status_of DriverFailed)), w'))
  /\ (forall w w1 x names w2 e w',
         on_fs (ensure_dir (uintTestReports env)) w = (Ok tt, w1) ->
         on_fs (os_listdir (uintTestReports env)) w1
         = (Ok (x :: names), w2) ->
         on_fs (clear_folder_contents (uintTestReports env)) w2
         = (Raise e, w') ->
         is_exception e = true ->
         harvest_clear_destination env w
         = (Raise (SystemExit (status_of HarvestClearDestination)), w'))
  /\ (forall folder w e w',
         on_fs (copy_folder_contents env (testRecordPath folder)
                  (uintTestReports env)) w = (Raise e, w') ->
         is_exception e = true ->
         harvest_copy env folder w
         = (Raise (SystemExit (status_of HarvestCopy)), w'))
  /\ (forall folder w w1 e w',
         on_fs (copy_folder_contents env (testRecordPath folder)
                  (uintTestReports env)) w = (Ok tt, w1) ->
         on_fs (clear_folder_contents (testRecordPath folder)) w1
         = (Raise e, w') ->
         is_exception e = true ->
         harvest_copy env folder w
         = (Raise (SystemExit (status_of HarvestClearSource)), w'))
  /\ (forall argv w,
         In (exit_status (fst (main env argv w))) (0 :: pipeline_codes))
  /\ (forall argv w w',
         full_success env argv w w' ->
         exit_status (fst (main env argv w)) = 0)
  /\ (forall argv w,
         exit_status (fst (main env argv w)) = 0 ->
         (argv = []
          \/ exists a, In a argv /\ mem a ["-h"; "--help"]%string = true)
         \/ exists w', full_success env argv w w').
Proof.
  split; [intros []; vm_compute; split; congruence|].
  split; [intros [] []; vm_compute; congruence|].
  split; [intros []; vm_compute; congruence|].
  split; [exact (stage_cfg_exit env)|].
  split; [reflexivity|].
  split; [exact stage_clear_exit|].
  split; [exact (clone_one_value_error env)|].
  split; [exact (clone_one_bad_url env)|].
  split; [exact (clone_one_runtime_error env)|].
  split; [exact (run_launch_all_not_found env)|].
  split; [exact (run_launch_all_failed env)|].
  split; [exact (harvest_clear_destination_exit env)|].
  split; [exact (harvest_copy_exit env)|].
  split; [exact (harvest_clear_source_exit env)|].
  split; [exact (main_exit_status env Henv)|].
  split; [|exact (main_zero env Henv)].
  intros argv w w' H. apply (main_full_success env) in H. now rewrite H.
Qed.

Lemma exit_status_table_witness :
  well_behaved sample_pipeline_env
  /\ In (exit_status
           (fst (main sample_pipeline_env
                   ["https://example.com/owner/repo"%string]
                   sample_pipeline_world)))
       (0 :: pipeline_codes).
Proof.
  split; [exact sample_pipeline_env_well_behaved|].
  destruct (exit_status_table sample_pipeline_env
              sample_pipeline_env_well_behaved)
    as (_ & _ & _ & _ & _ & _ & _ & _ & _ & _ & _ & _ & _ & _ & H & _).
  apply H.
Defined.



End PipelineClaims.


(** * The configuration file *)

Module ConfigFacts.
Import Py PyFacts Text FS Pipeline Yaml.

Lemma append_assoc (a b c : string) : ((a ++ b) ++ c = a ++ (b ++ c))%string.
Proof. induction a as [|x a IH]; cbn; [reflexivity|]. now rewrite IH. Qed.

Lemma append_nil_r (a : string) : (a ++ "")%string = a.
Proof. induction a as [|x a IH]; cbn; [reflexivity|]. now rewrite IH. Qed.

Lemma lstrip_all p a s : all p a = true -> lstrip p (a ++ s) = lstrip p s.
Proof.
  induction a as [|x a IH]; cbn; [reflexivity|].
  intros H. apply andb_true_iff in H as [Hx Ha]. rewrite Hx. now apply IH.
Qed.

Lemma rstrip_all p s : all p s = true -> rstrip p s = "".
Proof.
  induction s as [|x s IH]; cbn; [reflexivity|].
  intros H. apply andb_true_iff in H as [Hx Hs]. now rewrite (IH Hs), Hx.
Qed.

Lemma rstrip_keep p a c t :
  p c = false -> all p t = true ->
  rstrip p (a ++ String c t) = (a ++ String c "")%string.
Proof.
  intros Hc Ht. induction a as [|x a IH]; cbn.
  - now rewrite (rstrip_all p t Ht), Hc.
  - rewrite IH. now destruct a.
Qed.

(** [strip] of a text between two characters that are not white space. *)
Lemma strip_framed pre c mid d post :
  all isspace pre = true -> isspace c = false ->
  isspace d = false -> all isspace post = true ->
  strip (pre ++ String c (mid ++ String d post))
  = String c (mid ++ String d "").
Proof.
  intros Hpre Hc Hd Hpost. unfold strip.
  rewrite (lstrip_all _ _ _ Hpre). cbn [lstrip]. rewrite Hc.
  change (String c (mid ++ String d post))
    with ((String c mid) ++ String d post)%string.
  now rewrite (rstrip_keep _ _ _ _ Hd Hpost).
Qed.

Lemma strip_blank s : blank s = true -> strip s = "".
Proof.
  intros H. unfold strip.
  rewrite <- (append_nil_r s), (lstrip_all _ _ _ H). reflexivity.
Qed.

Lemma endswith_last d a : endswith (String d "") (a ++ String d "") = true.
Proof.
  unfold endswith. rewrite string_length_app. cbn [String.length].
  replace (String.length a + 1 - 1) with (String.length a) by lia.
  rewrite drop_app, String.eqb_refl. cbn [andb]. apply Nat.leb_le. lia.
Qed.

Lemma inner_framed c s d : inner (String c (s ++ String d "")) = s.
Proof.
  unfold inner. cbn [String.length drop]. rewrite string_length_app.
  cbn [String.length].
  replace (S (String.length s + 1) - 2) with (String.length s) by lia.
  apply take_app.
Qed.

Lemma strip_quotes_quoted pre s post :
  blank pre = true -> blank post = true ->
  strip_quotes (pre ++ quoted s ++ post) = s.
Proof.
  intros Hpre Hpost. unfold strip_quotes, quoted.
  change (String dquote (s ++ String dquote "") ++ post)%string
    with (String dquote ((s ++ String dquote "") ++ post)).
  rewrite append_assoc. cbn [append].
  rewrite (strip_framed pre dquote s dquote post Hpre eq_refl eq_refl Hpost).
  cbn zeta.
  replace (startswith (String dquote "") (String dquote (s ++ String dquote "")))
    with true by (unfold startswith; cbn; now destruct (s ++ String dquote "")%string).
  change (String dquote (s ++ String dquote ""))
    with ((String dquote s) ++ String dquote "")%string at 1.
  rewrite endswith_last. cbn [andb orb]. apply inner_framed.
Qed.

(** ** The lines of a text *)

Lemma readlines_from_line acc l rest :
  contains LF l = false ->
  readlines_from acc (l ++ String LF rest)
  = ((acc ++ l ++ String LF "")%string :: readlines_from "" rest)%list.
Proof.
  revert acc. induction l as [|x l IH]; intros acc H; cbn [append].
  - cbn [readlines_from]. now rewrite Ascii.eqb_refl.
  - cbn [contains] in H. apply orb_false_iff in H as [Hx Hl].
    cbn [readlines_from]. rewrite Hx, (IH _ Hl), append_assoc. reflexivity.
Qed.

Lemma concat_cons x l : String.concat "" (x :: l) = (x ++ String.concat "" l)%string.
Proof. destruct l; cbn; [now rewrite append_nil_r|reflexivity]. Qed.

Lemma contains_quoted c s :
  Ascii.eqb dquote c = false -> contains c (quoted s) = contains c s.
Proof.
  intros H. unfold quoted. cbn [contains]. rewrite H, contains_app.
  cbn [contains]. rewrite H. cbn. now rewrite orb_false_r.
Qed.

Lemma readlines_from_quoted pre s rest :
  contains LF pre = false -> contains LF s = false ->
  readlines_from "" ((pre ++ quoted s ++ String LF "") ++ rest)
  = ((pre ++ quoted s ++ String LF "")%string :: readlines_from "" rest)%list.
Proof.
  intros Hpre Hs.
  replace ((pre ++ quoted s ++ String LF "") ++ rest)%string
    with ((pre ++ quoted s) ++ String LF rest)%string
    by (now rewrite !append_assoc).
  rewrite readlines_from_line.
  - cbn [append]. now rewrite append_assoc.
  - rewrite contains_app, contains_quoted by reflexivity. now rewrite Hpre, Hs.
Qed.

Lemma readlines_items urls :
  Forall (fun u => u <> "" /\ contains LF u = false) urls ->
  readlines (String.concat "" (map documented_item urls))
  = map documented_item urls.
Proof.
  unfold readlines. induction 1 as [|u urls [_ Hu] _ IH]; [reflexivity|].
  cbn [map]. rewrite concat_cons. unfold documented_item at 1.
  rewrite (readlines_from_quoted "    - " u _ eq_refl Hu), IH. reflexivity.
Qed.

Lemma readlines_documented f urls :
  contains LF f = false ->
  Forall (fun u => u <> "" /\ contains LF u = false) urls ->
  readlines (documented_cfg f urls)
  = (("folder_path: " ++ quoted f ++ String LF "")%string
       :: ("repo_urls:" ++ String LF "")%string
       :: map documented_item urls)%list.
Proof.
  intros Hf Hu. unfold readlines, documented_cfg.
  replace ("folder_path: " ++ quoted f ++ String LF ""
           ++ "repo_urls:" ++ String LF ""
           ++ String.concat "" (map documented_item urls))%string
    with (("folder_path: " ++ quoted f ++ String LF "")
          ++ ("repo_urls:" ++ String LF
                (String.concat "" (map documented_item urls))))%string
    by (now rewrite !append_assoc).
  rewrite (readlines_from_quoted "folder_path: " f _ eq_refl Hf).
  rewrite (readlines_from_line "" "repo_urls:" _ eq_refl).
  cbn [append]. do 2 f_equal. exact (readlines_items urls Hu).
Qed.

Lemma strip_quoted_line ws c pre s post :
  blank ws = true -> isspace c = false -> blank post = true ->
  strip (ws ++ String c pre ++ quoted s ++ post) = (String c pre ++ quoted s)%string.
Proof.
  intros Hws Hc Hpost. unfold quoted.
  replace (ws ++ String c pre ++ String dquote (s ++ String dquote "") ++ post)%string
    with (ws ++ String c ((pre ++ String dquote s) ++ String dquote post))%string
    by (cbn [append]; now rewrite !append_assoc).
  rewrite (strip_framed ws c _ dquote post Hws Hc eq_refl Hpost).
  cbn [append]. now rewrite !append_assoc.
Qed.

Lemma strip_quotes_plain s : strip_quotes (quoted s) = s.
Proof.
  rewrite <- (append_nil_r (quoted s)).
  apply (strip_quotes_quoted "" s "" eq_refl eq_refl).
Qed.

Lemma read_line_folder st f :
  read_line st ("folder_path: " ++ quoted f ++ String LF "")
  = mkState (Some f) (repo_urls st) false.
Proof.
  unfold read_line.
  change ("folder_path: " ++ quoted f ++ String LF "")%string
    with ("" ++ String "f" "older_path: " ++ quoted f ++ String LF "")%string.
  rewrite (strip_quoted_line "" "f" "older_path: " f (String LF "") eq_refl eq_refl eq_refl).
  cbn zeta.
  change (nonempty (String "f" "older_path: " ++ quoted f)) with true.
  change (startswith "#" (String "f" "older_path: " ++ quoted f)) with false.
  change (startswith "folder_path:" (String "f" "older_path: " ++ quoted f))
    with true.
  change (snd (split1 ":" (String "f" "older_path: " ++ quoted f)))
    with (" " ++ quoted f)%string.
  cbn [negb orb]. unfold quoted at 1.
  rewrite (strip_framed " " dquote f dquote "" eq_refl eq_refl eq_refl eq_refl).
  fold (quoted f). now rewrite strip_quotes_plain.
Qed.

Lemma read_line_header st :
  read_line st ("repo_urls:" ++ String LF "")
  = mkState (folder_path st) (repo_urls st) true.
Proof. reflexivity. Qed.

Lemma read_line_item st u :
  in_repo_urls st = true -> u <> "" ->
  read_line st (documented_item u)
  = mkState (folder_path st) (repo_urls st ++ [u]) true.
Proof.
  intros Hin Hu. unfold read_line, documented_item.
  change ("    - " ++ quoted u ++ String LF "")%string
    with ("    " ++ String "-" " " ++ quoted u ++ String LF "")%string.
  rewrite (strip_quoted_line "    " "-" " " u (String LF "") eq_refl eq_refl eq_refl).
  cbn zeta.
  change (nonempty (String "-" " " ++ quoted u)) with true.
  change (startswith "#" (String "-" " " ++ quoted u)) with false.
  change (startswith "folder_path:" (String "-" " " ++ quoted u)) with false.
  change (startswith "repo_urls:" (String "-" " " ++ quoted u)) with false.
  change (startswith "-" (String "-" " " ++ quoted u)) with true.
  change (drop 1 (String "-" " " ++ quoted u)) with (" " ++ quoted u)%string.
  cbn [negb orb]. rewrite Hin. cbn [andb]. unfold quoted at 1 2.
  rewrite (strip_framed " " dquote u dquote "" eq_refl eq_refl eq_refl eq_refl).
  fold (quoted u). rewrite strip_quotes_plain.
  unfold nonempty. destruct (String.eqb_spec u ""); [contradiction|].
  reflexivity.
Qed.

Lemma fold_items urls st :
  in_repo_urls st = true ->
  Forall (fun u => u <> "" /\ contains LF u = false) urls ->
  fold_left read_line (map documented_item urls) st
  = mkState (folder_path st) (repo_urls st ++ urls) true.
Proof.
  intros Hin H. revert st Hin.
  induction H as [|u urls [Hu _] _ IH]; intros st Hin; cbn [map fold_left].
  - rewrite app_nil_r. destruct st; cbn in *. now subst.
  - rewrite (read_line_item st u Hin Hu), IH by reflexivity.
    cbn [folder_path repo_urls]. now rewrite <- app_assoc.
Qed.

Lemma all_strings_map urls : all_strings (map PyStr urls) = Some urls.
Proof.
  induction urls as [|u urls IH]; cbn; [reflexivity|]. now rewrite IH.
Qed.

Lemma all_strings_inv l urls : all_strings l = Some urls -> l = map PyStr urls.
Proof.
  revert urls. induction l as [|v l IH]; intros urls; cbn.
  - now intros [= <-].
  - destruct v; try discriminate.
    destruct (all_strings l) as [urls'|]; cbn; [|discriminate].
    intros [= <-]. cbn. now rewrite (IH urls' eq_refl).
Qed.

Lemma data2_folder_path st :
  dict_get "folder_path" (data2 st) = option_map PyStr (folder_path st).
Proof.
  unfold data2. destruct (folder_path st), (repo_urls st); reflexivity.
Qed.

Lemma data2_repo_urls st :
  dict_get "repo_urls" (data2 st)
  = match repo_urls st with
    | [] => None
    | _ => Some (PyList (map PyStr (repo_urls st)))
    end.
Proof.
  unfold data2. destruct (folder_path st), (repo_urls st); reflexivity.
Qed.

Lemma validate_data2 st :
  validate_cfg (data2 st)
  = match folder_path st with
    | Some f => if blank f then Raise ValueError else Ok (f, repo_urls st)
    | None => Raise ValueError
    end.
Proof.
  unfold validate_cfg. rewrite data2_folder_path, data2_repo_urls.
  destruct (folder_path st) as [f|]; cbn [option_map]; [|reflexivity].
  destruct (blank f); [reflexivity|].
  destruct (repo_urls st) as [|u urls] eqn:E; [reflexivity|].
  now rewrite all_strings_map.
Qed.

Lemma read_line_urls st raw :
  Forall (fun u => u <> "") (repo_urls st) ->
  Forall (fun u => u <> "") (repo_urls (read_line st raw)).
Proof.
  intros H. unfold read_line. cbn zeta.
  repeat match goal with
         | |- context [if ?b then _ else _] => destruct b eqn:?
         end; cbn [repo_urls]; try exact H.
  apply Forall_app. split; [exact H|]. constructor; [|constructor].
  intros E. unfold nonempty in *. 
  match goal with H : negb (String.eqb ?x "") = true |- _ => rewrite E in H; discriminate H end.
Qed.

Lemma fold_urls lines st :
  Forall (fun u => u <> "") (repo_urls st) ->
  Forall (fun u => u <> "") (repo_urls (fold_left read_line lines st)).
Proof.
  revert st. induction lines as [|raw lines IH]; intros st H; cbn [fold_left];
    [exact H|]. now apply IH, read_line_urls.
Qed.

(** A line that the loop passes over. *)
Lemma read_line_skip st raw :
  strip raw = ""
  \/ startswith "#" (strip raw) = true
  \/ (startswith "folder_path:" (strip raw) = false
      /\ startswith "repo_urls:" (strip raw) = false
      /\ startswith "-" (strip raw) = false) ->
  read_line st raw = st.
Proof.
  unfold read_line. cbn zeta. intros [H|[H|(H1 & H2 & H3)]].
  - now rewrite H.
  - rewrite H. now rewrite orb_true_r.
  - rewrite H1, H2, H3, andb_false_r. now destruct (_ || _).
Qed.

End ConfigFacts.


(** * Properties of the configuration loader *)

Module ConfigExtras.
Import Py PyFacts Text FS Pipeline Yaml ConfigFacts Samples.

(** X1. Round trip of the documented file format through the fallback of
    [load_yaml]: for a file that holds a quoted [folder_path] line, the
    [repo_urls:] line and one quoted item on each following line, where
    neither the folder nor an item holds a line feed and no item is empty,
    [load_yaml] without PyYAML returns that folder and those items, in
    order, leaves the file system as it is, and [validate_cfg] accepts the
    result unless the folder is blank. *)
Theorem load_yaml_documented (f : string) (urls : list string) (p : path)
    (fs : node) (ro : bool) :
  contains LF f = false ->
  Forall (fun u => u <> "" /\ contains LF u = false) urls ->
  stat fs p = Some (File ro (documented_cfg f urls)) ->
  exists d,
    load_yaml None p fs = (Ok d, fs)
    /\ d = (("folder_path", PyStr f)
              :: match urls with
                 | [] => []
                 | _ => [("repo_urls", PyList (map PyStr urls))]
                 end)%list
    /\ validate_cfg d = (if blank f then Raise ValueError else Ok (f, urls)).
Proof.
  intros Hf Hu Hp. unfold load_yaml. rewrite Hp.
  assert (E : fold_left read_line (readlines (documented_cfg f urls)) initial
              = mkState (Some f) urls true).
  { rewrite (readlines_documented f urls Hf Hu). cbn [fold_left].
    rewrite read_line_folder, read_line_header.
    unfold initial. cbn [folder_path repo_urls].
    now rewrite (fold_items urls (mkState (Some f) [] true) eq_refl Hu). }
  eexists. split; [reflexivity|]. unfold load_yaml_fallback. rewrite E.
  split; [now destruct urls|]. now rewrite validate_data2.
Qed.

Lemma load_yaml_documented_witness :
  exists d,
    load_yaml None ["cfg.yaml"] (Launcher.fs sample_cfg_world)
    = (Ok d, Launcher.fs sample_cfg_world)
    /\ d = [("folder_path", PyStr "ws");
            ("repo_urls", PyList [PyStr "https://github.com/owner/repo"])]
    /\ validate_cfg d = Ok ("ws", ["https://github.com/owner/repo"]).
Proof.
  apply (load_yaml_documented "ws" ["https://github.com/owner/repo"]
           ["cfg.yaml"] (Launcher.fs sample_cfg_world) false).
  - reflexivity.
  - repeat constructor. discriminate.
  - reflexivity.
Defined.

(** X2. The fallback of [load_yaml] passes over a line that, once
    stripped, is empty, starts with "#", or starts with none of
    [folder_path:], [repo_urls:] and "-": the result is the same with and
    without that line, wherever it stands.  In particular a line with
    another key does not end the list of [repo_urls]. *)
Theorem load_yaml_fallback_skips (pre post : list string) (raw : string) :
  strip raw = ""
  \/ startswith "#" (strip raw) = true
  \/ (startswith "folder_path:" (strip raw) = false
      /\ startswith "repo_urls:" (strip raw) = false
      /\ startswith "-" (strip raw) = false) ->
  load_yaml_fallback (pre ++ raw :: post)%list
  = load_yaml_fallback (pre ++ post)%list.
Proof.
  intros H. unfold load_yaml_fallback.
  rewrite !fold_left_app. cbn [fold_left].
  now rewrite (read_line_skip _ raw H).
Qed.

Lemma load_yaml_fallback_skips_witness :
  load_yaml_fallback ["repo_urls:"; "  - a"; "other_key:"; "  - b"]
  = load_yaml_fallback ["repo_urls:"; "  - a"; "  - b"]
  /\ load_yaml_fallback ["repo_urls:"; "  - a"; "  - b"]
     = [("repo_urls", PyList [PyStr "a"; PyStr "b"])].
Proof.
  split; [|reflexivity].
  apply (load_yaml_fallback_skips ["repo_urls:"; "  - a"] ["  - b"]
           "other_key:").
  right. right. repeat split; reflexivity.
Defined.

(** X3. Whatever the lines of the file, the result of the fallback of
    [load_yaml] can fail [validate_cfg] through [folder_path] only: with
    a [folder_path] that is not blank it is accepted, and the URLs it
    yields are all non-empty strings; with no [folder_path] line, or a
    blank value, [validate_cfg] raises [ValueError]. *)
Theorem load_yaml_fallback_validates (lines : list string) :
  match dict_get "folder_path" (load_yaml_fallback lines) with
  | Some (PyStr f) =>
      if blank f
      then validate_cfg (load_yaml_fallback lines) = Raise ValueError
      else exists urls,
          validate_cfg (load_yaml_fallback lines) = Ok (f, urls)
          /\ Forall (fun u => u <> "") urls
  | _ => validate_cfg (load_yaml_fallback lines) = Raise ValueError
  end.
Proof.
  unfold load_yaml_fallback.
  set (st := fold_left read_line lines initial).
  assert (Hu : Forall (fun u => u <> "") (repo_urls st))
    by (apply fold_urls; constructor).
  rewrite data2_folder_path, validate_data2.
  destruct (folder_path st) as [f|]; cbn [option_map]; [|reflexivity].
  destruct (blank f); [reflexivity|]. eauto.
Qed.

(** X4. [validate_cfg] accepts a configuration exactly when
    [folder_path] is a string that is not blank and [repo_urls] is
    absent, [None], or a list of strings; it then returns the folder as it
    is written and the strings of the list (none when [repo_urls] is
    absent or [None]).  Every other configuration raises [ValueError] and
    nothing else. *)
Theorem validate_cfg_spec (cfg : dict) :
  (forall f urls,
      validate_cfg cfg = Ok (f, urls) <->
      dict_get "folder_path" cfg = Some (PyStr f)
      /\ blank f = false
      /\ ((dict_get "repo_urls" cfg = None
           \/ dict_get "repo_urls" cfg = Some PyNone) /\ urls = []
          \/ dict_get "repo_urls" cfg = Some (PyList (map PyStr urls))))
  /\ (forall e, validate_cfg cfg = Raise e -> e = ValueError).
Proof.
  unfold validate_cfg.
  destruct (dict_get "folder_path" cfg) as [[| | |s| |]|];
    try (split; [intros f urls; split; [discriminate|intros (H & _); discriminate H]
                |intros e [= <-]; reflexivity]).
  destruct (blank s) eqn:Hs.
  { split; [|intros e [= <-]; reflexivity].
    intros f urls. split; [discriminate|].
    intros ([= <-] & Hb & _). congruence. }
  destruct (dict_get "repo_urls" cfg) as [[| | | |l|]|];
    try (split; [|intros e [= <-]; reflexivity];
         intros f urls; split; [discriminate|];
         intros (_ & _ & [[[H|H] _]|H]); discriminate H).
  - cbn [all_strings]. split; [|discriminate]. intros f urls. split.
    + intros [= <- <-]. split; [reflexivity|]. split; [exact Hs|]. left. auto.
    + intros ([= <-] & _ & [[_ ->]|H]); [reflexivity|discriminate H].
  - destruct (all_strings l) as [urls0|] eqn:El.
    + split; [|discriminate]. intros f urls. split.
      * intros [= <- <-]. split; [reflexivity|]. split; [exact Hs|]. right.
        now rewrite (all_strings_inv l urls0 El).
      * intros ([= <-] & _ & [[[H|H] _]|H]); try discriminate H.
        injection H as ->. rewrite all_strings_map in El. congruence.
    + split; [|intros e [= <-]; reflexivity].
      intros f urls. split; [discriminate|].
      intros (_ & _ & [[[H|H] _]|H]); try discriminate H.
      injection H as ->. rewrite all_strings_map in El. discriminate El.
  - cbn [all_strings]. split; [|discriminate]. intros f urls. split.
    + intros [= <- <-]. split; [reflexivity|]. split; [exact Hs|]. left. auto.
    + intros ([= <-] & _ & [[_ ->]|H]); [reflexivity|discriminate H].
Qed.

End ConfigExtras.


(** * Properties of the command line *)

Module ArgsExtras.
Import Py Pipeline PipelineFacts.

Local Open Scope list_scope.

(** What the loop of [parse_args] leaves of the defaults. *)
Lemma parse_options_keeps rest :
  forall cfg rec py cfg' rec' py',
    parse_options rest cfg rec py = Ok (cfg', rec', py') ->
    (~ In "--cfg"%string rest -> cfg' = cfg)
    /\ (~ In "--no-submodules"%string rest -> rec' = rec)
    /\ (~ In "--python"%string rest -> py' = py)
    /\ (rec' = true -> rec = true).
Proof.
  remember (List.length rest) as n eqn:Hn. revert rest Hn.
  induction n as [n IH] using lt_wf_ind.
  intros [|a rest] Hn cfg rec py cfg' rec' py'; cbn [parse_options].
  { intros [= <- <- <-]. auto. }
  cbn [List.length] in Hn.
  destruct (mem a _); [discriminate|].
  destruct (String.eqb_spec a "--cfg") as [->|Hcfg].
  { destruct rest as [|v rest]; [discriminate|]. intros H.
    cbn [List.length] in Hn.
    destruct (IH (List.length rest) ltac:(lia) rest eq_refl _ _ _ _ _ _ H)
      as (H1 & H2 & H3 & H4).
    repeat split; auto.
    - intros Hin. exfalso. apply Hin. now left.
    - intros Hin. apply H2. intros Hr. apply Hin. right. now right.
    - intros Hin. apply H3. intros Hr. apply Hin. right. now right. }
  destruct (String.eqb_spec a "--no-submodules") as [->|Hsub].
  { intros H.
    destruct (IH (List.length rest) ltac:(lia) rest eq_refl _ _ _ _ _ _ H)
      as (H1 & H2 & H3 & H4).
    repeat split.
    - intros Hin. apply H1. intros Hr. apply Hin. now right.
    - intros Hin. exfalso. apply Hin. now left.
    - intros Hin. apply H3. intros Hr. apply Hin. now right.
    - intros Hr. now apply H4 in Hr. }
  destruct (String.eqb_spec a "--python") as [->|Hpy]; [|discriminate].
  destruct rest as [|v rest]; [discriminate|]. intros H.
  cbn [List.length] in Hn.
  destruct (IH (List.length rest) ltac:(lia) rest eq_refl _ _ _ _ _ _ H)
    as (H1 & H2 & H3 & H4).
  repeat split; auto.
  - intros Hin. apply H1. intros Hr. apply Hin. right. now right.
  - intros Hin. apply H2. intros Hr. apply Hin. right. now right.
  - intros Hin. exfalso. apply Hin. now left.
Qed.

Lemma parse_options_prefix l1 :
  forall l2 cfg rec py cfg1 rec1 py1,
    parse_options l1 cfg rec py = Ok (cfg1, rec1, py1) ->
    parse_options (l1 ++ l2) cfg rec py = parse_options l2 cfg1 rec1 py1.
Proof.
  remember (List.length l1) as n eqn:Hn. revert l1 Hn.
  induction n as [n IH] using lt_wf_ind.
  intros [|a l1] Hn l2 cfg rec py cfg1 rec1 py1; cbn [parse_options app].
  { now intros [= <- <- <-]. }
  cbn [List.length] in Hn.
  destruct (mem a _); [discriminate|].
  destruct (String.eqb a "--cfg").
  { destruct l1 as [|v l1]; [discriminate|]. cbn [app].
    cbn [List.length] in Hn. apply (IH (List.length l1)); [lia|reflexivity]. }
  destruct (String.eqb a "--no-submodules").
  { apply (IH (List.length l1)); [lia|reflexivity]. }
  destruct (String.eqb a "--python"); [|discriminate].
  destruct l1 as [|v l1]; [discriminate|]. cbn [app].
  cbn [List.length] in Hn. apply (IH (List.length l1)); [lia|reflexivity].
Qed.

(** X5. The options of the command line are read front to back, and a
    later option overrides an earlier one: when the options [l1] are
    accepted, reading [l1] followed by [l2] is reading [l2] from the
    configuration path, the submodule flag and the interpreter that [l1]
    left. *)
Theorem parse_options_app (l1 l2 : list string) (cfg : string) (rec : bool)
    (py cfg1 : string) (rec1 : bool) (py1 : string) :
  parse_options l1 cfg rec py = Ok (cfg1, rec1, py1) ->
  parse_options (l1 ++ l2) cfg rec py = parse_options l2 cfg1 rec1 py1.
Proof. apply parse_options_prefix. Qed.

Lemma parse_options_app_witness :
  parse_options (["--cfg"; "a.yaml"; "--no-submodules"]
                 ++ ["--cfg"; "b.yaml"]) "./test_module_cfg.yaml" true "python"
  = parse_options ["--cfg"; "b.yaml"] "a.yaml" false "python"
  /\ parse_options ["--cfg"; "b.yaml"] "a.yaml" false "python"
     = Ok ("b.yaml"%string, false, "python"%string).
Proof.
  split; [|reflexivity].
  apply (parse_options_app ["--cfg"; "a.yaml"; "--no-submodules"]
           ["--cfg"; "b.yaml"] "./test_module_cfg.yaml" true "python"
           "a.yaml" false "python").
  reflexivity.
Defined.

(** X6. The defaults of [parse_args]: when the arguments are accepted,
    the configuration path is [./test_module_cfg.yaml] unless [--cfg] is
    among them, the interpreter is [sys.executable] unless [--python] is
    among them, and submodules are recursed into unless [--no-submodules]
    is among them. *)
Theorem parse_args_defaults (exe : string) (argv : list string)
    (g : option string) (cfg : string) (rec : bool) (py : string) :
  parse_args exe argv = Ok (g, cfg, rec, py) ->
  (~ In "--cfg"%string argv -> cfg = "./test_module_cfg.yaml"%string)
  /\ (~ In "--no-submodules"%string argv -> rec = true)
  /\ (~ In "--python"%string argv -> py = exe)
  /\ (rec = false -> In "--no-submodules"%string argv).
Proof.
  unfold parse_args. destruct argv as [|a rest]; [discriminate|].
  destruct (mem a _); [discriminate|].
  assert (Hkeep : forall l,
             (forall x, In x l -> In x (a :: rest)) ->
             parse_options l "./test_module_cfg.yaml" true exe
             = Ok (cfg, rec, py) ->
             (~ In "--cfg"%string (a :: rest)
              -> cfg = "./test_module_cfg.yaml"%string)
             /\ (~ In "--no-submodules"%string (a :: rest) -> rec = true)
             /\ (~ In "--python"%string (a :: rest) -> py = exe)
             /\ (rec = false -> In "--no-submodules"%string (a :: rest))).
  { intros l Hl H.
    destruct (parse_options_keeps l _ _ _ _ _ _ H) as (H1 & H2 & H3 & _).
    repeat split.
    - intros Hin. apply H1. intros Hx. apply Hin, Hl, Hx.
    - intros Hin. apply H2. intros Hx. apply Hin, Hl, Hx.
    - intros Hin. apply H3. intros Hx. apply Hin, Hl, Hx.
    - intros Hr. destruct (in_dec string_dec "--no-submodules"%string l)
        as [Hin|Hin]; [now apply Hl|].
      rewrite (H2 Hin) in Hr. discriminate Hr. }
  destruct (negb _).
  - destruct (parse_options rest _ _ _) as [[[c r] p]|e] eqn:E; cbn [bind];
      [|discriminate].
    intros [= <- <- <- <-]. apply (Hkeep rest); [|exact E].
    intros x Hx. now right.
  - destruct (parse_options (a :: rest) _ _ _) as [[[c r] p]|e] eqn:E;
      cbn [bind]; [|discriminate].
    intros [= <- <- <- <-]. apply (Hkeep (a :: rest)); [|exact E]. auto.
Qed.

Lemma parse_args_defaults_witness :
  (~ In "--cfg"%string ["https://github.com/owner/repo"; "--python"; "py"]
   -> "./test_module_cfg.yaml"%string = "./test_module_cfg.yaml"%string)
  /\ (~ In "--no-submodules"%string
        ["https://github.com/owner/repo"; "--python"; "py"] -> true = true)
  /\ (~ In "--python"%string
        ["https://github.com/owner/repo"; "--python"; "py"]
      -> "py"%string = "python3"%string)
  /\ (true = false ->
      In "--no-submodules"%string
        ["https://github.com/owner/repo"; "--python"; "py"]).
Proof.
  apply (parse_args_defaults "python3"
           ["https://github.com/owner/repo"; "--python"; "py"]
           (Some "https://github.com/owner/repo"%string)).
  reflexivity.
Defined.

(** X7. [parse_args] raises no exception: it returns, or it ends the
    process with status 0 or 1, and with status 0 only when there is no
    argument or one of the arguments is [-h] or [--help]. *)
Theorem parse_args_exits (exe : string) (argv : list string) (e : exn) :
  parse_args exe argv = Raise e ->
  (e = SystemExit 0
   /\ (argv = [] \/ exists a, In a argv /\ mem a ["-h"; "--help"]%string = true))
  \/ e = SystemExit 1.
Proof. apply parse_args_raises. Qed.

Lemma parse_args_exits_witness :
  (SystemExit 1 = SystemExit 0
   /\ (["--cfg"%string] = []
       \/ exists a, In a ["--cfg"%string]
                    /\ mem a ["-h"; "--help"]%string = true))
  \/ SystemExit 1 = SystemExit 1.
Proof.
  apply (parse_args_exits "python3" ["--cfg"%string] (SystemExit 1)).
  reflexivity.
Defined.

End ArgsExtras.


(** * More about the file system helpers and the cloning *)

Module LauncherFacts.
Import Py PyFacts Url UrlFacts GitUrl GitUrlFacts FS FSFacts Launcher.
Import ResetFacts CloneFacts Pipeline PipelineFacts.

Local Open Scope list_scope.

Section Strings.
Local Open Scope string_scope.
Lemma sappend_assoc (a b c : string) : ((a ++ b) ++ c = a ++ (b ++ c))%string.
Proof. induction a as [|x a IH]; cbn; [reflexivity|]. now rewrite IH. Qed.

Lemma remove_app p a b : remove p (a ++ b) = (remove p a ++ remove p b)%string.
Proof.
  induction a as [|x a IH]; cbn; [reflexivity|].
  destruct (p x); cbn; now rewrite IH.
Qed.

Lemma slashes_app a b :
  String.length (remove (other_than "/") (a ++ b))
  = String.length (remove (other_than "/") a)
    + String.length (remove (other_than "/") b).
Proof. now rewrite remove_app, string_length_app. Qed.

Lemma slashes_lacks s :
  contains "/" s = false -> String.length (remove (other_than "/") s) = 0.
Proof.
  induction s as [|x s IH]; cbn; [reflexivity|].
  intros H. apply orb_false_iff in H as [Hx Hs].
  unfold other_than. rewrite Hx. cbn. now apply IH.
Qed.

Lemma prefix_inv t : forall s, String.prefix t s = true -> exists r, s = (t ++ r)%string.
Proof.
  induction t as [|a t IH]; intros s; cbn.
  - destruct s; intros _; eexists; reflexivity.
  - destruct s as [|b s]; cbn; [discriminate|].
    destruct (ascii_dec a b) as [->|]; [|discriminate].
    intros H. destruct (IH s H) as (r & ->). now exists r.
Qed.

Lemma prefix_app t r : String.prefix t (t ++ r) = true.
Proof.
  induction t as [|a t IH]; cbn; [now destruct r|].
  destruct (ascii_dec a a); [exact IH|contradiction].
Qed.

Lemma has_substring_inv t s :
  has_substring t s = true -> exists a b, s = (a ++ t ++ b)%string.
Proof.
  induction s as [|x s IH]; cbn [has_substring]; intros H;
    apply orb_true_iff in H as [H|H]; try discriminate H.
  - destruct (prefix_inv t _ H) as (r & ->). now exists "", r.
  - destruct (prefix_inv t _ H) as (r & E). exists "", r. exact E.
  - destruct (IH H) as (a & b & ->). now exists (String x a), b.
Qed.

Lemma length_lower s : String.length (lower s) = String.length s.
Proof. induction s as [|x s IH]; cbn; [reflexivity|]. now rewrite IH. Qed.

Lemma mem_two x a b : mem x [a; b] = true -> x = a \/ x = b.
Proof.
  unfold mem. cbn [existsb]. rewrite orb_false_r.
  intros H. apply orb_true_iff in H as [H|H]; apply String.eqb_eq in H; auto.
Qed.

Lemma guard_iff sch nl owner name :
  mem sch ["http"; "https"] = true ->
  lower nl = "github.com" ->
  contains "/" owner = false ->
  contains "/" name = false ->
  startswith "http" (sch ++ "://" ++ nl ++ "/" ++ owner ++ "/" ++ name) = true
  /\ (has_substring "://github.com/"
        (sch ++ "://" ++ nl ++ "/" ++ owner ++ "/" ++ name) = true
      <-> nl = "github.com").
Proof.
  intros Hs Hnl Ho Hn.
  assert (Hnl_slash : contains "/" nl = false).
  { apply (proj1 (github_host nl Hnl)). cbn. auto. }
  set (X := (nl ++ "/" ++ owner ++ "/" ++ name)%string).
  assert (HX : has_substring "://github.com/" X = false).
  { destruct (has_substring "://github.com/" X) eqn:E; [|reflexivity].
    destruct (has_substring_inv _ _ E) as (a & b & Eab).
    apply (f_equal (fun s => String.length (remove (other_than "/") s)))
      in Eab. unfold X in Eab.
    rewrite !slashes_app in Eab.
    rewrite (slashes_lacks _ Hnl_slash), (slashes_lacks _ Ho),
      (slashes_lacks _ Hn) in Eab.
    cbn in Eab. lia. }
  assert (HA : String.prefix "github.com/" X = true <-> nl = "github.com").
  { split.
    - intros H. destruct (prefix_inv _ _ H) as (r & E).
      apply (f_equal (take 10)) in E. unfold X in E.
      assert (L : String.length nl = 10)
        by (rewrite <- length_lower, Hnl; reflexivity).
      rewrite <- L in E at 1. rewrite take_app in E. exact E.
    - intros ->. unfold X. apply (prefix_app "github.com/"). }
  destruct (mem_two _ _ _ Hs) as [-> | ->].
  - split; [reflexivity|].
    change (has_substring "://github.com/" ("http" ++ "://" ++ X))
      with (String.prefix "github.com/" X || has_substring "://github.com/" X).
    rewrite HX, orb_false_r. exact HA.
  - split; [reflexivity|].
    change (has_substring "://github.com/" ("https" ++ "://" ++ X))
      with (String.prefix "github.com/" X || has_substring "://github.com/" X).
    rewrite HX, orb_false_r. exact HA.
Qed.

End Strings.

Lemma alter_entry_put_delete x n es :
  assoc x es = None ->
  alter_entry x (fun _ => None) (alter_entry x (fun _ => Some n) es) = es.
Proof.
  induction es as [|[y c] es IH]; cbn.
  - now rewrite String.eqb_refl.
  - destruct (String.eqb y x) eqn:E; [discriminate|].
    intros H. cbn. rewrite E. now rewrite IH.
Qed.

Lemma oalter_put_delete x n p :
  forall o ro es,
    olookup p o = Some (Dir ro es) ->
    assoc x es = None ->
    oalter (p ++ [x]) (fun _ => None) (oalter (p ++ [x]) (fun _ => Some n) o)
    = o.
Proof.
  induction p as [|y q IH]; intros o ro es Hl Hx.
  - cbn in Hl. subst o. cbn. now rewrite (alter_entry_put_delete x n es Hx).
  - cbn [app]. destruct o as [[| r0 es0|]|]; try discriminate Hl.
    cbn [olookup] in Hl. cbn [oalter]. f_equal. f_equal.
    rewrite alter_entry_compose.
    + apply alter_entry_id. apply (IH _ _ _ Hl Hx).
    + now destruct q.
    + intros c. destruct q; cbn; destruct c; discriminate.
Qed.

Lemma delete_put_absent par x n fs ro es :
  lookup par fs = Some (Dir ro es) ->
  lookup (par ++ [x]) fs = None ->
  delete (par ++ [x]) (put (par ++ [x]) n fs) = fs.
Proof.
  intros Hp Hx.
  assert (Ha : assoc x es = None)
    by (now rewrite <- (lookup_entry par x fs ro es Hp)).
  pose proof (delete_spec (par ++ [x]) (put (par ++ [x]) n fs)
                (snoc_not_nil par x)) as Hd.
  rewrite <- put_spec in Hd.
  rewrite (oalter_put_delete x n par (Some fs) ro es Hp Ha) in Hd.
  now injection Hd.
Qed.

(** ** [force_rmtree] *)
Lemma force_rmtree_missing p fs :
  exists_ p fs = false -> force_rmtree p fs = (Ok tt, fs).
Proof. intros H. unfold force_rmtree, mbind, gets. now rewrite H. Qed.

Lemma force_rmtree_file p fs ro d :
  lookup p fs = Some (File ro d) ->
  force_rmtree p fs = (Raise NotADirectoryError, modify p clear_readonly fs).
Proof.
  intros Hl. unfold force_rmtree, mbind at 1, gets.
  rewrite (exists_not_link p fs _ Hl I).
  unfold shutil_rmtree, os_lstat. rewrite Hl.
  rewrite (islink_not_link p fs _ Hl I).
  cbn [rmtree_unsafe].
  assert (Hs : os_scandir p fs = (Raise NotADirectoryError, fs))
    by (unfold os_scandir; now rewrite (stat_not_link p fs _ Hl I)).
  apply mbind_raise.
  rewrite (try_except_caught _ _ _ _ _ _ Hs eq_refl).
  apply mbind_raise. unfold onerror.
  apply try_except_uncaught; [|reflexivity].
  unfold mbind at 1, gets. rewrite (exists_not_link p fs _ Hl I). cbn [negb].
  rewrite (mbind_ok _ _ _ _ _ (chmod_not_link p fs _ Hl I)).
  cbn [call]. apply mbind_raise. unfold os_scandir.
  assert (Hl' : lookup p (modify p clear_readonly fs) = Some (File false d))
    by (now rewrite lookup_modify, Hl).
  now rewrite (stat_not_link _ _ _ Hl' I).
Qed.

Lemma force_rmtree_symlink p fs t :
  lookup p fs = Some (Symlink t) ->
  exists_ p fs = true ->
  exists fs',
    force_rmtree p fs = (Ok tt, fs')
    /\ erase fs' = erase fs
    /\ lookup p fs' = Some (Symlink t).
Proof.
  intros Hl He. unfold force_rmtree, mbind at 1, gets. rewrite He.
  unfold shutil_rmtree, os_lstat. rewrite Hl.
  unfold islink at 1. rewrite Hl. unfold onerror.
  unfold try_except, mbind at 1, gets. rewrite He. cbn [negb].
  unfold exists_, stat in He. unfold mbind, os_chmod.
  destruct (realpath fs p) as [rp|] eqn:Hr; [|discriminate He].
  cbn [call ret]. eexists. split; [reflexivity|].
  split; [apply erase_modify_clear|].
  apply (lookup_symlink_erase p fs _ t (erase_modify_clear rp fs) Hl).
Qed.

(** ** [ensure_dir] *)
Lemma lookup_firstn_dir p fs ro es k :
  lookup p fs = Some (Dir ro es) ->
  exists ro' es', lookup (firstn k p) fs = Some (Dir ro' es').
Proof.
  intros H. rewrite <- (firstn_skipn k p), lookup_app in H.
  destruct (skipn k p) as [|x q]; [cbn in H; eauto|].
  cbn [olookup] in H.
  destruct (lookup (firstn k p) fs) as [[| r e|]|]; try discriminate H. eauto.
Qed.

Lemma makedirs_from_present p fs ro es todo :
  lookup p fs = Some (Dir ro es) ->
  makedirs_from todo p fs = (Ok tt, fs).
Proof.
  intros H. induction todo as [|todo IH]; cbn [makedirs_from]; [reflexivity|].
  destruct (lookup_firstn_dir p fs ro es (List.length p - todo) H)
    as (ro' & es' & Hq).
  now rewrite (stat_not_link _ _ _ Hq I).
Qed.

Lemma makedirs_from_isdir p todo :
  forall fs fs',
    makedirs_from (S todo) p fs = (Ok tt, fs') ->
    p <> [] ->
    isdir p fs' = true.
Proof.
  induction todo as [|todo IH]; intros fs fs' H Hp.
  - cbn [makedirs_from] in H. rewrite Nat.sub_0_r, firstn_all in H.
    destruct (stat fs p) as [[| r e|]|] eqn:Hs; try discriminate H.
    + cbn in H. injection H as <-. unfold isdir. now rewrite Hs.
    + unfold mbind in H.
      destruct (os_mkdir p fs) as [[[]|e] fs1] eqn:Hm; [|discriminate H].
      cbn in H. injection H as <-.
      unfold os_mkdir in Hm.
      destruct (lookup p fs); [discriminate Hm|].
      destruct (lookup (removelast p) fs) as [[| r e|]|] eqn:Hpar;
        try discriminate Hm.
      injection Hm as <-.
      rewrite (app_removelast_last "" Hp).
      apply (isdir_dir _ _ false []).
      apply (lookup_put_entry (removelast p) (last p "") _ _ _ _ Hpar).
  - change (makedirs_from (S (S todo)) p fs)
      with (match stat fs (firstn (List.length p - S todo) p) with
            | Some (Dir _ _) => makedirs_from (S todo) p fs
            | Some _ => (Raise OSError, fs)
            | None =>
                mbind (os_mkdir (firstn (List.length p - S todo) p))
                  (fun _ => makedirs_from (S todo) p) fs
            end) in H.
    destruct (stat fs _) as [[| r e|]|]; try discriminate H.
    + apply (IH _ _ H Hp).
    + unfold mbind in H.
      destruct (os_mkdir _ fs) as [[[]|e] fs1]; [|discriminate H].
      apply (IH _ _ H Hp).
Qed.

Lemma ensure_dir_isdir p fs fs' :
  ensure_dir p fs = (Ok tt, fs') -> p <> [] -> isdir p fs' = true.
Proof.
  unfold ensure_dir, os_makedirs. destruct p as [|x p]; [congruence|].
  cbn [List.length]. apply makedirs_from_isdir.
Qed.

(** ** Failures of the cloning *)

Section CloneFailure.
Variable chk : string -> bool.
Variable git : list string -> GitRun.
Variable onexc : handler.

Lemma clone_and_move_body_raises tmp_root tmp_name url target recurse w ru br
    name ro es e cs :
  parse_github_url chk url = Ok (ru, br, name) ->
  lookup (tmp_root ++ [tmp_name]) (fs w) = None ->
  lookup tmp_root (fs w) = Some (Dir ro es) ->
  git_clone git ru br ((tmp_root ++ [tmp_name]) ++ [name]) recurse
    (set_fs (put (tmp_root ++ [tmp_name]) (Dir false []) (fs w)) w)
  = (Raise e, mkWorld (put (tmp_root ++ [tmp_name]) (Dir false []) (fs w)) cs) ->
  clone_and_move_into_folder chk git onexc (tmp_root ++ [tmp_name]) url
    target recurse w
  = (Raise e, mkWorld (fs w) cs).
Proof.
  intros Hparse Htmp Hroot Hgit.
  unfold clone_and_move_into_folder.
  erewrite mbind_ok; [|rewrite Hparse; reflexivity].
  unfold with_temporary_directory.
  erewrite mbind_ok;
    [|apply on_fs_run; apply (mkdir_new tmp_root tmp_name _ _ _ Htmp Hroot)].
  rewrite <- (delete_put_absent tmp_root tmp_name (Dir false []) (fs w) ro es
                Hroot Htmp) at 2.
  eapply try_finally_run.
  - unfold clone_then_move. cbv zeta. apply mbind_raise. exact Hgit.
  - apply on_fs_run. cbn [fs].
    apply (shutil_rmtree_empty onexc _ _
             (lookup_put_entry tmp_root tmp_name _ _ _ _ Hroot)
             (snoc_not_nil tmp_root tmp_name)).
Qed.

Lemma git_clone_rejects repository branch clone recurse w :
  has_substring "://github.com/" repository = false ->
  git_clone git repository branch clone recurse w = (Raise ValueError, w).
Proof.
  intros H. unfold git_clone. rewrite H. now rewrite orb_true_r.
Qed.


End CloneFailure.

End LauncherFacts.

(** * Properties of the file system helpers and of the cloning *)

Module LauncherExtras.
Import Py PyFacts Url UrlFacts GitUrl GitUrlFacts FS FSFacts Launcher.
Import ResetFacts CloneFacts RaiseFacts Pipeline PipelineFacts LauncherFacts Samples.

Local Open Scope list_scope.

(** X8. [force_rmtree] removes directories only.  On a path that does
    not exist it does nothing.  On a regular file it raises
    [NotADirectoryError], and the file stays, with its read-only
    attribute cleared.  On a symbolic link to something that exists it
    returns normally and removes nothing: the link stays and, apart from
    read-only attributes, the file system is as before. *)
Theorem force_rmtree_non_directory (p : path) (fs : node) :
  (exists_ p fs = false -> force_rmtree p fs = (Ok tt, fs))
  /\ (forall ro d,
         lookup p fs = Some (File ro d) ->
         force_rmtree p fs
         = (Raise NotADirectoryError, modify p clear_readonly fs)
         /\ lookup p (modify p clear_readonly fs) = Some (File false d))
  /\ (forall t,
         lookup p fs = Some (Symlink t) ->
         exists_ p fs = true ->
         exists fs',
           force_rmtree p fs = (Ok tt, fs')
           /\ erase fs' = erase fs
           /\ lookup p fs' = Some (Symlink t)).
Proof.
  split; [apply force_rmtree_missing|]. split.
  - intros ro d H. split; [now apply (force_rmtree_file p fs ro d)|].
    now rewrite lookup_modify, H.
  - apply force_rmtree_symlink.
Qed.

Lemma force_rmtree_non_directory_witness :
  force_rmtree ["ws"; "a"] sample_tree
  = (Raise NotADirectoryError,
     modify ["ws"; "a"] clear_readonly sample_tree)
  /\ lookup ["ws"; "a"] (modify ["ws"; "a"] clear_readonly sample_tree)
     = Some (File false "x").
Proof.
  apply (proj1 (proj2 (force_rmtree_non_directory ["ws"; "a"] sample_tree))
           true "x"%string).
  reflexivity.
Defined.

(** X9. [ensure_dir] leaves a directory that is there as it is, and
    when it returns normally for a path other than the root, that path is
    a directory that can be listed: the [ValueError] of
    [clear_folder_contents] for a path that is not a directory cannot
    follow a successful [ensure_dir]. *)
Theorem ensure_dir_makes_directory (p : path) (fs : node) :
  (forall ro es,
      lookup p fs = Some (Dir ro es) -> ensure_dir p fs = (Ok tt, fs))
  /\ (forall fs',
         ensure_dir p fs = (Ok tt, fs') ->
         p <> [] ->
         isdir p fs' = true
         /\ exists names, os_listdir p fs' = (Ok names, fs')).
Proof.
  split.
  - intros ro es H. apply (makedirs_from_present p fs ro es _ H).
  - intros fs' H Hp. pose proof (ensure_dir_isdir p fs fs' H Hp) as Hd.
    split; [exact Hd|]. unfold isdir in Hd. unfold os_listdir.
    destruct (stat fs' p) as [[| r es|]|]; try discriminate Hd. eauto.
Qed.

Lemma ensure_dir_makes_directory_witness :
  isdir ["ws"; "new"; "deep"]
    (snd (ensure_dir ["ws"; "new"; "deep"] sample_tree)) = true
  /\ exists names,
      os_listdir ["ws"; "new"; "deep"]
        (snd (ensure_dir ["ws"; "new"; "deep"] sample_tree))
      = (Ok names, snd (ensure_dir ["ws"; "new"; "deep"] sample_tree)).
Proof.
  apply (proj2 (ensure_dir_makes_directory ["ws"; "new"; "deep"] sample_tree)).
  - reflexivity.
  - discriminate.
Defined.

Lemma split_segment c s x : In x (filter nonempty (split c s)) -> contains c x = false.
Proof.
  intros H. apply filter_In in H as [H _]. apply (split_pieces c s x H).
Qed.

Lemma strip_git_suffix_lacks c repo :
  contains c repo = false -> contains c (strip_git_suffix repo) = false.
Proof.
  intros H. unfold strip_git_suffix.
  destruct (endswith _ _); [now apply lacks_take|exact H].
Qed.

(** X10. The spelling of the host.  [parse_github_url] compares the host
    with [github.com] without regard to case and keeps it as written in
    the URL it returns; [git_clone] looks for [://github.com/] in that URL
    as it is.  So the URL that [parse_github_url] returns always starts
    with [http], and it passes the check of [git_clone] exactly when the
    host is written [github.com] in lower case.  With any other spelling
    the accepted URL is refused by [git_clone] with [ValueError]: nothing
    is retrieved, the scratch directory is removed, and the cloning step
    ends the process with [EXIT_BAD_GITHUB_URL]. *)
Theorem host_spelling (env : Env) (url ru : string) (br : option string)
    (name : string) (u : ParseResult) :
  parse_github_url (bracketed_netloc_ok env) url = Ok (ru, br, name) ->
  urlparse (bracketed_netloc_ok env) url = Ok u ->
  startswith "http" ru = true
  /\ (has_substring "://github.com/" ru = true
      <-> netloc u = "github.com"%string)
  /\ (netloc u <> "github.com"%string ->
      forall target recurse w tmp_root tmp_name ro es,
        mkdtemp env w = tmp_root ++ [tmp_name] ->
        lookup (tmp_root ++ [tmp_name]) (fs w) = None ->
        lookup tmp_root (fs w) = Some (Dir ro es) ->
        clone_and_move_into_folder (bracketed_netloc_ok env) (git env)
          (tempdir_onexc env) (mkdtemp env w) url target recurse w
        = (Raise ValueError, w)
        /\ clone_one env target recurse url w
           = (Raise (SystemExit EXIT_BAD_GITHUB_URL), w)).
Proof.
  intros Hparse Hu.
  destruct (parse_ok_inv _ _ _ _ _ Hparse)
    as (u' & owner & repo & rest & Hu' & Hsch & Hnl & Hparts & -> & -> & _).
  rewrite Hu in Hu'. injection Hu' as <-.
  assert (Ho : contains "/" owner = false).
  { apply (split_segment "/" (Url.path u)). rewrite Hparts. now left. }
  assert (Hr : contains "/" (strip_git_suffix repo) = false).
  { apply strip_git_suffix_lacks, (split_segment "/" (Url.path u)).
    rewrite Hparts. right. now left. }
  destruct (guard_iff _ _ _ _ Hsch Hnl Ho Hr) as [G1 G2].
  split; [exact G1|]. split; [exact G2|].
  intros Hne target recurse w tmp_root tmp_name ro es Htmp Hfree Hroot.
  assert (Hg : has_substring "://github.com/"
                 (scheme u ++ "://" ++ netloc u ++ "/" ++ owner ++ "/"
                  ++ strip_git_suffix repo) = false).
  { destruct (has_substring _ _); [|reflexivity].
    exfalso. now apply Hne, G2. }
  assert (Hrun :
            clone_and_move_into_folder (bracketed_netloc_ok env) (git env)
              (tempdir_onexc env) (mkdtemp env w) url target recurse w
            = (Raise ValueError, w)).
  { rewrite Htmp.
    rewrite (clone_and_move_body_raises _ (git env) (tempdir_onexc env)
               tmp_root tmp_name url target recurse w _ _ _ ro es
               ValueError (calls w) Hparse Hfree Hroot).
    - now destruct w.
    - apply git_clone_rejects, Hg. }
  split; [exact Hrun|].
  apply clone_one_value_error. unfold clone_body.
  unfold mbind at 1. cbn [gets]. now rewrite (mbind_raise _ _ _ _ _ Hrun).
Qed.

Lemma host_spelling_witness :
  clone_and_move_into_folder (fun _ => true) sample_git onerror
    ["tmp"; "repo_clone_0"] "https://GitHub.com/owner/repo" ["ws"] true
    sample_pipeline_world
  = (Raise ValueError, sample_pipeline_world)
  /\ clone_one sample_pipeline_env ["ws"] true
       "https://GitHub.com/owner/repo" sample_pipeline_world
     = (Raise (SystemExit EXIT_BAD_GITHUB_URL), sample_pipeline_world).
Proof.
  apply (proj2 (proj2 (host_spelling sample_pipeline_env
                         "https://GitHub.com/owner/repo"
                         "https://GitHub.com/owner/repo" None "repo"
                         (mkParseResult "https" "GitHub.com" "/owner/repo"
                            "" "" "")
                         eq_refl eq_refl))
           ltac:(discriminate) ["ws"%string] true sample_pipeline_world
           ["tmp"%string] "repo_clone_0"%string false []).
  - reflexivity.
  - reflexivity.
  - reflexivity.
Defined.



(** X12. A configuration that cannot be used ends [main] with
    [EXIT_BAD_CFG] before anything is touched.  With [load_yaml] as the
    loader and arguments that are accepted: when the configuration path
    is not a regular file, when PyYAML fails on its text with an
    exception, when the document that PyYAML returns is falsy (an empty
    file, an empty list or string, 0, false), or when it is something
    other than a mapping, [main] exits with status 7 and the file system
    and the record of command lines are as before.  [load_yaml] itself
    never ends the process: it raises exceptions only. *)
Theorem unusable_config_exits (env : Env)
    (safe_load : option (string -> result pyval)) :
  (forall argv g c r p w,
      parse_args (sys_executable env) argv = Ok (g, c, r, p) ->
      isfile (abspath env c) (fs w) = false ->
      main (Yaml.with_load_yaml safe_load env) argv w
      = (Raise (SystemExit EXIT_BAD_CFG), w))
  /\ (forall argv g c r p w ro text parse,
         parse_args (sys_executable env) argv = Ok (g, c, r, p) ->
         stat (fs w) (abspath env c) = Some (File ro text) ->
         safe_load = Some parse ->
         (exists e, parse text = Raise e /\ is_exception e = true)
         \/ (exists v, parse text = Ok v
                       /\ (Yaml.truthy v = false \/ forall d, v <> PyDict d)) ->
         main (Yaml.with_load_yaml safe_load env) argv w
         = (Raise (SystemExit EXIT_BAD_CFG), w))
  /\ (well_behaved env ->
      (forall parse text e,
          safe_load = Some parse -> parse text = Raise e ->
          is_exception e = true) ->
      well_behaved (Yaml.with_load_yaml safe_load env)).
Proof.
  assert (Hexit : forall argv g c r p w e,
             parse_args (sys_executable env) argv = Ok (g, c, r, p) ->
             Yaml.load_yaml safe_load (abspath env c) (fs w)
             = (Raise e, fs w) ->
             is_exception e = true ->
             main (Yaml.with_load_yaml safe_load env) argv w
             = (Raise (SystemExit EXIT_BAD_CFG), w)).
  { intros argv g c r p w e Hp Hl He. unfold main. unfold mbind at 1.
    cbn [Yaml.with_load_yaml sys_executable]. rewrite Hp.
    unfold run_pipeline. apply mbind_raise.
    apply (stage_cfg_exit _ c w e w); [|exact He].
    unfold read_cfg. apply mbind_raise.
    cbn [Yaml.with_load_yaml load_yaml abspath].
    rewrite (on_fs_run _ _ _ _ Hl). now destruct w. }
  assert (Hempty : validate_cfg [] = Raise ValueError) by reflexivity.
  split; [|split].
  - intros argv g c r p w Hp Hf.
    apply (Hexit argv g c r p w ValueError Hp); [|reflexivity].
    unfold Yaml.load_yaml. unfold isfile in Hf.
    now destruct (stat (fs w) (abspath env c)) as [[| |]|].
  - intros argv g c r p w ro text parse Hp Hs -> [(e & He & Hex)|(v & Hv & H)].
    + apply (Hexit argv g c r p w e Hp); [|exact Hex].
      unfold Yaml.load_yaml. now rewrite Hs, He.
    + destruct (Yaml.truthy v) eqn:Ht.
      * destruct H as [H|H]; [discriminate H|].
        apply (Hexit argv g c r p w ValueError Hp); [|reflexivity].
        unfold Yaml.load_yaml. rewrite Hs, Hv, Ht.
        destruct v; try reflexivity. now destruct (H d).
      * unfold main. unfold mbind at 1.
        cbn [Yaml.with_load_yaml sys_executable]. rewrite Hp.
        unfold run_pipeline. apply mbind_raise.
        apply (stage_cfg_exit _ c w ValueError w); [|reflexivity].
        unfold read_cfg.
        cbn [Yaml.with_load_yaml load_yaml abspath].
        erewrite mbind_ok.
        -- now rewrite Hempty.
        -- erewrite on_fs_run;
             [|unfold Yaml.load_yaml; rewrite Hs, Hv, Ht; reflexivity].
           now destruct w.
  - intros (H1 & H2 & H3 & H4 & H5) Hparse.
    repeat split; try assumption.
    intros cfg_path. cbn [Yaml.with_load_yaml load_yaml].
    apply ew_on_fs. intros s e s' H. left.
    unfold Yaml.load_yaml in H.
    destruct (stat s _) as [[rd text| |]|]; try (injection H as <- _; reflexivity).
    destruct safe_load as [parse|]; [|discriminate H].
    destruct (parse text) as [v|e0] eqn:E.
    + destruct (if Yaml.truthy v then v else PyDict []);
        try discriminate H; injection H as <- _; reflexivity.
    + injection H as <- _. apply (Hparse parse text e0 eq_refl E).
Qed.

Lemma unusable_config_exits_witness :
  main (Yaml.with_load_yaml None sample_pipeline_env)
    ["--cfg"; "missing.yaml"]%string sample_pipeline_world
  = (Raise (SystemExit EXIT_BAD_CFG), sample_pipeline_world).
Proof.
  apply (proj1 (unusable_config_exits sample_pipeline_env None)
           ["--cfg"; "missing.yaml"]%string None "missing.yaml"%string true
           "python3"%string sample_pipeline_world).
  - reflexivity.
  - reflexivity.
Defined.

(** X13. The sources are cloned one after the other, and a URL is only
    checked when its turn comes: when the sources before a URL that
    [parse_github_url] rejects have been cloned, the cloning stage ends
    the process with [EXIT_BAD_GITHUB_URL] in the state that those clones
    left, the sources after it are not looked at, and the driver is not
    run. *)
Theorem bad_url_stops_cloning (env : Env) (pre post : list string)
    (u : string) (folder : path) (recurse : bool) (py : string)
    (w w1 : World) (e : exn) :
  for_each pre (clone_one env folder recurse) w = (Ok tt, w1) ->
  parse_github_url (bracketed_netloc_ok env) u = Raise e ->
  stage_clone env (pre ++ u :: post) folder recurse w
  = (Raise (SystemExit EXIT_BAD_GITHUB_URL), w1)
  /\ materialize_and_run env (pre ++ u :: post) folder recurse py w
     = (Raise (SystemExit EXIT_BAD_GITHUB_URL), w1).
Proof.
  intros Hpre Hu.
  assert (H : stage_clone env (pre ++ u :: post) folder recurse w
              = (Raise (SystemExit EXIT_BAD_GITHUB_URL), w1)).
  { unfold stage_clone.
    destruct (pre ++ u :: post) as [|x l] eqn:E;
      [now destruct pre|]. rewrite <- E.
    rewrite for_each_app, (mbind_ok _ _ _ _ _ Hpre). cbn [for_each].
    apply mbind_raise. apply (clone_one_bad_url env folder recurse u w1 e Hu). }
  split; [exact H|]. unfold materialize_and_run. now apply mbind_raise.
Qed.

Lemma bad_url_stops_cloning_witness :
  exists w1,
    for_each ["https://github.com/owner/repo"%string]
      (clone_one sample_pipeline_env ["ws"%string] true)
      sample_pipeline_world = (Ok tt, w1)
    /\ lookup ["ws"; "repo"]%string (fs w1) = Some sample_clone
    /\ materialize_and_run sample_pipeline_env
         (["https://github.com/owner/repo"%string]
          ++ "https://example.com/x/y"%string
             :: ["https://github.com/a/b"%string])
         ["ws"%string] true "python3" sample_pipeline_world
       = (Raise (SystemExit EXIT_BAD_GITHUB_URL), w1).
Proof.
  eexists. split; [vm_compute; reflexivity|]. split; [reflexivity|].
  apply (proj2 (bad_url_stops_cloning sample_pipeline_env
                  ["https://github.com/owner/repo"%string]
                  ["https://github.com/a/b"%string]
                  "https://example.com/x/y" ["ws"%string] true "python3"
                  sample_pipeline_world _ ValueError
                  ltac:(vm_compute; reflexivity) eq_refl)).
Defined.
Lemma filter_nil_iff {A} (f : A -> bool) l :
  filter f l = [] <-> Forall (fun x => f x = false) l.
Proof.
  induction l as [|x l IH]; cbn [filter].
  - split; [constructor|reflexivity].
  - destruct (f x) eqn:E.
    + split; [discriminate|]. intros H. inversion H; congruence.
    + rewrite IH. split; [now constructor|]. intros H. now inversion H.
Qed.

Lemma urls_to_clone_nil g repo_urls :
  urls_to_clone g repo_urls = []
  <-> (g = None \/ g = Some ""%string)
      /\ Forall (fun u => blank u = true) repo_urls.
Proof.
  assert (Hf : filter (fun u => negb (blank u)) repo_urls = []
               <-> Forall (fun u => blank u = true) repo_urls).
  { rewrite filter_nil_iff. split; intros H; induction H; constructor; auto.
    - now destruct (blank x).
    - now rewrite H. }
  unfold urls_to_clone, nonempty. destruct g as [u|].
  - destruct (String.eqb_spec u ""); cbn [negb].
    + subst u. rewrite Hf. intuition.
    + split; [discriminate|]. intros [[H|H] _]; congruence.
  - rewrite Hf. intuition.
Qed.

(** X14. With nothing to clone the workspace is emptied all the same.
    The list of sources is empty exactly when no URL, or an empty one, is
    on the command line and every entry of [repo_urls] is blank.  [main]
    finds that out after the first reset: once the configuration is read
    and the workspace created and cleared, it ends the process with
    [EXIT_BAD_CFG] in the state that the reset left. *)
Theorem nothing_to_clone (env : Env) :
  (forall g repo_urls,
      urls_to_clone g repo_urls = []
      <-> (g = None \/ g = Some ""%string)
          /\ Forall (fun u => blank u = true) repo_urls)
  /\ (forall argv w g c r p folder_path repo_urls w1 w2 w3,
         parse_args (sys_executable env) argv = Ok (g, c, r, p) ->
         stage_cfg env c w = (Ok (folder_path, repo_urls), w1) ->
         on_fs (ensure_dir (abspath env folder_path)) w1 = (Ok tt, w2) ->
         stage_clear (abspath env folder_path) w2 = (Ok tt, w3) ->
         urls_to_clone g repo_urls = [] ->
         main env argv w = (Raise (SystemExit EXIT_BAD_CFG), w3)).
Proof.
  split; [apply urls_to_clone_nil|].
  intros argv w g c r p folder_path repo_urls w1 w2 w3 Hp H1 H2 H3 Hn.
  rewrite (main_selects env _ _ _ _ _ _ _ _ _ _ _ Hp H1 H2 H3), Hn.
  reflexivity.
Qed.

Lemma nothing_to_clone_witness :
  main (Yaml.with_load_yaml None sample_pipeline_env)
    ["--cfg"; "cfg.yaml"]%string sample_no_repo_world
  = (Raise (SystemExit EXIT_BAD_CFG),
     mkWorld
       (Dir false
          [("tmp"%string, Dir false []);
           ("launchAll.py"%string, File false "driver");
           ("cfg.yaml"%string, File false (Yaml.documented_cfg "ws" []));
           ("scripts"%string, Dir false []);
           ("ws"%string, Dir false [])])
       []).
Proof.
  apply (proj2 (nothing_to_clone (Yaml.with_load_yaml None sample_pipeline_env))
           ["--cfg"; "cfg.yaml"]%string sample_no_repo_world None
           "cfg.yaml"%string true "python3"%string "ws"%string []
           sample_no_repo_world sample_no_repo_world).
  - reflexivity.
  - vm_compute. reflexivity.
  - reflexivity.
  - vm_compute. reflexivity.
  - reflexivity.
Defined.

End LauncherExtras.


(** * More about [launchAll.py] *)

Module LaunchAllExtraFacts.
Import Py PyFacts LaunchAll LaunchAllFacts ResetFacts.

(** ** The words of a step *)

Lemma split_ws_from_words s :
  forall word,
    all (fun c => negb (isspace c)) word = true ->
    Forall (fun x => x <> ""%string /\ all (fun c => negb (isspace c)) x = true)
      (split_ws_from word s).
Proof.
  induction s as [|c s IH]; intros word Hw; cbn [split_ws_from].
  - unfold nonempty. destruct (String.eqb_spec word ""); cbn [negb];
      [constructor|]. constructor; [now split|constructor].
  - destruct (isspace c) eqn:Hc.
    + unfold nonempty. destruct (String.eqb_spec word ""); cbn [negb].
      * now apply IH.
      * constructor; [now split|]. now apply IH.
    + apply IH. rewrite all_app, Hw. cbn. now rewrite Hc.
Qed.

Lemma split_ws_from_blank s :
  forall word,
    blank s = true ->
    split_ws_from word s = if nonempty word then [word] else [].
Proof.
  unfold blank. induction s as [|c s IH]; intros word H; cbn [split_ws_from];
    [reflexivity|].
  cbn [all] in H. apply andb_true_iff in H as [Hc Hs]. rewrite Hc.
  rewrite (IH ""%string Hs). now destruct (nonempty word).
Qed.

Local Open Scope Z_scope.

Section WithEnv.
Variable env : Env.

(** Every step exits with status 0: all of them run, in order. *)
Lemma steps_all_run steps :
  forall w,
    (forall i step, nth_error steps i = Some step ->
                    child_status env (children w + i)
                      ("python" :: split_ws step) = 0) ->
    exists w',
      for_each steps (fun step => run env ("python" :: split_ws step)) w
      = (Ok tt, w')
      /\ trace w'
         = (rev (map (fun step => Run ("python" :: split_ws step)) steps)
            ++ trace w)%list
      /\ children w' = (children w + List.length steps)%nat
      /\ now w' = now w
      /\ probes w' = probes w.
Proof.
  induction steps as [|p steps IH]; intros w Hall.
  - exists w. cbn. repeat split; auto.
  - cbn [for_each].
    assert (H0 : child_status env (children w) ("python" :: split_ws p) = 0).
    { specialize (Hall 0%nat p eq_refl). now rewrite Nat.add_0_r in Hall. }
    unfold mbind at 1, run at 1, subprocess_run at 1. rewrite H0.
    cbn [Z.eqb].
    match goal with
    | |- context [for_each _ _ ?w1] =>
        destruct (IH w1) as (w' & H & T & C & N & P)
    end.
    + intros i step Hi. cbn [children].
      specialize (Hall (S i) step Hi).
      now rewrite <- Nat.add_succ_comm in Hall.
    + exists w'. split; [exact H|]. cbn [children trace now probes] in *.
      rewrite T, C. cbn [map rev List.length].
      rewrite <- !app_assoc. repeat split; auto; lia.
Qed.

Lemma wait_until_ready_outcome rounds :
  forall w start max_wait,
    max_wait * 1000 - (now w - start) <= 2000 * Z.of_nat rounds ->
    exists w',
      (wait_until_ready env rounds start max_wait w = (Ok tt, w')
       /\ (probes w < probes w')%nat
       /\ probe_result env (pred (probes w')) = Exited 0
       \/ wait_until_ready env rounds start max_wait w
          = (Raise (SystemExit 1), w')
          /\ max_wait * 1000 <= now w' - start
          /\ forall n, (probes w <= n < probes w')%nat ->
                       probe_result env n <> Exited 0)
      /\ (probes w <= probes w' <= probes w + rounds)%nat
      /\ now w <= now w'
      /\ filter is_run (trace w') = filter is_run (trace w)
      /\ filter is_launch (trace w') = filter is_launch (trace w)
      /\ children w' = children w.
Proof.
  induction rounds as [|rounds IH]; intros w start max_wait Hb;
    cbn [wait_until_ready].
  - destruct (now w - start <? max_wait * 1000) eqn:E.
    + apply Z.ltb_lt in E. lia.
    + apply Z.ltb_ge in E. exists w. split.
      * right. split; [reflexivity|]. split; [exact E|]. intros n Hn. lia.
      * repeat split; auto; lia.
  - destruct (now w - start <? max_wait * 1000) eqn:E.
    + destruct (docker_is_ready_total env w)
        as (w1 & H1 & T1 & N1 & P1 & C1).
      erewrite mbind_ok; [|exact H1].
      destruct (match probe_result env (probes w) with
                | Exited 0 => true
                | _ => false
                end) eqn:Hrd; cbv iota.
      * assert (Hp : probe_result env (probes w) = Exited 0)
          by (destruct (probe_result env (probes w)) as [[| |]| |];
              congruence).
        exists w1. split.
        -- left. split; [reflexivity|]. rewrite P1. cbn [pred].
           split; [lia|exact Hp].
        -- rewrite T1, P1. cbn. repeat split; auto; lia.
      * assert (Hp : probe_result env (probes w) <> Exited 0)
          by (intros Hp; rewrite Hp in Hrd; discriminate Hrd).
        unfold mbind at 1, time_sleep at 1.
        match goal with
        | |- context [wait_until_ready env rounds start max_wait ?w2] =>
            destruct (IH w2 start max_wait)
              as (w' & Hout & Pb & Nw & R & L & C);
            [cbn [now]; lia|]
        end.
        cbn [now probes trace children] in Hout, Pb, Nw, R, L, C.
        rewrite T1 in R, L. cbn in R, L.
        exists w'. split.
        -- destruct Hout as [(H & Hlt & Hr)|(H & Hd & Hnr)].
           ++ left. split; [exact H|]. split; [lia|exact Hr].
           ++ right. split; [exact H|]. split; [exact Hd|].
              intros n Hn.
              destruct (Nat.eq_dec n (probes w)) as [->|Hne];
                [exact Hp|apply Hnr; lia].
        -- repeat split; try congruence; lia.
    + apply Z.ltb_ge in E. exists w. split.
      * right. split; [reflexivity|]. split; [exact E|]. intros n Hn. lia.
      * repeat split; auto; lia.
Qed.

End WithEnv.
End LaunchAllExtraFacts.

Module LaunchAllExtras.
Import Py LaunchAll LaunchAllFacts ResetFacts LaunchAllExtraFacts Samples.

Local Open Scope Z_scope.

(** X15. The run in which everything goes well: when the platform
    matches, Docker is ready and every workflow step exits with status 0,
    [main] of [launchAll.py] returns normally, so that the process exits
    with status 0, having run every step once, in the order of the
    configuration, each as [python] followed by the words of the step. *)
Theorem all_steps_run (env : Env) (c : Config) (w w1 : World) :
  has_substring (lower (cfg_os c)) (lower (platform_system env)) = true ->
  cfg_steps c <> [] ->
  ensure_docker_running env (cfg_executable_path c) (cfg_timeout_seconds c) w
  = (Ok tt, w1) ->
  (forall i step,
      nth_error (cfg_steps c) i = Some step ->
      child_status env (children w1 + i) ("python" :: split_ws step) = 0) ->
  exists w',
    main env (Some c) w = (Ok tt, w')
    /\ exit_status (fst (main env (Some c) w)) = 0
    /\ trace w'
       = (rev (map (fun step => Run ("python" :: split_ws step))
                 (cfg_steps c)) ++ trace w1)%list
    /\ children w' = (children w1 + List.length (cfg_steps c))%nat.
Proof.
  intros Hos Hsteps Hgate Hall.
  destruct (steps_all_run env (cfg_steps c) w1 Hall)
    as (w' & Hrun & Htrace & Hchildren & _).
  assert (Hmain : main env (Some c) w = (Ok tt, w')).
  { unfold main. rewrite Hos. cbn [negb].
    destruct (cfg_steps c) as [|s l] eqn:E; [congruence|].
    apply try_except_ok. erewrite mbind_ok; [|exact Hgate]. exact Hrun. }
  exists w'. rewrite Hmain. repeat split; assumption.
Qed.

Lemma all_steps_run_witness :
  exists w',
    main sample_env_ok
      (Some (mkConfig "win" None 9 ["a.py"; "  c.py   -v "])) sample_start
    = (Ok tt, w')
    /\ exit_status
         (fst (main sample_env_ok
                 (Some (mkConfig "win" None 9 ["a.py"; "  c.py   -v "]))
                 sample_start)) = 0
    /\ trace w'
       = [Run ["python"; "c.py"; "-v"]; Run ["python"; "a.py"]; Probe]
    /\ children w' = 2%nat.
Proof.
  apply (all_steps_run sample_env_ok
           (mkConfig "win" None 9 ["a.py"; "  c.py   -v "]) sample_start
           (mkWorld 150 1 0 0 [Probe])).
  - reflexivity.
  - discriminate.
  - reflexivity.
  - reflexivity.
Defined.

(** X16. What [ensure_docker_running] can do.  It returns normally,
    ends the process with status 1, raises [TypeError] when no executable
    is configured, or raises what launching the executable raised, and
    nothing else.  When it returns normally the last probe it made
    succeeded.  It makes at least one probe and at most two more than
    half the timeout in seconds, launches the executable at most once,
    and runs no workflow step. *)
Theorem ensure_docker_running_outcomes (env : Env) (exe : option string)
    (max_wait : Z) (w : World) (r : result unit) (w' : World) :
  ensure_docker_running env exe max_wait w = (r, w') ->
  (r = Ok tt
   \/ r = Raise (SystemExit 1)
   \/ (exe = None /\ r = Raise TypeError)
   \/ exists e x, exe = Some e /\ popen_error env e = Some x /\ r = Raise x)
  /\ (r = Ok tt -> probe_result env (pred (probes w')) = Exited 0)
  /\ (probes w < probes w' <= probes w + 2 + Z.to_nat (max_wait / 2))%nat
  /\ (filter is_launch (trace w') = filter is_launch (trace w)
      \/ exists e,
          exe = Some e
          /\ filter is_launch (trace w')
             = Launch e :: filter is_launch (trace w))
  /\ filter is_run (trace w') = filter is_run (trace w)
  /\ children w' = children w.
Proof.
  unfold ensure_docker_running.
  destruct (docker_is_ready_total env w) as (w1 & H1 & T1 & N1 & P1 & C1).
  erewrite mbind_ok; [|exact H1].
  assert (R1 : filter is_run (trace w1) = filter is_run (trace w))
    by now rewrite T1.
  assert (L1 : filter is_launch (trace w1) = filter is_launch (trace w))
    by now rewrite T1.
  destruct (match probe_result env (probes w) with
            | Exited 0 => true
            | _ => false
            end) eqn:Hrd; cbv iota.
  { intros [= <- <-].
    assert (Hp : probe_result env (probes w) = Exited 0)
      by (destruct (probe_result env (probes w)) as [[| |]| |]; congruence).
    rewrite P1. cbn [pred]. repeat split; auto; lia. }
  destruct exe as [exe|].
  2:{ intros [= <- <-]. split; [auto|]. split; [discriminate|].
      repeat split; auto; lia. }
  destruct (path_exists env exe); cbn [negb].
  2:{ intros [= <- <-]. split; [auto|]. split; [discriminate|].
      repeat split; auto; lia. }
  unfold mbind at 1, popen at 1.
  destruct (popen_error env exe) as [x|] eqn:Hx.
  { intros [= <- <-]. split; [right; right; right; eauto|].
    split; [discriminate|]. repeat split; auto; lia. }
  unfold mbind at 1, gets at 1. cbn [now].
  match goal with
  | |- context [wait_until_ready env ?k ?st max_wait ?w2] =>
      destruct (wait_until_ready_outcome env k w2 st max_wait)
        as (w2' & Hout & Pb & Nw & R & L & C)
  end.
  { cbn [now].
    pose proof (LaunchAllClaims.rounds_enough max_wait). lia. }
  cbn [now probes trace children] in Hout, Pb, Nw, R, L, C.
  cbn [filter is_run is_launch] in R, L.
  destruct Hout as [(H & Hlt & Hr)|(H & Hd & Hnr)]; rewrite H;
    intros [= <- <-].
  - split; [auto|]. split; [auto|]. split; [lia|].
    split; [right; exists exe; split; [reflexivity|congruence]|].
    split; congruence.
  - split; [auto|]. split; [discriminate|]. split; [lia|].
    split; [right; exists exe; split; [reflexivity|congruence]|].
    split; congruence.
Qed.

Lemma ensure_docker_running_outcomes_witness :
  exists w',
    (probes sample_start < probes w'
     <= probes sample_start + 2 + Z.to_nat (9 / 2))%nat
    /\ filter is_run (trace w') = filter is_run (trace sample_start).
Proof.
  exists (snd (ensure_docker_running sample_env_down
                 (Some "C:/Docker/Docker Desktop.exe"%string) 9
                 sample_start)).
  destruct (ensure_docker_running_outcomes sample_env_down
              (Some "C:/Docker/Docker Desktop.exe"%string) 9 sample_start
              (fst (ensure_docker_running sample_env_down
                      (Some "C:/Docker/Docker Desktop.exe"%string) 9
                      sample_start))
              (snd (ensure_docker_running sample_env_down
                      (Some "C:/Docker/Docker Desktop.exe"%string) 9
                      sample_start)))
    as (_ & _ & Hp & _ & Hr & _).
  - now destruct (ensure_docker_running _ _ _ _).
  - split; [exact Hp|exact Hr].
Defined.

(** X17. The command line of a workflow step is [python] followed by
    the words of the step: each word is non-empty and holds no white
    space, however the step is spaced.  A step that is blank has no word,
    so that the interpreter is run with no script at all. *)
Theorem step_command_words (env : Env) (step : string) :
  Forall (fun x => x <> ""%string
                   /\ all (fun c => negb (isspace c)) x = true)
    (split_ws step)
  /\ (blank step = true ->
      forall w,
        trace (snd (run env ("python"%string :: split_ws step) w))
        = Run ["python"%string] :: trace w).
Proof.
  split.
  - apply split_ws_from_words. reflexivity.
  - intros Hb w. unfold split_ws. rewrite (split_ws_from_blank step "" Hb).
    cbn [nonempty String.eqb negb]. unfold run, subprocess_run.
    now destruct (_ =? 0).
Qed.

Lemma step_command_words_witness :
  trace (snd (run sample_env_ok ("python"%string :: split_ws "   ")
                sample_start))
  = Run ["python"%string] :: trace sample_start.
Proof.
  apply (proj2 (step_command_words sample_env_ok "   ") eq_refl).
Defined.

End LaunchAllExtras.
